(** * wasm-ql: database keys, query-result iteration, host-call bridge and
      fork-aware query driver

    Shallow embedding of
    - [libraries/eosiolib/wasmql/eosio/database.hpp]: [increment_key],
      [for_each_query_result], [for_each_contract_row];
    - [src/wasm_ql.cpp]: [callbacks], [fill_context_data], [did_fork],
      [retry_loop], [run_query], [query], [legacy_query].

    Conventions.  A [w]-bit unsigned integer is a [Z] in [0, 2^w) and the
    wrap-around of the C++ arithmetic is written out with [mod].  A byte is
    a [Z] in [0, 256).  C++ exceptions are the [Throw] outcome of a small
    state-and-exception monad; the state survives a throw, as it does in
    C++. *)

From Stdlib Require Import ZArith List Lia Bool.
Import ListNotations.
Local Open Scope Z_scope.

(* ================================================================== *)
(** * Database keys ([database.hpp], lines 13-33 and 211-256) *)
(* ================================================================== *)

Module Keys.

(** [!++key] on an unsigned integer of [w] bits: the incremented key and
    whether it wrapped to zero. *)
Definition increment_uint (w : Z) (key : Z) : bool * Z :=
  let key' := (key + 1) mod 2 ^ w in
  (key' =? 0, key').

Definition increment_key_uint8 := increment_uint 8.
Definition increment_key_uint16 := increment_uint 16.
Definition increment_key_uint32 := increment_uint 32.
Definition increment_key_uint64 := increment_uint 64.
Definition increment_key_uint128 := increment_uint 128.

(** [eosio::name]: a 64-bit [value]. *)
Record name := Name { value : Z }.

Definition increment_key_name (key : name) : bool * name :=
  let '(wrapped, v) := increment_key_uint64 (value key) in
  (wrapped, Name v).

(** [eosio::checksum256] is [fixed_bytes<32>]: two 128-bit words,
    [data()[0]] the most significant one in its comparison operators. *)
Record checksum256 := Checksum256 { data0 : Z; data1 : Z }.

(** [increment_key(key.data()[1]) && increment_key(key.data()[0])]: the
    right operand of [&&] runs only when the left one returned true. *)
Definition increment_key_checksum256 (key : checksum256) : bool * checksum256 :=
  let '(w1, d1) := increment_key_uint128 (data1 key) in
  if w1 then
    let '(w0, d0) := increment_key_uint128 (data0 key) in
    (w0, Checksum256 d0 d1)
  else (false, Checksum256 (data0 key) d1).

(** [query_action_trace_executed_range_name_receiver_account_block_trans_action::key];
    [transaction_id] is a [serial_wrapper<checksum256>], whose [value] is the
    checksum. *)
Record key := Key {
  key_name : name;
  receipt_receiver : name;
  account : name;
  block_index : Z;
  transaction_id : checksum256;
  action_index : Z
}.

(** The chain of [&&] of lines 250-255, last field first. *)
Definition increment_key (k : key) : bool * key :=
  let '(w_ai, ai) := increment_key_uint32 (action_index k) in
  if w_ai then
    let '(w_ti, ti) := increment_key_checksum256 (transaction_id k) in
    if w_ti then
      let '(w_bi, bi) := increment_key_uint32 (block_index k) in
      if w_bi then
        let '(w_ac, ac) := increment_key_name (account k) in
        if w_ac then
          let '(w_rr, rr) := increment_key_name (receipt_receiver k) in
          if w_rr then
            let '(w_nm, nm) := increment_key_name (key_name k) in
            (w_nm, Key nm rr ac bi ti ai)
          else (false, Key (key_name k) rr ac bi ti ai)
        else (false, Key (key_name k) (receipt_receiver k) ac bi ti ai)
      else (false, Key (key_name k) (receipt_receiver k) (account k) bi ti ai)
    else
      (false, Key (key_name k) (receipt_receiver k) (account k) (block_index k) ti ai)
  else
    (false,
     Key (key_name k) (receipt_receiver k) (account k) (block_index k)
         (transaction_id k) ai).

(** ** Ranges and orders *)

Definition uint_ok (w : Z) (x : Z) : Prop := 0 <= x < 2 ^ w.
Definition max_uint (w : Z) : Z := 2 ^ w - 1.

Definition name_ok (n : name) : Prop := uint_ok 64 (value n).
Definition checksum256_ok (c : checksum256) : Prop :=
  uint_ok 128 (data0 c) /\ uint_ok 128 (data1 c).
Definition key_ok (k : key) : Prop :=
  name_ok (key_name k) /\ name_ok (receipt_receiver k) /\ name_ok (account k) /\
  uint_ok 32 (block_index k) /\ checksum256_ok (transaction_id k) /\
  uint_ok 32 (action_index k).

(** Lexicographic order on the sequence of fields, first field most
    significant. *)
Fixpoint lex_lt (a b : list Z) : Prop :=
  match a, b with
  | x :: a', y :: b' => x < y \/ (x = y /\ lex_lt a' b')
  | _, _ => False
  end.

Definition checksum256_fields (c : checksum256) : list Z := [data0 c; data1 c].

(** The fields of the key in declared order. *)
Definition key_fields (k : key) : list Z :=
  [value (key_name k); value (receipt_receiver k); value (account k);
   block_index k] ++ checksum256_fields (transaction_id k) ++ [action_index k].

Definition name_lt (a b : name) : Prop := value a < value b.
Definition checksum256_lt (a b : checksum256) : Prop :=
  lex_lt (checksum256_fields a) (checksum256_fields b).
Definition key_lt (a b : key) : Prop := lex_lt (key_fields a) (key_fields b).

Definition max_name : name := Name (max_uint 64).
Definition max_checksum256 : checksum256 := Checksum256 (max_uint 128) (max_uint 128).
Definition max_key : key :=
  Key max_name max_name max_name (max_uint 32) max_checksum256 (max_uint 32).

Definition zero_checksum256 : checksum256 := Checksum256 0 0.
Definition zero_key : key := Key (Name 0) (Name 0) (Name 0) 0 zero_checksum256 0.

(** The successor of one field, as a value. *)
Definition succ_uint (w : Z) (x : Z) : Z := if x =? max_uint w then 0 else x + 1.
Definition succ_name (n : name) : name := Name (succ_uint 64 (value n)).
Definition succ_checksum256 (c : checksum256) : checksum256 :=
  Checksum256 (if data1 c =? max_uint 128 then succ_uint 128 (data0 c) else data0 c)
              (succ_uint 128 (data1 c)).

(** Whether incrementing a field makes it wrap. *)
Definition wraps_uint (w : Z) (x : Z) : bool := x =? max_uint w.
Definition wraps_name (n : name) : bool := wraps_uint 64 (value n).
Definition wraps_checksum256 (c : checksum256) : bool :=
  wraps_uint 128 (data1 c) && wraps_uint 128 (data0 c).

End Keys.

(* ================================================================== *)
(** * Wire primitives used by both files *)
(* ================================================================== *)

Module Wire.

(** A byte is a [Z] in [0, 256). *)
Abbreviation byte := Z.

(** An input cursor ([abieos::input_buffer], [eosio::datastream<const char*>])
    is the list of the bytes between its position and its end.  A read
    that would go past the end fails ([None]): abieos throws, the guest-side
    datastream asserts. *)
Definition take_bytes (n : nat) (bin : list byte) : option (list byte * list byte) :=
  if (length bin <? n)%nat then None else Some (firstn n bin, skipn n bin).

(** Modelled from the spec: the serialisation library is not part of the
    source files.  Section 4.B: primitives serialise in fixed-width
    little-endian form. *)
Fixpoint native_to_bin_uint (nbytes : nat) (v : Z) : list byte :=
  match nbytes with
  | O => []
  | S n => Z.land v 255 :: native_to_bin_uint n (Z.shiftr v 8)
  end.

(** Modelled from the spec: the inverse of [native_to_bin_uint], the value
    of bytes in little-endian order (section 4.B). *)
Fixpoint le_value (bs : list byte) : Z :=
  match bs with
  | [] => 0
  | b :: rest => Z.lor (Z.land b 255) (Z.shiftl (le_value rest) 8)
  end.

Definition read_uint (nbytes : nat) (bin : list byte) : option (Z * list byte) :=
  match take_bytes nbytes bin with
  | Some (bs, rest) => Some (le_value bs, rest)
  | None => None
  end.

(** Modelled from the spec: the serialisation library is not part of the
    source files.  Section 4.B: [varuint32] is LEB128-style, 7 data bits per
    byte, most significant bit set on every byte but the last.  A 32-bit
    value needs at most five bytes. *)
Fixpoint push_varuint32_from (groups : nat) (val : Z) : list byte :=
  match groups with
  | O => []
  | S g =>
      let b := Z.land val 127 in
      let val' := Z.shiftr val 7 in
      if 0 <? val' then Z.lor b 128 :: push_varuint32_from g val' else [b]
  end.

Definition to_uint32 (v : Z) : Z := v mod 2 ^ 32.

Definition push_varuint32 (v : Z) : list byte := push_varuint32_from 5 (to_uint32 v).

(** Modelled from the spec: reading a [varuint32] (section 4.B), 7 data
    bits per byte from the least significant group on, until a byte without
    the continuation bit; the value is truncated to 32 bits. *)
Fixpoint read_varuint32_from (bin : list byte) (shift : Z) (acc : Z)
  : option (Z * list byte) :=
  match bin with
  | [] => None
  | b :: rest =>
      let acc' := Z.lor acc (Z.shiftl (Z.land b 127) shift) in
      if Z.testbit b 7 then read_varuint32_from rest (shift + 7) acc'
      else Some (to_uint32 acc', rest)
  end.

Definition read_varuint32 (bin : list byte) : option (Z * list byte) :=
  read_varuint32_from bin 0 0.

(** Modelled from the spec: section 4.B, byte vectors are a [varuint32]
    length followed by the raw bytes.  Reading one yields the blob and the
    cursor after it. *)
Definition read_blob (bin : list byte) : option (list byte * list byte) :=
  match read_varuint32 bin with
  | Some (len, rest) => take_bytes (Z.to_nat len) rest
  | None => None
  end.

(** The frame of one blob: its length, then its bytes. *)
Definition push_blob (blob : list byte) : list byte :=
  push_varuint32 (Z.of_nat (length blob)) ++ blob.

End Wire.

(* ================================================================== *)
(** * Iterating over query results ([database.hpp], lines 148-158 and
      395-430) *)
(* ================================================================== *)

Module Rows.
Import Wire.

(** [eosio::datastream<const char*>]: the bytes that remain to be read. *)
Definition datastream := list byte.

Definition remaining (ds : datastream) : Z := Z.of_nat (length ds).

(** [struct contract_row]; a [name] is its 64-bit value. *)
Record contract_row := ContractRow {
  block_index : Z;
  present : bool;
  code : Z;
  scope : Z;
  table : Z;
  primary_key : Z;
  payer : Z;
  value : datastream
}.

Definition set_value (row : contract_row) (v : datastream) : contract_row :=
  ContractRow (block_index row) (present row) (code row) (scope row)
              (table row) (primary_key row) (payer row) v.

(** Modelled from the spec: the reflection-driven [operator>>] for
    [contract_row] is not part of the source files.  Section 4.B: a struct
    is its fields in declared order, a [bool] is one byte, an opaque blob
    is length-prefixed. *)
Definition unpack_contract_row (ds : datastream) : option contract_row :=
  match read_uint 4 ds with None => None | Some (bi, ds) =>
  match read_uint 1 ds with None => None | Some (pr, ds) =>
  match read_uint 8 ds with None => None | Some (co, ds) =>
  match read_uint 8 ds with None => None | Some (sc, ds) =>
  match read_uint 8 ds with None => None | Some (ta, ds) =>
  match read_uint 8 ds with None => None | Some (pk, ds) =>
  match read_uint 8 ds with None => None | Some (pa, ds) =>
  match read_blob ds with None => None | Some (va, _) =>
    Some (ContractRow bi (negb (pr =? 0)) co sc ta pk pa va)
  end end end end end end end end.

Section ForEach.

(** [St] is whatever the callback [f] captures and updates; the callback
    returns [None] when it aborts the guest (a failed assertion). *)
Context {St : Type}.

Section QueryResult.
Context {Row : Type}.
(** [row >> r] for the row type [T] of [for_each_query_result]. *)
Variable unpack_row : datastream -> option Row.
Variable f : Row -> St -> option (bool * St).

(** The loop of [for_each_query_result], [n] rows still to visit. *)
Fixpoint for_each_row (n : nat) (ds : datastream) (s : St) : option (bool * St) :=
  match n with
  | O => Some (true, s)
  | S n' =>
      match read_blob ds with
      | None => None
      | Some (row, ds') =>
          match unpack_row row with
          | None => None
          | Some r =>
              match f r s with
              | None => None
              | Some (false, s') => Some (false, s')
              | Some (true, s') => for_each_row n' ds' s'
              end
          end
      end
  end.

Definition for_each_query_result (bytes : list byte) (s : St) : option (bool * St) :=
  match read_varuint32 bytes with
  | None => None
  | Some (size, ds) => for_each_row (Z.to_nat size) ds s
  end.

End QueryResult.

Section ContractRow.
Context {T : Type}.
(** [row.value >> p]: the unpacked data and the cursor left in [row.value];
    [None] when unpacking asserts. *)
Variable unpack_data : datastream -> option (T * datastream).
(** [f(row, data)]: [data] is [None] for [nullptr], [Some p] for [&p]. *)
Variable f : contract_row -> option T -> St -> option (bool * St).

(** The lambda that [for_each_contract_row] hands to
    [for_each_query_result]. *)
Definition contract_row_visitor (row : contract_row) (s : St) : option (bool * St) :=
  if present row && negb (remaining (value row) =? 0) then
    match unpack_data (value row) with
    | None => None
    | Some (p, rest) =>
        match f (set_value row rest) (Some p) s with
        | None => None
        | Some (false, s') => Some (false, s')
        | Some (true, s') => Some (true, s')
        end
    end
  else
    match f row None s with
    | None => None
    | Some (false, s') => Some (false, s')
    | Some (true, s') => Some (true, s')
    end.

Definition for_each_contract_row (bytes : list byte) (s : St) : option (bool * St) :=
  for_each_query_result unpack_contract_row contract_row_visitor bytes s.

(** *** The behaviour claimed for [for_each_contract_row] *)

(** The rows of a result, all decoded up front. *)
Fixpoint decode_rows (n : nat) (ds : datastream) : option (list contract_row) :=
  match n with
  | O => Some []
  | S n' =>
      match read_blob ds with
      | None => None
      | Some (row, ds') =>
          match unpack_contract_row row, decode_rows n' ds' with
          | Some r, Some rs => Some (r :: rs)
          | _, _ => None
          end
      end
  end.

Definition decode_result (bytes : list byte) : option (list contract_row) :=
  match read_varuint32 bytes with
  | None => None
  | Some (size, ds) => decode_rows (Z.to_nat size) ds
  end.

(** What [f] receives for one row: a null pointer exactly when the row is
    not present or its value is empty, otherwise the unpacked value (and
    the row with its value cursor moved past the unpacked data). *)
Definition is_null_data (row : contract_row) : bool :=
  negb (present row) || (remaining (value row) =? 0).

Definition visit_one (row : contract_row) (s : St) : option (bool * St) :=
  if is_null_data row then f row None s
  else
    match unpack_data (value row) with
    | None => None
    | Some (p, rest) => f (set_value row rest) (Some p) s
    end.

(** Visit the rows in order, stopping with [false] at the first row for
    which the callback returns [false]. *)
Fixpoint visit_rows (rows : list contract_row) (s : St) : option (bool * St) :=
  match rows with
  | [] => Some (true, s)
  | row :: rest =>
      match visit_one row s with
      | None => None
      | Some (false, s') => Some (false, s')
      | Some (true, s') => visit_rows rest s'
      end
  end.

End ContractRow.
End ForEach.

End Rows.

(* ================================================================== *)
(** * The query host ([wasm_ql.cpp]) *)
(* ================================================================== *)

Module WasmQL.
Import Wire.

(** ** Data *)

(** [abieos::checksum256]: its [value] is an array of 32 bytes. *)
Definition checksum256 := list byte.

Definition checksum256_eqb (a b : checksum256) : bool :=
  if list_eq_dec Z.eq_dec a b then true else false.

(** [abieos::name] is its 64-bit value.  Symbols of a name literal: ['.'] is
    0, ['1'..'5'] are 1..5, ['a'..'z'] are 6..31; the i-th symbol sits 5 bits
    below the one before it, from the top of the word. *)
Fixpoint name_of_symbols (shift : Z) (symbols : list Z) : Z :=
  match symbols with
  | [] => 0
  | c :: rest => Z.lor (Z.shiftl c (shift - 5)) (name_of_symbols (shift - 5) rest)
  end.

(** ["local"_n] and ["legacy"_n]. *)
Definition local_n : Z := Eval cbv in name_of_symbols 64 [17; 20; 8; 6; 17].
Definition legacy_n : Z := Eval cbv in name_of_symbols 64 [17; 10; 12; 6; 8; 30].

(** [state_history::fill_status]. *)
Record fill_status_t := FillStatus {
  head : Z;
  head_id : checksum256;
  irreversible : Z;
  irreversible_id : checksum256;
  first : Z
}.

(** The store behind [shared->db_iface] is not part of the source files; it
    is taken as a parameter.  Sessions are numbered in the order
    [create_query_session] hands them out.  [get_block_id] and
    [query_database] are answered in terms of the session and of the number
    of session calls served before, so that the store may change (fork)
    while a session is open. *)
Record database_interface := DatabaseInterface {
  get_fill_status : nat -> fill_status_t;
  get_block_id : nat -> nat -> Z -> option checksum256;
  db_query_database : nat -> nat -> list byte -> Z -> list byte
}.

(** [eosio::vm::wasm_allocator] as the host sees it: [mem] is the host's
    address space, of which the guest's linear memory is the window
    [[base_ptr, base_ptr + mem_size)].  [mem] is total: an access outside
    the mapped memory, where the program faults, reads or writes like any
    other.  What is stated about the bytes of a range is therefore stated
    for ranges inside the window ([in_linear_memory]), except where the
    point is that the code does not check. *)
Record wasm_allocator := WasmAllocator {
  base_ptr : Z;
  mem_size : Z;
  mem : Z -> byte
}.

Definition in_linear_memory (wa : wasm_allocator) (p_begin p_end : Z) : Prop :=
  base_ptr wa <= p_begin /\ p_end <= base_ptr wa + mem_size wa.

(** The bytes at the addresses [[p_begin, p_end)]. *)
Definition read_range (m : Z -> byte) (p_begin p_end : Z) : list byte :=
  map (fun i => m (p_begin + Z.of_nat i)) (seq 0 (Z.to_nat (p_end - p_begin))).

(** [memcpy(dest, src.data(), src.size())]. *)
Definition memcpy (m : Z -> byte) (dest : Z) (src : list byte) : Z -> byte :=
  fun a =>
    if (dest <=? a) && (a <? dest + Z.of_nat (length src))
    then nth (Z.to_nat (a - dest)) src 0
    else m a.

(** What [execute_func_table] can hand back: an operand of one of the four
    value types, or nothing. *)
Inductive operand :=
| i32_const (v : Z)
| i64_const (v : Z)
| f32_const (bits : Z)
| f64_const (bits : Z).

Inductive callback_outcome :=
| callback_traps
| callback_returns (result : option operand) (wa' : wasm_allocator).

(** The host functions registered by [register_callbacks], with the 32-bit
    arguments the guest passes. *)
Inductive host_call :=
| call_abort
| call_eosio_assert_message (test msg msg_len : Z)
| call_get_database_status (cb_alloc_data cb_alloc : Z)
| call_get_input_data (cb_alloc_data cb_alloc : Z)
| call_set_output_data (p_begin p_end : Z)
| call_query_database (req_begin req_end cb_alloc_data cb_alloc : Z)
| call_print_range (p_begin p_end : Z).

(** The interpreter is not part of the source files.  A run of an exported
    guest function is the tree of the host calls it makes: after each host
    call the guest goes on as a function of the memory the host left.
    Runs that never return are outside this model: a tree is finite, so
    nothing is claimed about whether a guest run ends. *)
Inductive guest_code :=
| guest_returns
| guest_traps
| guest_calls (c : host_call) (k : wasm_allocator -> guest_code).

(** A loaded module ([backend_t]): its function table as called through
    [execute_func_table] with two arguments, the memory that
    [backend.initialize] sets up, and the two exports [run_query] calls. *)
Record wasm_module := WasmModule {
  execute_func_table : Z -> Z -> Z -> wasm_allocator -> callback_outcome;
  initialize_memory : wasm_allocator -> wasm_allocator;
  export_initialize : wasm_allocator -> guest_code;
  export_run_query : wasm_allocator -> guest_code
}.

(** [wasm_ql::shared_state]: [read_wasm] of the file named after a short
    name is a lookup in [wasm_files]. *)
Record shared_state := SharedState {
  console : bool;
  wasm_files : Z -> option wasm_module;
  db_iface : database_interface
}.

Inductive log_line :=
| log_fork_prev_head_not_found   (* "fork detected (prev head not found)" *)
| log_fork_head_id_changed       (* "fork detected (head_id changed)" *)
| log_retry_request.             (* "retry request" *)

(** Bookkeeping of one guest run, kept for the statements only: the
    session that was open, the module, and the ranges the guest handed to
    [set_output_data], oldest first. *)
Record guest_run := GuestRun {
  run_session : option nat;
  run_name : Z;
  run_outputs : list (list byte)
}.

(** [wasm_ql::thread_state] (the first six fields) together with the world
    around it: what went to [std::cerr] and to the log, how many sessions the
    store created and how many session calls it served, and the guest runs
    so far, latest first. *)
Record state := State {
  wa : wasm_allocator;
  query_session : option nat;
  fill_status : fill_status_t;
  request : list byte;
  reply : list byte;
  database_status : list byte;
  cerr : list byte;
  ilog : list log_line;
  sessions_created : nat;
  session_calls : nat;
  guest_runs : list guest_run
}.

Definition set_wa (st : state) (v : wasm_allocator) : state :=
  State v (query_session st) (fill_status st) (request st) (reply st)
        (database_status st) (cerr st) (ilog st) (sessions_created st)
        (session_calls st) (guest_runs st).
Definition set_query_session (st : state) (v : option nat) : state :=
  State (wa st) v (fill_status st) (request st) (reply st)
        (database_status st) (cerr st) (ilog st) (sessions_created st)
        (session_calls st) (guest_runs st).
Definition set_fill_status (st : state) (v : fill_status_t) : state :=
  State (wa st) (query_session st) v (request st) (reply st)
        (database_status st) (cerr st) (ilog st) (sessions_created st)
        (session_calls st) (guest_runs st).
Definition set_request (st : state) (v : list byte) : state :=
  State (wa st) (query_session st) (fill_status st) v (reply st)
        (database_status st) (cerr st) (ilog st) (sessions_created st)
        (session_calls st) (guest_runs st).
Definition set_reply (st : state) (v : list byte) : state :=
  State (wa st) (query_session st) (fill_status st) (request st) v
        (database_status st) (cerr st) (ilog st) (sessions_created st)
        (session_calls st) (guest_runs st).
Definition set_database_status (st : state) (v : list byte) : state :=
  State (wa st) (query_session st) (fill_status st) (request st) (reply st)
        v (cerr st) (ilog st) (sessions_created st)
        (session_calls st) (guest_runs st).
Definition set_cerr (st : state) (v : list byte) : state :=
  State (wa st) (query_session st) (fill_status st) (request st) (reply st)
        (database_status st) v (ilog st) (sessions_created st)
        (session_calls st) (guest_runs st).
Definition set_ilog (st : state) (v : list log_line) : state :=
  State (wa st) (query_session st) (fill_status st) (request st) (reply st)
        (database_status st) (cerr st) v (sessions_created st)
        (session_calls st) (guest_runs st).
Definition set_sessions_created (st : state) (v : nat) : state :=
  State (wa st) (query_session st) (fill_status st) (request st) (reply st)
        (database_status st) (cerr st) (ilog st) v
        (session_calls st) (guest_runs st).
Definition set_session_calls (st : state) (v : nat) : state :=
  State (wa st) (query_session st) (fill_status st) (request st) (reply st)
        (database_status st) (cerr st) (ilog st) (sessions_created st)
        v (guest_runs st).
Definition set_guest_runs (st : state) (v : list guest_run) : state :=
  State (wa st) (query_session st) (fill_status st) (request st) (reply st)
        (database_status st) (cerr st) (ilog st) (sessions_created st)
        (session_calls st) v.

(** ** Exceptions and state *)

Inductive error :=
| bad_memory                        (* "bad memory" *)
| bad_callback_return               (* "cb_alloc returned incorrect type" *)
| called_abort                      (* "called abort" *)
| assert_message (msg : list byte)  (* the guest's [std::string]; [what()]
                                       shows it up to the first NUL *)
| empty_database                    (* "database is empty" *)
| too_many_forks                    (* "too many fork events during request" *)
| unknown_namespace (ns : Z)        (* "unknown namespace: ..." *)
| guest_trap                        (* a fault raised by the interpreter *)
| stream_error                      (* abieos: read past the end *)
| module_error                      (* [read_wasm] found no usable module *)
| null_session.                     (* [query_session] used while reset: the
                                       program dereferences a null pointer;
                                       under [retry_loop] a session is open *)

(** [out_of_fuel] is produced only by the fuel of [retry_loop_from]. *)
Inductive outcome (A : Type) :=
| Ok (a : A)
| Throw (e : error)
| out_of_fuel.
Arguments Ok {A} a.
Arguments Throw {A} e.
Arguments out_of_fuel {A}.

Definition M (A : Type) : Type := state -> outcome A * state.

Definition ret {A} (a : A) : M A := fun st => (Ok a, st).
Definition throw {A} (e : error) : M A := fun st => (Throw e, st).
Definition bind {A B} (m : M A) (k : A -> M B) : M B :=
  fun st =>
    match m st with
    | (Ok a, st') => k a st'
    | (Throw e, st') => (Throw e, st')
    | (out_of_fuel, st') => (out_of_fuel, st')
    end.
Definition get : M state := fun st => (Ok st, st).
Definition modify (f : state -> state) : M unit := fun st => (Ok tt, f st).

Notation "x <- m ;; k" := (bind m (fun x => k))
  (at level 61, m at next level, right associativity).
Notation "m ;;; k" := (bind m (fun _ => k))
  (at level 61, right associativity).

Section Host.

Variable shared : shared_state.

(** ** [struct callbacks] *)

Section Callbacks.

Variable backend : wasm_module.

(** Lines 20-24.  Only the order of the two pointers is checked; the source
    leaves the check against the linear memory as a todo. *)
Definition check_bounds (p_begin p_end : Z) : M unit :=
  if p_begin >? p_end then throw bad_memory else ret tt.

(** Lines 26-35.  [size] is a [uint32_t]. *)
Definition alloc (cb_alloc_data cb_alloc size : Z) : M Z :=
  fun st =>
    match execute_func_table backend cb_alloc cb_alloc_data size (wa st) with
    | callback_traps => (Throw guest_trap, st)
    | callback_returns result wa' =>
        let st' := set_wa st wa' in
        match result with
        | Some (i32_const v) =>
            let p_begin := base_ptr wa' + to_uint32 v in
            (check_bounds p_begin (p_begin + size) ;;; ret p_begin) st'
        | _ => (Throw bad_callback_return, st')
        end
    end.

(** [memcpy(data, src.data(), src.size())] into the allocator's memory. *)
Definition copy_to (data : Z) (src : list byte) : M unit :=
  modify (fun st =>
    set_wa st (WasmAllocator (base_ptr (wa st)) (mem_size (wa st))
                             (memcpy (mem (wa st)) data src))).

Definition abort : M unit := throw called_abort.

Definition eosio_assert_message (test : bool) (msg msg_len : Z) : M unit :=
  if negb test then
    st <- get ;; throw (assert_message (read_range (mem (wa st)) msg (msg + msg_len)))
  else ret tt.

Definition get_database_status (cb_alloc_data cb_alloc : Z) : M unit :=
  st <- get ;;
  data <- alloc cb_alloc_data cb_alloc
                (to_uint32 (Z.of_nat (length (database_status st)))) ;;
  copy_to data (database_status st).

(** [request] holds the bytes from [request.pos] to [request.end]. *)
Definition get_input_data (cb_alloc_data cb_alloc : Z) : M unit :=
  st <- get ;;
  data <- alloc cb_alloc_data cb_alloc
                (to_uint32 (Z.of_nat (length (request st)))) ;;
  copy_to data (request st).

(** Adds the bytes to the outputs of the run in progress. *)
Definition note_output (bytes : list byte) (st : state) : state :=
  match guest_runs st with
  | [] => st
  | r :: older =>
      set_guest_runs st
        (GuestRun (run_session r) (run_name r) (run_outputs r ++ [bytes]) :: older)
  end.

Definition set_output_data (p_begin p_end : Z) : M unit :=
  check_bounds p_begin p_end ;;;
  modify (fun st =>
    let bytes := read_range (mem (wa st)) p_begin p_end in
    note_output bytes (set_reply st bytes)).

Definition query_database (req_begin req_end cb_alloc_data cb_alloc : Z) : M unit :=
  check_bounds req_begin req_end ;;;
  st <- get ;;
  match query_session st with
  | None => throw null_session
  | Some session =>
      let result :=
        db_query_database (db_iface shared) session (session_calls st)
          (read_range (mem (wa st)) req_begin req_end) (head (fill_status st)) in
      modify (fun st => set_session_calls st (S (session_calls st))) ;;;
      data <- alloc cb_alloc_data cb_alloc (to_uint32 (Z.of_nat (length result))) ;;
      copy_to data result
  end.

Definition print_range (p_begin p_end : Z) : M unit :=
  check_bounds p_begin p_end ;;;
  if console shared then
    modify (fun st =>
      set_cerr st (cerr st ++ read_range (mem (wa st)) p_begin p_end))
  else ret tt.

(** The registered host functions as the interpreter calls them: a 32-bit
    guest offset becomes a host pointer by adding the base of the linear
    memory, a 32-bit flag becomes a [bool]. *)
Definition call_host_function (c : host_call) : M unit :=
  fun st =>
    let ptr (v : Z) := base_ptr (wa st) + to_uint32 v in
    match c with
    | call_abort => abort st
    | call_eosio_assert_message test msg msg_len =>
        eosio_assert_message (negb (to_uint32 test =? 0)) (ptr msg)
                             (to_uint32 msg_len) st
    | call_get_database_status cb_alloc_data cb_alloc =>
        get_database_status (to_uint32 cb_alloc_data) (to_uint32 cb_alloc) st
    | call_get_input_data cb_alloc_data cb_alloc =>
        get_input_data (to_uint32 cb_alloc_data) (to_uint32 cb_alloc) st
    | call_set_output_data p_begin p_end =>
        set_output_data (ptr p_begin) (ptr p_end) st
    | call_query_database req_begin req_end cb_alloc_data cb_alloc =>
        query_database (ptr req_begin) (ptr req_end)
                       (to_uint32 cb_alloc_data) (to_uint32 cb_alloc) st
    | call_print_range p_begin p_end =>
        print_range (ptr p_begin) (ptr p_end) st
    end.

(** Running an exported function: its host calls in order, until it
    returns, traps, or a host call throws. *)
Fixpoint run_guest (code : guest_code) : M unit :=
  fun st =>
    match code with
    | guest_returns => (Ok tt, st)
    | guest_traps => (Throw guest_trap, st)
    | guest_calls c k =>
        match call_host_function c st with
        | (Ok _, st') => run_guest (k (wa st')) st'
        | (Throw e, st') => (Throw e, st')
        | (out_of_fuel, st') => (out_of_fuel, st')
        end
    end.

End Callbacks.

(** ** The driver *)

(** Lines 86-93. *)
Definition fill_context_data : M unit :=
  modify (fun st =>
    let fs := fill_status st in
    set_database_status st
      (native_to_bin_uint 4 (head fs) ++ head_id fs ++
       native_to_bin_uint 4 (irreversible fs) ++ irreversible_id fs ++
       native_to_bin_uint 4 (first fs))).

Definition log (l : log_line) : M unit :=
  modify (fun st => set_ilog st (ilog st ++ [l])).

(** Lines 96-107. *)
Definition did_fork : M bool :=
  st <- get ;;
  match query_session st with
  | None => throw null_session
  | Some session =>
      let id := get_block_id (db_iface shared) session (session_calls st)
                             (head (fill_status st)) in
      modify (fun st => set_session_calls st (S (session_calls st))) ;;;
      match id with
      | None => log log_fork_prev_head_not_found ;;; ret true
      | Some value =>
          if negb (checksum256_eqb value (head_id (fill_status st))) then
            log log_fork_head_id_changed ;;; ret true
          else ret false
      end
  end.

(** [thread_state.query_session.reset()], run by the scoped exit at the end
    of every iteration of [retry_loop], however the iteration ends. *)
Definition reset_session (st : state) : state := set_query_session st None.

(** [create_query_session] followed by [get_fill_status]. *)
Definition open_session (st : state) : state :=
  let session := sessions_created st in
  set_fill_status
    (set_query_session (set_sessions_created st (S session)) (Some session))
    (get_fill_status (db_iface shared) session).

(** Lines 109-125.  [f] is the lambda; [Captured] is what it captures by
    reference and updates.  The [while (true)] loop is unfolded [fuel]
    times; [retry_loop] gives it 4, which is never exhausted. *)
Fixpoint retry_loop_from {Captured : Type} (fuel : nat) (num_tries : Z)
    (f : Captured -> M (bool * Captured)) (c : Captured) : M Captured :=
  fun st =>
    match fuel with
    | O => (out_of_fuel, st)
    | S fuel' =>
        let st := open_session st in
        if head (fill_status st) =? 0 then (Throw empty_database, reset_session st)
        else
          match (fill_context_data ;;; f c) st with
          | (Ok (true, c'), st') => (Ok c', reset_session st')
          | (Ok (false, c'), st') =>
              let num_tries := num_tries + 1 in
              if num_tries >=? 4 then (Throw too_many_forks, reset_session st')
              else
                match log log_retry_request st' with
                | (_, st'') => retry_loop_from fuel' num_tries f c' (reset_session st'')
                end
          | (Throw e, st') => (Throw e, reset_session st')
          | (out_of_fuel, st') => (out_of_fuel, reset_session st')
          end
    end.

Definition retry_loop {Captured : Type}
    (f : Captured -> M (bool * Captured)) (c : Captured) : M Captured :=
  retry_loop_from 4 0 f c.

(** Lines 127-137. *)
Definition run_query (short_name : Z) : M unit :=
  match wasm_files shared short_name with
  | None => throw module_error
  | Some backend =>
      modify (fun st =>
        set_guest_runs
          (set_wa st (initialize_memory backend (wa st)))
          (GuestRun (query_session st) short_name [] :: guest_runs st)) ;;;
      st <- get ;;
      run_guest backend (export_initialize backend (wa st)) ;;;
      st <- get ;;
      run_guest backend (export_run_query backend (wa st))
  end.

(** [bin_to_native<T>(thread_state.request)]: reads from the request cursor
    and advances it. *)
Definition read_request_name : M Z :=
  st <- get ;;
  match read_uint 8 (request st) with
  | None => throw stream_error
  | Some (v, rest) => modify (fun st => set_request st rest) ;;; ret v
  end.

(** The [for] loop of lines 146-160, [n] sub-requests still to run;
    [request_bin] and [result] are the locals of [query]. *)
Fixpoint query_requests (n : nat) (request_bin : list byte) (result : list byte)
  : M (bool * list byte) :=
  match n with
  | O => ret (true, result)
  | S n' =>
      match read_blob request_bin with
      | None => throw stream_error
      | Some (sub_request, request_bin') =>
          modify (fun st => set_request st sub_request) ;;;
          ns_name <- read_request_name ;;
          if negb (ns_name =? local_n) then throw (unknown_namespace ns_name)
          else
            short_name <- read_request_name ;;
            run_query short_name ;;;
            forked <- did_fork ;;
            if forked then ret (false, result)
            else
              st <- get ;;
              query_requests n' request_bin'
                (result ++ push_varuint32 (Z.of_nat (length (reply st))) ++ reply st)
      end
  end.

(** The lambda of lines 141-162. *)
Definition query_attempt (request : list byte) (result : list byte)
  : M (bool * list byte) :=
  match read_varuint32 request with
  | None => throw stream_error
  | Some (num_requests, request_bin) =>
      query_requests (Z.to_nat num_requests) request_bin
                     ([] ++ push_varuint32 num_requests)
  end.

(** Lines 139-164. *)
Definition query (request : list byte) : M (list byte) :=
  retry_loop (query_attempt request) [].

(** Lines 166-176; [target] is the string's bytes.  The cursor is held by
    value here; in the program it points into the local [req], which lives
    until [legacy_query] returns, so that what [request] holds afterwards
    means nothing. *)
Definition legacy_query (target : list byte) (request : list byte) : M (list byte) :=
  modify (fun st => set_request st (push_blob target ++ push_blob request)) ;;;
  retry_loop (fun _ : unit =>
                run_query legacy_n ;;;
                forked <- did_fork ;;
                ret (negb forked, tt)) tt ;;;
  st <- get ;;
  ret (reply st).

End Host.

(** ** Reading the bookkeeping *)

(** The last range a run handed to [set_output_data], if any. *)
Definition last_output (r : guest_run) : option (list byte) :=
  match rev (run_outputs r) with
  | [] => None
  | bytes :: _ => Some bytes
  end.

(** The reply buffer after each of a sequence of runs (oldest first), given
    what it held before the first: a run that calls [set_output_data]
    replaces it, a run that does not leaves it as it was. *)
Fixpoint replies_after (previous : list byte) (runs : list guest_run)
  : list (list byte) :=
  match runs with
  | [] => []
  | r :: later =>
      let now := match last_output r with Some bytes => bytes | None => previous end in
      now :: replies_after now later
  end.

(** The top-level reply of section 6: the count, then each blob behind its
    length. *)
Definition encode_reply (blobs : list (list byte)) : list byte :=
  push_varuint32 (Z.of_nat (length blobs)) ++ flat_map push_blob blobs.

Definition fork_logged (l : log_line) : bool :=
  match l with
  | log_fork_prev_head_not_found | log_fork_head_id_changed => true
  | log_retry_request => false
  end.

(** How many fork detections the log holds. *)
Definition forks_detected (st : state) : nat :=
  length (filter fork_logged (ilog st)).

(** What a guest run can do to the state, [outs] being the ranges it handed
    to [set_output_data]: it leaves the session, the fill status, the request
    cursor, the status blob, the log and the session count alone; the reply
    buffer ends as the last of [outs], or as it was when there is none; and
    [outs] is added to the run in progress. *)
Record guest_effect (st st' : state) (outs : list (list byte)) : Prop := {
  effect_session : query_session st' = query_session st;
  effect_fill_status : fill_status st' = fill_status st;
  effect_request : request st' = request st;
  effect_database_status : database_status st' = database_status st;
  effect_ilog : ilog st' = ilog st;
  effect_sessions_created : sessions_created st' = sessions_created st;
  effect_reply : reply st' = last outs (reply st);
  effect_runs :
    forall r older,
      guest_runs st = r :: older ->
      guest_runs st' =
      GuestRun (run_session r) (run_name r) (run_outputs r ++ outs) :: older
}.

(** A computation that behaves as part of a guest run. *)
Definition guest_action {A : Type} (m : M A) : Prop :=
  forall st,
    fst (m st) <> out_of_fuel /\ exists outs, guest_effect st (snd (m st)) outs.

(** A reply committed by [query]: all its sub-requests ran while the session
    created last was open, and its blobs are the reply buffer after each
    run, [previous] being what the buffer held before the first. *)
Definition committed (request reply : list byte) (st' : state) : Prop :=
  exists n rest session runs older previous,
    read_varuint32 request = Some (n, rest) /\
    sessions_created st' = S session /\
    guest_runs st' = rev runs ++ older /\
    length runs = Z.to_nat n /\
    Forall (fun r => run_session r = Some session) runs /\
    reply = push_varuint32 n ++ flat_map push_blob (replies_after previous runs).

(** The callback-allocation protocol of section 4.F for one [payload],
    started in [st]: the guest function [cb_alloc] is called with
    [(cb_alloc_data, size of payload)]; unless it traps, a result that is
    missing or not an [i32] is fatal, and otherwise the payload, all of it
    and nothing else, is written at the offset returned.  [result] is
    what the host call produced. *)
Definition delivers (backend : wasm_module) (cb_alloc_data cb_alloc : Z)
    (payload : list byte) (st : state) (result : outcome unit * state) : Prop :=
  let size := Z.of_nat (length payload) in
  match execute_func_table backend cb_alloc cb_alloc_data size (wa st) with
  | callback_traps => result = (Throw guest_trap, st)
  | callback_returns (Some (i32_const v)) wa' =>
      let data := base_ptr wa' + to_uint32 v in
      exists st',
        result = (Ok tt, st') /\
        st' = set_wa st (wa st') /\
        base_ptr (wa st') = base_ptr wa' /\
        mem_size (wa st') = mem_size wa' /\
        read_range (mem (wa st')) data (data + size) = payload /\
        (forall a, a < data \/ data + size <= a -> mem (wa st') a = mem wa' a)
  | callback_returns _ wa' => result = (Throw bad_callback_return, set_wa st wa')
  end.

(** [blob] is among the ranges that a run under [session] handed to
    [set_output_data]. *)
Definition produced_under (runs : list guest_run) (session : nat)
    (blob : list byte) : Prop :=
  exists r, In r runs /\ run_session r = Some session /\ In blob (run_outputs r).

End WasmQL.

(* ================================================================== *)
(** * Concrete stores, modules and requests *)
(* ================================================================== *)

Module Examples.
Import Wire WasmQL.

Definition id_a : checksum256 := repeat 170 32.

(** A thread that has served nothing yet. *)
Definition initial_state : state :=
  State (WasmAllocator 0 0 (fun _ => 0)) None (FillStatus 0 [] 0 [] 0)
        [] [] [] [] [] 0 0 [].

(** One sub-request of the top-level request: namespace ["local"], the
    module's short name, the payload. *)
Definition sub_request (short_name : Z) (payload : list byte) : list byte :=
  push_blob (native_to_bin_uint 8 local_n ++ native_to_bin_uint 8 short_name ++
             payload).

(** The callback every example module exports at any table index: it
    returns the offset 16 and leaves the memory alone. *)
Definition alloc_at_16 (_ _ _ : Z) (wa : wasm_allocator) : callback_outcome :=
  callback_returns (Some (i32_const 16)) wa.

(** One page of linear memory at host address 4096, every byte [fill]. *)
Definition fresh_memory (fill : byte) (_ : wasm_allocator) : wasm_allocator :=
  WasmAllocator 4096 65536 (fun _ => fill).

(** Writes the one byte at offset 0 (a 7) as its output. *)
Definition writer : wasm_module :=
  WasmModule alloc_at_16 (fresh_memory 7) (fun _ => guest_returns)
    (fun _ => guest_calls (call_set_output_data 0 1) (fun _ => guest_returns)).

(** Never calls [set_output_data]. *)
Definition silent : wasm_module :=
  WasmModule alloc_at_16 (fresh_memory 7) (fun _ => guest_returns)
    (fun _ => guest_returns).

(** Fetches the database status to offset 16 and writes its first byte, the
    low byte of [head], as its output. *)
Definition head_writer : wasm_module :=
  WasmModule alloc_at_16 (fresh_memory 9) (fun _ => guest_returns)
    (fun _ =>
       guest_calls (call_get_database_status 0 0) (fun _ =>
       guest_calls (call_set_output_data 16 17) (fun _ => guest_returns))).

(** Fetches the database status and writes an output (the 9 at offset 100)
    only when the low byte of [head] is 1. *)
Definition conditional : wasm_module :=
  WasmModule alloc_at_16 (fresh_memory 9) (fun _ => guest_returns)
    (fun _ =>
       guest_calls (call_get_database_status 0 0) (fun wa =>
       if mem wa (base_ptr wa + 16) =? 1
       then guest_calls (call_set_output_data 100 101) (fun _ => guest_returns)
       else guest_returns)).

Definition writer_n : Z := 1.
Definition silent_n : Z := 2.
Definition head_writer_n : Z := 3.
Definition conditional_n : Z := 4.

Definition files (short_name : Z) : option wasm_module :=
  if short_name =? writer_n then Some writer
  else if short_name =? silent_n then Some silent
  else if short_name =? head_writer_n then Some head_writer
  else if short_name =? conditional_n then Some conditional
  else None.

(** A store whose head is block 1 and never forks. *)
Definition steady_db : database_interface :=
  DatabaseInterface (fun _ => FillStatus 1 id_a 1 id_a 1)
                    (fun _ _ _ => Some id_a) (fun _ _ _ _ => []).

(** A store without blocks. *)
Definition empty_db : database_interface :=
  DatabaseInterface (fun _ => FillStatus 0 [] 0 [] 0)
                    (fun _ _ _ => None) (fun _ _ _ _ => []).

(** The n-th session sees head n+1.  The first session loses its head to a
    fork after it has answered one call; later sessions are stable. *)
Definition forking_db : database_interface :=
  DatabaseInterface
    (fun session => FillStatus (Z.of_nat session + 1) id_a 0 id_a 0)
    (fun session calls _ =>
       if (session =? 0)%nat && (1 <=? calls)%nat then None else Some id_a)
    (fun _ _ _ _ => []).

Definition steady_shared : shared_state := SharedState false files steady_db.
Definition empty_shared : shared_state := SharedState false files empty_db.
Definition forking_shared : shared_state := SharedState false files forking_db.

(** The request with no sub-request. *)
Definition no_requests : list byte := push_varuint32 0.

Definition writer_request : list byte :=
  push_varuint32 1 ++ sub_request writer_n [].

Definition writer_then_silent : list byte :=
  push_varuint32 2 ++ sub_request writer_n [] ++ sub_request silent_n [].

Definition conditional_then_head_writer : list byte :=
  push_varuint32 2 ++ sub_request conditional_n [] ++
  sub_request head_writer_n [].

(** A guest run in progress over one page of memory at host address 4096
    whose byte at address [a] is [a mod 251]. *)
Definition running_state : state :=
  State (WasmAllocator 4096 65536 (fun a => a mod 251)) (Some 0%nat)
        (FillStatus 1 id_a 1 id_a 1) [] [] [] [] [] 1 0
        [GuestRun (Some 0%nat) writer_n []].

(** What a guest run leaves visible in the bookkeeping. *)
Definition run_summary (r : guest_run) : option nat * Z * list (list byte) :=
  (run_session r, run_name r, run_outputs r).

(** The state in which the first attempt of a request on [steady_shared]
    runs its guests. *)
Definition first_attempt : state :=
  snd (fill_context_data (open_session steady_shared initial_state)).

(** A key whose last two fields are at their maxima: the increment carries
    through [action_index] and [transaction_id] into [block_index]. *)
Definition carrying_key : Keys.key :=
  Keys.Key (Keys.Name 7) (Keys.Name 8) (Keys.Name 9) 10 Keys.max_checksum256
           (Keys.max_uint 32).

(** A query result of two contract rows: a present row whose value is the
    bytes 5 and 6, and a row that is not present. *)
Definition present_row_bytes : list byte :=
  native_to_bin_uint 4 3 ++ [1] ++ native_to_bin_uint 8 11 ++
  native_to_bin_uint 8 12 ++ native_to_bin_uint 8 13 ++ native_to_bin_uint 8 14 ++
  native_to_bin_uint 8 15 ++ push_blob [5; 6].

Definition absent_row_bytes : list byte :=
  native_to_bin_uint 4 4 ++ [0] ++ native_to_bin_uint 8 11 ++
  native_to_bin_uint 8 12 ++ native_to_bin_uint 8 13 ++ native_to_bin_uint 8 14 ++
  native_to_bin_uint 8 15 ++ push_blob [].

Definition two_rows : list byte :=
  push_varuint32 2 ++ push_blob present_row_bytes ++ push_blob absent_row_bytes.

(** Contract data of one byte. *)
Definition unpack_byte (ds : Rows.datastream) : option (Z * Rows.datastream) :=
  match ds with
  | [] => None
  | b :: rest => Some (b, rest)
  end.

(** A callback that records the block index and the data of each row it
    is given and goes on. *)
Definition record_rows (row : Rows.contract_row) (data : option Z)
    (seen : list (Z * option Z)) : option (bool * list (Z * option Z)) :=
  Some (true, seen ++ [(Rows.block_index row, data)]).

End Examples.

(* ================================================================== *)
(** * Keys as numbers *)
(* ================================================================== *)

Module KeyOrder.
Import Keys.

(** The key read as one 512-bit number, its fields concatenated in declared
    order, first field most significant. *)
Definition key_code (k : key) : Z :=
  (((((value (key_name k) * 2 ^ 64 + value (receipt_receiver k)) * 2 ^ 64 +
      value (account k)) * 2 ^ 32 + block_index k) * 2 ^ 128 +
    data0 (transaction_id k)) * 2 ^ 128 + data1 (transaction_id k)) * 2 ^ 32 +
  action_index k.

End KeyOrder.

(* ================================================================== *)
(** * Query results on the wire *)
(* ================================================================== *)

Module Results.
Import Wire Rows.

(** The serialised form of a query result, a [vector<vector<char>>]
    (comment of [query_database], lines 380-384): the number of rows, then
    each row behind its length. *)
Definition encode_rows (rows : list (list byte)) : list byte :=
  push_varuint32 (Z.of_nat (length rows)) ++ flat_map push_blob rows.

Section Visit.
Context {St Row : Type}.
Variable unpack_row : datastream -> option Row.
Variable f : Row -> St -> option (bool * St).

(** Unpack each row and hand it to [f], in order, until [f] returns
    [false]; [None] when unpacking or [f] aborts. *)
Fixpoint visit_blobs (rows : list (list byte)) (s : St) : option (bool * St) :=
  match rows with
  | [] => Some (true, s)
  | row :: rest =>
      match unpack_row row with
      | None => None
      | Some r =>
          match f r s with
          | None => None
          | Some (false, s') => Some (false, s')
          | Some (true, s') => visit_blobs rest s'
          end
      end
  end.

End Visit.

(** The guest's view of the database status ([struct database_status],
    lines 333-339); a digest is kept as its 32 bytes. *)
Record database_status := DatabaseStatus {
  head : Z;
  head_id : list byte;
  irreversible : Z;
  irreversible_id : list byte;
  first : Z
}.

(** [ds >> result] in [get_database_status()] (lines 367-377): the members
    in the order [for_each_member] lists them (lines 346-352).  The
    readers of the members are modelled from the spec, section 4.B: 32-bit
    integers little-endian, digests as 32 raw bytes. *)
Definition unpack_database_status (ds : datastream) : option database_status :=
  match read_uint 4 ds with None => None | Some (h, ds) =>
  match take_bytes 32 ds with None => None | Some (hid, ds) =>
  match read_uint 4 ds with None => None | Some (i, ds) =>
  match take_bytes 32 ds with None => None | Some (iid, ds) =>
  match read_uint 4 ds with None => None | Some (f, _) =>
    Some (DatabaseStatus h hid i iid f)
  end end end end end.

End Results.

(* ================================================================== *)
(** * Reading the host's requests, replies and errors *)
(* ================================================================== *)

Module Framing.
Import Wire WasmQL.

(** Errors a guest run can end in: a failed host-call check, the guest's
    own abort or assertion, a trap. *)
Definition guest_error (e : error) : bool :=
  match e with
  | bad_memory | bad_callback_return | called_abort | assert_message _
  | guest_trap | null_session => true
  | _ => false
  end.

(** The errors of [guest_error] that the program itself throws: with no
    session open it does not throw, it dereferences a null pointer. *)
Definition bridge_error (e : error) : bool :=
  match e with
  | bad_memory | bad_callback_return | called_abort | assert_message _
  | guest_trap => true
  | _ => false
  end.

(** The text [what()] gives for an assertion message: its bytes up to the
    first NUL. *)
Fixpoint c_str (bytes : list byte) : list byte :=
  match bytes with
  | [] => []
  | b :: rest => if b =? 0 then [] else b :: c_str rest
  end.

(** Errors of running one module: those of its guest run, or no module of
    that name. *)
Definition run_error (e : error) : bool :=
  guest_error e || match e with module_error => true | _ => false end.

(** Errors one attempt of a request can end in. *)
Definition attempt_error (e : error) : bool :=
  guest_error e ||
  match e with
  | stream_error | unknown_namespace _ | module_error => true
  | _ => false
  end.

(** [m] throws nothing but errors accepted by [allowed]. *)
Definition raises_only {A : Type} (allowed : error -> bool) (m : M A) : Prop :=
  forall st e, fst (m st) = Throw e -> allowed e = true.

(** A top-level request (section 6): the count, then for each sub-request
    the length-prefixed triple namespace ["local"], short name, payload. *)
Definition encode_sub_request (ns short_name : Z) (payload : list byte)
  : list byte :=
  push_blob (native_to_bin_uint 8 ns ++ native_to_bin_uint 8 short_name ++ payload).

Definition encode_request (subs : list (Z * list byte)) : list byte :=
  push_varuint32 (Z.of_nat (length subs)) ++
  flat_map (fun sub => encode_sub_request local_n (fst sub) (snd sub)) subs.

(** A sub-request a client can frame: a 64-bit name, and a triple short
    enough for its length prefix. *)
Definition sub_request_ok (sub : Z * list byte) : Prop :=
  0 <= fst sub < 2 ^ 64 /\ Z.of_nat (16 + length (snd sub)) < 2 ^ 32.

(** Reading [n] length-prefixed blobs. *)
Fixpoint read_blobs (n : nat) (bin : list byte)
  : option (list (list byte) * list byte) :=
  match n with
  | O => Some ([], bin)
  | S n' =>
      match read_blob bin with
      | None => None
      | Some (blob, rest) =>
          match read_blobs n' rest with
          | None => None
          | Some (blobs, rest') => Some (blob :: blobs, rest')
          end
      end
  end.

(** A client reading a top-level reply: the count, that many blobs, and
    nothing after them. *)
Definition decode_reply (reply : list byte) : option (list (list byte)) :=
  match read_varuint32 reply with
  | None => None
  | Some (n, rest) =>
      match read_blobs (Z.to_nat n) rest with
      | Some (blobs, []) => Some blobs
      | _ => None
      end
  end.

(** A blob that fits a 32-bit length. *)
Definition blob_short (blob : list byte) : Prop :=
  Z.of_nat (length blob) < 2 ^ 32.

(** The reply buffer fits a 32-bit length. *)
Definition reply_short (st : state) : Prop := blob_short (reply st).

(** [m] keeps a property [P] of the reply buffer and the diagnostic
    stream. *)
Definition keeps {A : Type} (P : list byte -> list byte -> Prop) (m : M A)
  : Prop :=
  forall st,
    P (reply st) (cerr st) -> P (reply (snd (m st))) (cerr (snd (m st))).

(** A guest function that never calls [print_range], whatever memory the
    host leaves it. *)
Fixpoint never_prints (code : guest_code) : Prop :=
  match code with
  | guest_returns | guest_traps => True
  | guest_calls c k =>
      match c with call_print_range _ _ => False | _ => True end /\
      forall wa, never_prints (k wa)
  end.

(** No module of the directory ever calls [print_range]. *)
Definition quiet_modules (shared : shared_state) : Prop :=
  forall short_name backend,
    wasm_files shared short_name = Some backend ->
    forall wa,
      never_prints (export_initialize backend wa) /\
      never_prints (export_run_query backend wa).

(** What the retry loop needs to know of a lambda [f]: it terminates,
    creates no session, logs one fork exactly when it returns [false], and
    throws only errors of an attempt. *)
Record attempt_spec {Captured : Type} (f : Captured -> M (bool * Captured))
  : Prop := {
  attempt_total : forall c st, fst (f c st) <> out_of_fuel;
  attempt_sessions :
    forall c st, sessions_created (snd (f c st)) = sessions_created st;
  attempt_forks :
    forall c st,
      forks_detected (snd (f c st)) =
      (forks_detected st +
       match fst (f c st) with Ok (false, _) => 1 | _ => 0 end)%nat;
  attempt_errors : forall c, raises_only attempt_error (f c)
}.

(** The lambda of [legacy_query] (lines 171-174). *)
Definition legacy_attempt (shared : shared_state) (_ : unit) : M (bool * unit) :=
  run_query shared legacy_n ;;;
  forked <- did_fork shared ;;
  ret (negb forked, tt).

End Framing.

Module Samples.
Import Wire WasmQL Examples Framing.

(** A store whose head is gone whenever it is asked for: every attempt
    ends in a fork. *)
Definition unstable_db : database_interface :=
  DatabaseInterface (fun _ => FillStatus 1 id_a 1 id_a 1)
                    (fun _ _ _ => None) (fun _ _ _ _ => []).

Definition unstable_shared : shared_state := SharedState false files unstable_db.

(** The module directory of a node that serves legacy requests with
    [writer]. *)
Definition legacy_files (short_name : Z) : option wasm_module :=
  if short_name =? legacy_n then Some writer else files short_name.

Definition legacy_shared : shared_state :=
  SharedState false legacy_files steady_db.

(** The n-th session sees head n+1; the first session has lost its head by
    the time it is asked for it, later sessions are stable. *)
Definition fork_at_once_db : database_interface :=
  DatabaseInterface
    (fun session => FillStatus (Z.of_nat session + 1) id_a 0 id_a 0)
    (fun session _ _ => if (session =? 0)%nat then None else Some id_a)
    (fun _ _ _ _ => []).

(** A node that serves legacy requests with [conditional], which writes
    its output only when the head is block 1. *)
Definition conditional_legacy_files (short_name : Z) : option wasm_module :=
  if short_name =? legacy_n then Some conditional else files short_name.

Definition stale_legacy_shared : shared_state :=
  SharedState false conditional_legacy_files fork_at_once_db.

(** The steady store with the console on. *)
Definition console_shared : shared_state := SharedState true files steady_db.

(** The state in which the only attempt of a request on [unstable_shared]
    runs its guests. *)
Definition unstable_attempt : state :=
  snd (fill_context_data (open_session unstable_shared initial_state)).

(** A request for [writer] and then [silent], the second with a payload. *)
Definition two_modules : list (Z * list byte) :=
  [(writer_n, []); (silent_n, [5])].

(** A sub-request addressed to a namespace other than ["local"]. *)
Definition foreign_request : list byte :=
  push_varuint32 1 ++ encode_sub_request 77 writer_n [].

End Samples.

(* ================================================================== *)
(** * Theorems: keys *)
(* ================================================================== *)

Module KeysFacts.
Import Keys.

Lemma increment_uint_eq (w x : Z) :
  0 <= w -> uint_ok w x ->
  increment_uint w x = (wraps_uint w x, succ_uint w x).
Proof.
  intros Hw [H0 H1]. unfold increment_uint, wraps_uint, succ_uint, max_uint.
  assert (Hp : 0 < 2 ^ w) by (apply Z.pow_pos_nonneg; lia).
  destruct (Z.eqb_spec x (2 ^ w - 1)) as [->|Hne].
  - replace (2 ^ w - 1 + 1) with (2 ^ w) by lia.
    rewrite Z.mod_same by lia. reflexivity.
  - rewrite Z.mod_small by lia.
    destruct (Z.eqb_spec (x + 1) 0); [lia | reflexivity].
Qed.

Lemma increment_name_eq (n : name) :
  name_ok n -> increment_key_name n = (wraps_name n, succ_name n).
Proof.
  intros H. unfold increment_key_name, increment_key_uint64.
  rewrite increment_uint_eq by (try exact H; lia). reflexivity.
Qed.

Lemma increment_checksum256_eq (c : checksum256) :
  checksum256_ok c ->
  increment_key_checksum256 c = (wraps_checksum256 c, succ_checksum256 c).
Proof.
  intros [H0 H1]. unfold increment_key_checksum256, increment_key_uint128.
  rewrite (increment_uint_eq 128 (data1 c)) by (try exact H1; lia).
  unfold wraps_checksum256, succ_checksum256.
  destruct (wraps_uint 128 (data1 c)) eqn:E1.
  - rewrite (increment_uint_eq 128 (data0 c)) by (try exact H0; lia).
    unfold wraps_uint in E1. rewrite E1. reflexivity.
  - unfold wraps_uint in E1. rewrite E1. reflexivity.
Qed.

Lemma increment_key_eq (k : key) :
  key_ok k ->
  increment_key k =
  (let c_ti := wraps_uint 32 (action_index k) in
   let c_bi := c_ti && wraps_checksum256 (transaction_id k) in
   let c_ac := c_bi && wraps_uint 32 (block_index k) in
   let c_rr := c_ac && wraps_name (account k) in
   let c_nm := c_rr && wraps_name (receipt_receiver k) in
   (c_nm && wraps_name (key_name k),
    Key (if c_nm then succ_name (key_name k) else key_name k)
        (if c_rr then succ_name (receipt_receiver k) else receipt_receiver k)
        (if c_ac then succ_name (account k) else account k)
        (if c_bi then succ_uint 32 (block_index k) else block_index k)
        (if c_ti then succ_checksum256 (transaction_id k) else transaction_id k)
        (succ_uint 32 (action_index k)))).
Proof.
  intros (Hn & Hr & Ha & Hb & Ht & Hi). unfold increment_key, increment_key_uint32.
  rewrite (increment_uint_eq 32 (action_index k)) by (try exact Hi; lia).
  destruct (wraps_uint 32 (action_index k)); [|reflexivity].
  rewrite increment_checksum256_eq by exact Ht.
  destruct (wraps_checksum256 (transaction_id k)); [|reflexivity].
  rewrite (increment_uint_eq 32 (block_index k)) by (try exact Hb; lia).
  destruct (wraps_uint 32 (block_index k)); [|reflexivity].
  rewrite (increment_name_eq (account k)) by exact Ha.
  destruct (wraps_name (account k)); [|reflexivity].
  rewrite (increment_name_eq (receipt_receiver k)) by exact Hr.
  destruct (wraps_name (receipt_receiver k)); [|reflexivity].
  rewrite (increment_name_eq (key_name k)) by exact Hn.
  reflexivity.
Qed.

Lemma succ_uint_lt (w x : Z) :
  uint_ok w x -> wraps_uint w x = false -> x < succ_uint w x.
Proof. unfold wraps_uint, succ_uint. intros _ ->. lia. Qed.

Lemma wraps_uint_true (w x : Z) : wraps_uint w x = true <-> x = max_uint w.
Proof. unfold wraps_uint. apply Z.eqb_eq. Qed.

Lemma succ_uint_wrapped (w x : Z) : wraps_uint w x = true -> succ_uint w x = 0.
Proof. unfold wraps_uint, succ_uint. intros ->. reflexivity. Qed.

Lemma wraps_name_true (n : name) : wraps_name n = true <-> n = max_name.
Proof.
  unfold wraps_name, max_name. rewrite wraps_uint_true. destruct n as [v]; simpl.
  split; [intros ->; reflexivity | intros [= ->]; reflexivity].
Qed.

Lemma wraps_checksum256_true (c : checksum256) :
  wraps_checksum256 c = true <-> c = max_checksum256.
Proof.
  unfold wraps_checksum256, max_checksum256. rewrite andb_true_iff, !wraps_uint_true.
  destruct c as [d0 d1]; simpl.
  split; [intros [-> ->]; reflexivity | intros [= -> ->]; split; reflexivity].
Qed.

Lemma succ_uint_mod (w x : Z) :
  0 <= w -> uint_ok w x -> (x + 1) mod 2 ^ w = succ_uint w x.
Proof.
  intros Hw Hx. generalize (increment_uint_eq w x Hw Hx).
  unfold increment_uint. intros [= _ ->]. reflexivity.
Qed.

(** C5.  Every [increment_key] overload (the unsigned widths 8 to 128,
    [name], [checksum256] and the [at.e.nra] composite key) increments the
    last field and carries into the field before it exactly when the later
    fields all wrapped; it returns [true] only when its first field wraps,
    which happens exactly at the maximal key (whose successor is all zero);
    and for every other key [K] the successor is strictly greater than [K]
    in the lexicographic order of the declared fields. *)
Theorem increment_key_successor
    (w x : Z) (n : name) (c : checksum256) (k : key) :
  In w [8; 16; 32; 64; 128] -> uint_ok w x -> name_ok n ->
  checksum256_ok c -> key_ok k ->
  (* scalars *)
  (let '(wrapped, x') := increment_uint w x in
   (x' = (x + 1) mod 2 ^ w) /\
   (wrapped = true <-> x = max_uint w) /\
   (wrapped = true -> x' = 0) /\
   (wrapped = false -> x < x')) /\
  (* name *)
  (let '(wrapped, n') := increment_key_name n in
   (value n' = (value n + 1) mod 2 ^ 64) /\
   (wrapped = true <-> n = max_name) /\
   (wrapped = true -> n' = Name 0) /\
   (wrapped = false -> name_lt n n')) /\
  (* checksum256 *)
  (let '(wrapped, c') := increment_key_checksum256 c in
   (data1 c' = (data1 c + 1) mod 2 ^ 128) /\
   (data0 c' = if wraps_uint 128 (data1 c) then (data0 c + 1) mod 2 ^ 128
               else data0 c) /\
   (wrapped = true -> wraps_uint 128 (data0 c) = true) /\
   (wrapped = true <-> c = max_checksum256) /\
   (wrapped = true -> c' = zero_checksum256) /\
   (wrapped = false -> checksum256_lt c c')) /\
  (* composite key *)
  (let '(wrapped, k') := increment_key k in
   let c_ti := wraps_uint 32 (action_index k) in
   let c_bi := c_ti && wraps_checksum256 (transaction_id k) in
   let c_ac := c_bi && wraps_uint 32 (block_index k) in
   let c_rr := c_ac && wraps_name (account k) in
   let c_nm := c_rr && wraps_name (receipt_receiver k) in
   (action_index k' = (action_index k + 1) mod 2 ^ 32) /\
   (transaction_id k' =
      if c_ti then snd (increment_key_checksum256 (transaction_id k))
      else transaction_id k) /\
   (block_index k' =
      if c_bi then (block_index k + 1) mod 2 ^ 32 else block_index k) /\
   (account k' =
      if c_ac then snd (increment_key_name (account k)) else account k) /\
   (receipt_receiver k' =
      if c_rr then snd (increment_key_name (receipt_receiver k))
      else receipt_receiver k) /\
   (key_name k' =
      if c_nm then snd (increment_key_name (key_name k)) else key_name k) /\
   (wrapped = true -> c_nm = true /\ wraps_name (key_name k) = true) /\
   (wrapped = true <-> k = max_key) /\
   (wrapped = true -> k' = zero_key) /\
   (wrapped = false -> key_lt k k')).
Proof.
  intros Hw Hx Hn Hc Hk.
  assert (Hw0 : 0 <= w) by (simpl in Hw; lia).
  split; [|split; [|split]].
  - (* scalars *)
    rewrite increment_uint_eq by assumption.
    rewrite succ_uint_mod by assumption.
    repeat split.
    + apply wraps_uint_true.
    + apply wraps_uint_true.
    + apply succ_uint_wrapped.
    + apply succ_uint_lt; assumption.
  - (* name *)
    rewrite increment_name_eq by assumption.
    rewrite succ_uint_mod by (try exact Hn; lia).
    repeat split.
    + apply wraps_name_true.
    + apply wraps_name_true.
    + intros H. unfold succ_name. unfold wraps_name in H.
      rewrite succ_uint_wrapped by exact H. reflexivity.
    + intros H. unfold name_lt, succ_name; simpl.
      apply succ_uint_lt; [exact Hn | exact H].
  - (* checksum256 *)
    rewrite increment_checksum256_eq by assumption.
    destruct Hc as [Hc0 Hc1].
    rewrite !succ_uint_mod by (try assumption; lia).
    unfold succ_checksum256, wraps_checksum256, checksum256_lt; simpl.
    repeat split.
    + intros H. apply andb_true_iff in H. tauto.
    + apply wraps_checksum256_true.
    + apply wraps_checksum256_true.
    + intros H. apply andb_true_iff in H. destruct H as [H1 H0].
      unfold wraps_uint in H1. rewrite H1.
      rewrite !succ_uint_wrapped by assumption. reflexivity.
    + generalize Hc0 Hc1. unfold uint_ok, succ_uint, wraps_uint.
      intros ? ?.
      destruct (Z.eqb_spec (data1 c) (max_uint 128));
        destruct (Z.eqb_spec (data0 c) (max_uint 128)); simpl;
        intros; try discriminate; lia.
  - (* composite key *)
    rewrite increment_key_eq by assumption.
    destruct Hk as (Kn & Kr & Ka & Kb & Kt & Ki).
    rewrite !increment_name_eq by assumption.
    rewrite !increment_checksum256_eq by assumption.
    rewrite !succ_uint_mod by (try assumption; lia).
    cbv zeta. simpl fst. simpl snd.
    split; [reflexivity|]. split; [reflexivity|]. split; [reflexivity|].
    split; [reflexivity|]. split; [reflexivity|]. split; [reflexivity|].
    split; [|split; [|split]].
    + intros H. apply andb_true_iff in H. exact H.
    + rewrite !andb_true_iff, !wraps_name_true, wraps_checksum256_true,
        !wraps_uint_true.
      destruct k as [kn kr ka kb kt ki]; simpl. unfold max_key.
      split.
      * intros (((((-> & ->) & ->) & ->) & ->) & ->). reflexivity.
      * intros [= -> -> -> -> -> ->]. tauto.
    + rewrite !andb_true_iff, !wraps_name_true, wraps_checksum256_true,
        !wraps_uint_true.
      destruct k as [kn kr ka kb kt ki]; simpl.
      intros (((((-> & ->) & ->) & ->) & ->) & ->). reflexivity.
    + destruct k as [[kn] [kr] [ka] kb [t0 t1] ki].
      destruct Kt as [Kt0 Kt1].
      unfold name_ok, uint_ok in *; simpl in *.
      unfold key_lt, key_fields, checksum256_fields, wraps_name,
        wraps_checksum256, succ_name, succ_checksum256; simpl.
      unfold succ_uint, wraps_uint.
      destruct (Z.eqb_spec ki (max_uint 32));
        destruct (Z.eqb_spec t1 (max_uint 128));
        destruct (Z.eqb_spec t0 (max_uint 128));
        destruct (Z.eqb_spec kb (max_uint 32));
        destruct (Z.eqb_spec ka (max_uint 64));
        destruct (Z.eqb_spec kr (max_uint 64));
        destruct (Z.eqb_spec kn (max_uint 64));
        simpl; intros; try discriminate; lia.
Qed.

(** The successor theorem at a key whose increment carries twice. *)
Lemma increment_key_successor_witness :
  key_ok Examples.carrying_key /\
  increment_key Examples.carrying_key =
    (false, Key (Name 7) (Name 8) (Name 9) 11 zero_checksum256 0) /\
  key_lt Examples.carrying_key (snd (increment_key Examples.carrying_key)).
Proof.
  assert (Hk : key_ok Examples.carrying_key).
  { unfold key_ok, name_ok, checksum256_ok, uint_ok. vm_compute.
    repeat split; discriminate. }
  assert (Hc : checksum256_ok max_checksum256).
  { unfold checksum256_ok, uint_ok. vm_compute. repeat split; discriminate. }
  assert (Hn : name_ok (Name 7)).
  { unfold name_ok, uint_ok. vm_compute. split; [discriminate | reflexivity]. }
  assert (Hx : uint_ok 8 255).
  { unfold uint_ok. vm_compute. split; [discriminate | reflexivity]. }
  assert (Hw : In 8 [8; 16; 32; 64; 128]) by (left; reflexivity).
  split; [exact Hk|]. split; [reflexivity|].
  pose proof (increment_key_successor 8 255 (Name 7) max_checksum256
                Examples.carrying_key Hw Hx Hn Hc Hk) as H.
  destruct H as (_ & _ & _ & H).
  destruct (increment_key Examples.carrying_key) as [wrapped k'] eqn:E.
  vm_compute in E. injection E as <- <-.
  destruct H as (_ & _ & _ & _ & _ & _ & _ & _ & _ & H).
  exact (H eq_refl).
Defined.

End KeysFacts.

(* ================================================================== *)
(** * Theorems: iterating over query results *)
(* ================================================================== *)

Module RowsFacts.
Import Wire Rows.

Section Visits.
Context {St T : Type}.
Variable unpack_data : datastream -> option (T * datastream).
Variable f : contract_row -> option T -> St -> option (bool * St).

Lemma contract_row_visitor_visit_one (row : contract_row) (s : St) :
  contract_row_visitor unpack_data f row s = visit_one unpack_data f row s.
Proof.
  unfold contract_row_visitor, visit_one, is_null_data.
  destruct (present row); simpl.
  - destruct (remaining (value row) =? 0); simpl.
    + destruct (f row None s) as [[[] ?]|]; reflexivity.
    + destruct (unpack_data (value row)) as [[p rest]|]; [|reflexivity].
      destruct (f (set_value row rest) (Some p) s) as [[[] ?]|]; reflexivity.
  - destruct (f row None s) as [[[] ?]|]; reflexivity.
Qed.

Lemma for_each_row_visit_rows (n : nat) :
  forall (ds : datastream) (rows : list contract_row) (s : St),
    decode_rows n ds = Some rows ->
    for_each_row unpack_contract_row (contract_row_visitor unpack_data f) n ds s =
    visit_rows unpack_data f rows s.
Proof.
  induction n as [|n IH]; intros ds rows s Hdec; simpl in *.
  - injection Hdec as <-. reflexivity.
  - destruct (read_blob ds) as [[row ds']|]; [|discriminate].
    destruct (unpack_contract_row row) as [r|]; [|discriminate].
    destruct (decode_rows n ds') as [rs|] eqn:Hrs; [|discriminate].
    injection Hdec as <-. simpl.
    rewrite contract_row_visitor_visit_one.
    destruct (visit_one unpack_data f r s) as [[[] s']|]; try reflexivity.
    apply IH. exact Hrs.
Qed.

Lemma is_null_data_iff (row : contract_row) :
  is_null_data row = true <-> present row = false \/ value row = [].
Proof.
  unfold is_null_data, remaining. rewrite orb_true_iff, negb_true_iff, Z.eqb_eq.
  destruct (value row); simpl; split; intros [H|H]; auto; try lia; discriminate.
Qed.

End Visits.

(** C9.  For a result whose rows decode to [rows], [for_each_contract_row]
    calls [f] on the rows in order and stops, returning [false], at the first
    row for which [f] returns [false]; [f] gets a null data pointer exactly
    when the row is not present or its value blob is empty, and otherwise a
    pointer to the data unpacked from the value blob. *)
Theorem for_each_contract_row_visits {St T : Type}
    (unpack_data : datastream -> option (T * datastream))
    (f : contract_row -> option T -> St -> option (bool * St))
    (bytes : list byte) (rows : list contract_row) (s : St) :
  decode_result bytes = Some rows ->
  for_each_contract_row unpack_data f bytes s = visit_rows unpack_data f rows s /\
  (forall row s0,
      (present row = false \/ value row = [] ->
       visit_one unpack_data f row s0 = f row None s0) /\
      (present row = true -> value row <> [] ->
       visit_one unpack_data f row s0 =
       match unpack_data (value row) with
       | Some (p, rest) => f (set_value row rest) (Some p) s0
       | None => None
       end)) /\
  (forall row rest s0 s1,
      visit_one unpack_data f row s0 = Some (false, s1) ->
      visit_rows unpack_data f (row :: rest) s0 = Some (false, s1)) /\
  (forall row rest s0 s1,
      visit_one unpack_data f row s0 = Some (true, s1) ->
      visit_rows unpack_data f (row :: rest) s0 = visit_rows unpack_data f rest s1).
Proof.
  intros Hdec. split; [|split; [|split]].
  - unfold for_each_contract_row, for_each_query_result.
    unfold decode_result in Hdec.
    destruct (read_varuint32 bytes) as [[size ds]|]; [|discriminate].
    apply for_each_row_visit_rows. exact Hdec.
  - intros row s0. split.
    + intros H. apply (is_null_data_iff row) in H.
      unfold visit_one. rewrite H. reflexivity.
    + intros Hp Hv. unfold visit_one.
      destruct (is_null_data row) eqn:E; [|reflexivity].
      apply is_null_data_iff in E. destruct E; congruence.
  - intros row rest s0 s1 H. simpl. rewrite H. reflexivity.
  - intros row rest s0 s1 H. simpl. rewrite H. reflexivity.
Qed.

(** The visiting theorem on a result of one present and one absent row. *)
Lemma for_each_contract_row_visits_witness :
  decode_result Examples.two_rows =
    Some [ContractRow 3 true 11 12 13 14 15 [5; 6];
          ContractRow 4 false 11 12 13 14 15 []] /\
  for_each_contract_row Examples.unpack_byte Examples.record_rows Examples.two_rows [] =
    Some (true, [(3, Some 5); (4, None)]).
Proof.
  assert (Hd : decode_result Examples.two_rows =
    Some [ContractRow 3 true 11 12 13 14 15 [5; 6];
          ContractRow 4 false 11 12 13 14 15 []]) by (vm_compute; reflexivity).
  split; [exact Hd|].
  rewrite (proj1 (for_each_contract_row_visits
                    Examples.unpack_byte Examples.record_rows
                    Examples.two_rows _ [] Hd)).
  reflexivity.
Defined.

End RowsFacts.

(* ================================================================== *)
(** * Theorems: the query host *)
(* ================================================================== *)

Module WasmQLFacts.
Import Wire WasmQL.

(** ** Lists and the wire format *)

Lemma last_cons_default {A} (a : A) (l : list A) (d : A) :
  last (a :: l) d = last l a.
Proof.
  revert a d. induction l as [|b l IH]; intros a d; [reflexivity|].
  change (last (b :: l) d = last (b :: l) a). rewrite !IH. reflexivity.
Qed.

Lemma last_app_default {A} (l1 l2 : list A) (d : A) :
  last (l1 ++ l2) d = last l2 (last l1 d).
Proof.
  revert d. induction l1 as [|a l1 IH]; intros d; [reflexivity|].
  rewrite <- app_comm_cons, !last_cons_default. apply IH.
Qed.

Lemma to_uint32_range (v : Z) : 0 <= to_uint32 v < 2 ^ 32.
Proof. unfold to_uint32. apply Z.mod_pos_bound. lia. Qed.

Lemma to_uint32_small (v : Z) : 0 <= v < 2 ^ 32 -> to_uint32 v = v.
Proof. intros H. unfold to_uint32. apply Z.mod_small. exact H. Qed.

Lemma read_varuint32_from_range (bin : list byte) :
  forall shift acc n rest,
    read_varuint32_from bin shift acc = Some (n, rest) -> 0 <= n < 2 ^ 32.
Proof.
  induction bin as [|b bin IH]; intros shift acc n rest H;
    cbn [read_varuint32_from] in H.
  - discriminate.
  - destruct (Z.testbit b 7).
    + eapply IH. exact H.
    + injection H as <- _. apply to_uint32_range.
Qed.

Lemma read_varuint32_range (bin : list byte) (n : Z) (rest : list byte) :
  read_varuint32 bin = Some (n, rest) -> 0 <= n < 2 ^ 32.
Proof. apply read_varuint32_from_range. Qed.

(** ** What host calls and guest runs leave alone *)

Lemma guest_effect_refl (st : state) : guest_effect st st [].
Proof.
  constructor; try reflexivity.
  intros r older H. rewrite H, app_nil_r. destruct r; reflexivity.
Qed.

Lemma guest_effect_trans (st1 st2 st3 : state) (o1 o2 : list (list byte)) :
  guest_effect st1 st2 o1 -> guest_effect st2 st3 o2 ->
  guest_effect st1 st3 (o1 ++ o2).
Proof.
  intros [a1 a2 a3 a4 a5 a6 a7 a8] [b1 b2 b3 b4 b5 b6 b7 b8].
  constructor; try congruence.
  - rewrite b7, a7. symmetry. apply last_app_default.
  - intros r older H. specialize (a8 r older H).
    rewrite (b8 _ _ a8). simpl. rewrite app_assoc. reflexivity.
Qed.

Lemma guest_effect_set_wa (st : state) (w : wasm_allocator) :
  guest_effect st (set_wa st w) [].
Proof.
  constructor; try reflexivity.
  intros r older H. simpl. rewrite H, app_nil_r. destruct r; reflexivity.
Qed.

Lemma guest_effect_set_cerr (st : state) (c : list byte) :
  guest_effect st (set_cerr st c) [].
Proof.
  constructor; try reflexivity.
  intros r older H. simpl. rewrite H, app_nil_r. destruct r; reflexivity.
Qed.

Lemma guest_effect_set_session_calls (st : state) (n : nat) :
  guest_effect st (set_session_calls st n) [].
Proof.
  constructor; try reflexivity.
  intros r older H. simpl. rewrite H, app_nil_r. destruct r; reflexivity.
Qed.

Lemma guest_effect_output (st : state) (bytes : list byte) :
  guest_effect st (note_output bytes (set_reply st bytes)) [bytes].
Proof.
  unfold note_output. simpl.
  destruct (guest_runs st) as [|r0 older0] eqn:E; constructor;
    try reflexivity; simpl; intros r older H; congruence.
Qed.

Lemma guest_action_ret {A} (a : A) : guest_action (ret a).
Proof. intros st. split; [discriminate|]. exists []. apply guest_effect_refl. Qed.

Lemma guest_action_throw {A} (e : error) : guest_action (@throw A e).
Proof. intros st. split; [discriminate|]. exists []. apply guest_effect_refl. Qed.

Lemma guest_action_get : guest_action get.
Proof. intros st. split; [discriminate|]. exists []. apply guest_effect_refl. Qed.

Lemma guest_action_modify (f : state -> state) :
  (forall st, exists outs, guest_effect st (f st) outs) ->
  guest_action (modify f).
Proof. intros H st. split; [discriminate|]. apply H. Qed.

Lemma guest_action_bind {A B} (m : M A) (k : A -> M B) :
  guest_action m -> (forall a, guest_action (k a)) -> guest_action (bind m k).
Proof.
  intros Hm Hk st. unfold bind.
  destruct (Hm st) as [Hf [o1 H1]].
  destruct (m st) as [[a|e|] st1]; simpl in *.
  - destruct (Hk a st1) as [Hf2 [o2 H2]]. split; [exact Hf2|].
    exists (o1 ++ o2). eapply guest_effect_trans; eassumption.
  - split; [discriminate|]. exists o1. exact H1.
  - congruence.
Qed.

Create HintDb guest.

#[local] Hint Resolve guest_action_ret guest_action_throw guest_action_get
  guest_action_bind : guest.

Section HostCalls.
Variable shared : shared_state.
Variable backend : wasm_module.

Lemma guest_action_check_bounds (p_begin p_end : Z) :
  guest_action (check_bounds p_begin p_end).
Proof. unfold check_bounds. destruct (p_begin >? p_end); auto with guest. Qed.

Lemma guest_action_alloc (cb_alloc_data cb_alloc size : Z) :
  guest_action (alloc backend cb_alloc_data cb_alloc size).
Proof.
  intros st. unfold alloc.
  destruct (execute_func_table backend cb_alloc cb_alloc_data size (wa st))
    as [|result wa'].
  - split; [discriminate|]. exists []. apply guest_effect_refl.
  - assert (Hthrow : forall e : error,
               fst (@Throw Z e, set_wa st wa') <> out_of_fuel /\
               exists outs, guest_effect st (snd (@Throw Z e, set_wa st wa')) outs).
    { intros e. split; [discriminate|]. exists []. apply guest_effect_set_wa. }
    destruct result as [[v|v|v|v]|]; try apply Hthrow.
    unfold bind, check_bounds.
    destruct (_ >? _); simpl; (split; [discriminate|]);
      exists []; apply guest_effect_set_wa.
Qed.

Lemma guest_action_copy_to (data : Z) (src : list byte) :
  guest_action (copy_to data src).
Proof.
  apply guest_action_modify. intros st. exists []. apply guest_effect_set_wa.
Qed.

#[local] Hint Resolve guest_action_check_bounds guest_action_alloc
  guest_action_copy_to : guest.

Lemma guest_action_eosio_assert_message (test : bool) (msg msg_len : Z) :
  guest_action (eosio_assert_message test msg msg_len).
Proof.
  unfold eosio_assert_message. destruct (negb test); auto with guest.
Qed.

Lemma guest_action_get_database_status (cb_alloc_data cb_alloc : Z) :
  guest_action (get_database_status backend cb_alloc_data cb_alloc).
Proof. unfold get_database_status. auto 6 with guest. Qed.

Lemma guest_action_get_input_data (cb_alloc_data cb_alloc : Z) :
  guest_action (get_input_data backend cb_alloc_data cb_alloc).
Proof. unfold get_input_data. auto 6 with guest. Qed.

Lemma guest_action_set_output_data (p_begin p_end : Z) :
  guest_action (set_output_data p_begin p_end).
Proof.
  unfold set_output_data. apply guest_action_bind; auto with guest. intros _.
  apply guest_action_modify. intros s. eexists. apply guest_effect_output.
Qed.

Lemma guest_action_query_database (req_begin req_end cb_alloc_data cb_alloc : Z) :
  guest_action (query_database shared backend req_begin req_end cb_alloc_data cb_alloc).
Proof.
  unfold query_database.
  apply guest_action_bind; auto with guest. intros _.
  apply guest_action_bind; auto with guest. intros s.
  destruct (query_session s); auto with guest.
  apply guest_action_bind; [|auto 6 with guest].
  apply guest_action_modify. intros s'. exists [].
  apply guest_effect_set_session_calls.
Qed.

Lemma guest_action_print_range (p_begin p_end : Z) :
  guest_action (print_range shared p_begin p_end).
Proof.
  unfold print_range.
  apply guest_action_bind; auto with guest. intros _.
  destruct (console shared); auto with guest.
  apply guest_action_modify. intros s. exists []. apply guest_effect_set_cerr.
Qed.

Lemma guest_action_call_host_function (c : host_call) :
  guest_action (call_host_function shared backend c).
Proof.
  intros st. unfold call_host_function. destruct c.
  - apply (@guest_action_throw unit).
  - apply guest_action_eosio_assert_message.
  - apply guest_action_get_database_status.
  - apply guest_action_get_input_data.
  - apply guest_action_set_output_data.
  - apply guest_action_query_database.
  - apply guest_action_print_range.
Qed.

Lemma guest_action_run_guest (code : guest_code) :
  guest_action (run_guest shared backend code).
Proof.
  induction code as [| |c k IH]; intros st; simpl.
  - split; [discriminate|]. exists []. apply guest_effect_refl.
  - split; [discriminate|]. exists []. apply guest_effect_refl.
  - destruct (guest_action_call_host_function c st) as [Hf [o1 H1]].
    destruct (call_host_function shared backend c st) as [[[]|e|] st1];
      simpl in *.
    + destruct (IH (wa st1) st1) as [Hf2 [o2 H2]]. split; [exact Hf2|].
      exists (o1 ++ o2). eapply guest_effect_trans; eassumption.
    + split; [discriminate|]. exists o1. exact H1.
    + congruence.
Qed.

End HostCalls.

(** ** The driver *)

(** Projections of updated states, and nothing else, are computed. *)
Ltac state_simpl :=
  cbn [fst snd wa query_session fill_status request reply database_status cerr
       ilog sessions_created session_calls guest_runs set_wa set_query_session
       set_fill_status set_request set_reply set_database_status set_cerr
       set_ilog set_sessions_created set_session_calls set_guest_runs
       reset_session open_session].

Section Driver.
Variable shared : shared_state.

(** [run_query] either finds no module and changes nothing, or records one
    run under the open session and leaves the reply buffer as that run's
    last output, or as it was. *)
Lemma run_query_effect (short_name : Z) (st : state) :
  fst (run_query shared short_name st) <> out_of_fuel /\
  query_session (snd (run_query shared short_name st)) = query_session st /\
  fill_status (snd (run_query shared short_name st)) = fill_status st /\
  ilog (snd (run_query shared short_name st)) = ilog st /\
  sessions_created (snd (run_query shared short_name st)) = sessions_created st /\
  ((wasm_files shared short_name = None /\
    run_query shared short_name st = (Throw module_error, st)) \/
   (exists outs,
       guest_runs (snd (run_query shared short_name st)) =
       GuestRun (query_session st) short_name outs :: guest_runs st /\
       reply (snd (run_query shared short_name st)) = last outs (reply st))).
Proof.
  unfold run_query.
  destruct (wasm_files shared short_name) as [backend|].
  - match goal with
    | |- context [bind (modify ?f) ?k] =>
        change (bind (modify f) k st) with (k tt (f st));
        set (st0 := f st); set (m := k tt)
    end.
    assert (Hm : guest_action m).
    { subst m. cbv beta.
      apply guest_action_bind; [apply guest_action_get|]. intros s1.
      apply guest_action_bind; [apply guest_action_run_guest|]. intros _.
      apply guest_action_bind; [apply guest_action_get|]. intros s2.
      apply guest_action_run_guest. }
    destruct (Hm st0) as [Hf [outs [e1 e2 e3 e4 e5 e6 e7 e8]]].
    specialize (e8 _ _ eq_refl). simpl in e8.
    repeat split; try assumption.
    right. exists outs. split; assumption.
  - simpl. repeat split; try discriminate. left. split; reflexivity.
Qed.

(** [did_fork] in closed form. *)
Lemma did_fork_cases (st : state) :
  did_fork shared st =
  match query_session st with
  | None => (Throw null_session, st)
  | Some session =>
      let st1 := set_session_calls st (S (session_calls st)) in
      match get_block_id (db_iface shared) session (session_calls st)
                         (head (fill_status st)) with
      | None =>
          (Ok true, set_ilog st1 (ilog st ++ [log_fork_prev_head_not_found]))
      | Some value =>
          if checksum256_eqb value (head_id (fill_status st))
          then (Ok false, st1)
          else (Ok true, set_ilog st1 (ilog st ++ [log_fork_head_id_changed]))
      end
  end.
Proof.
  unfold did_fork, bind, get; simpl.
  destruct (query_session st) as [session|]; [|reflexivity].
  simpl.
  destruct (get_block_id _ _ _ _) as [value|]; [|reflexivity].
  destruct (checksum256_eqb _ _); reflexivity.
Qed.


Lemma last_of_outputs (session : option nat) (nm : Z) (outs : list (list byte))
    (previous : list byte) :
  last outs previous =
  match last_output (GuestRun session nm outs) with
  | Some bytes => bytes
  | None => previous
  end.
Proof.
  unfold last_output; simpl.
  destruct outs as [|a l] using rev_ind; [reflexivity|].
  rewrite rev_app_distr, last_last. reflexivity.
Qed.

Lemma query_requests_step (n : nat) (request_bin result : list byte) (st : state) :
  query_requests shared (S n) request_bin result st =
  match read_blob request_bin with
  | None => (Throw stream_error, st)
  | Some (sub_request, request_bin') =>
      match read_uint 8 sub_request with
      | None => (Throw stream_error, set_request st sub_request)
      | Some (ns_name, r1) =>
          let st1 := set_request (set_request st sub_request) r1 in
          if negb (ns_name =? local_n) then (Throw (unknown_namespace ns_name), st1)
          else
            match read_uint 8 r1 with
            | None => (Throw stream_error, st1)
            | Some (short_name, r2) =>
                match run_query shared short_name (set_request st1 r2) with
                | (Ok _, st3) =>
                    match did_fork shared st3 with
                    | (Ok true, st4) => (Ok (false, result), st4)
                    | (Ok false, st4) =>
                        query_requests shared n request_bin'
                          (result ++ push_blob (reply st4)) st4
                    | (Throw e, st4) => (Throw e, st4)
                    | (out_of_fuel, st4) => (out_of_fuel, st4)
                    end
                | (Throw e, st3) => (Throw e, st3)
                | (out_of_fuel, st3) => (out_of_fuel, st3)
                end
            end
      end
  end.
Proof.
  cbn [query_requests].
  destruct (read_blob request_bin) as [[sub_request request_bin']|]; [|reflexivity].
  cbv beta iota zeta delta [bind modify read_request_name get ret throw].
  change (request (set_request st sub_request)) with sub_request.
  destruct (read_uint 8 sub_request) as [[ns_name r1]|]; [|reflexivity].
  destruct (negb (ns_name =? local_n)); [reflexivity|].
  change (request (set_request (set_request st sub_request) r1)) with r1.
  destruct (read_uint 8 r1) as [[short_name r2]|]; [|reflexivity].
  destruct (run_query shared short_name _) as [[[]|e|] st3]; try reflexivity.
  destruct (did_fork shared st3) as [[[]|e|] st4]; reflexivity.
Qed.

(** An attempt that stops before any guest ran: nothing changed but the
    request cursor. *)
Ltac attempt_stops :=
  simpl; split; [discriminate|]; split; [reflexivity|]; split; [reflexivity|];
  split; [reflexivity|]; exists []; simpl; auto.

(** The loop over the sub-requests: it creates no session, runs every guest
    under the open one, logs one fork line exactly when it returns [false],
    and when it returns [true] it has appended one blob per sub-request,
    the reply buffer after each run. *)
Lemma query_requests_effect (n : nat) :
  forall (request_bin result : list byte) (st : state),
    fst (query_requests shared n request_bin result st) <> out_of_fuel /\
    sessions_created (snd (query_requests shared n request_bin result st)) =
      sessions_created st /\
    query_session (snd (query_requests shared n request_bin result st)) =
      query_session st /\
    fill_status (snd (query_requests shared n request_bin result st)) =
      fill_status st /\
    exists runs,
      guest_runs (snd (query_requests shared n request_bin result st)) =
        rev runs ++ guest_runs st /\
      Forall (fun r => run_session r = query_session st) runs /\
      match fst (query_requests shared n request_bin result st) with
      | Ok (true, result') =>
          ilog (snd (query_requests shared n request_bin result st)) = ilog st /\
          length runs = n /\
          result' = result ++ flat_map push_blob (replies_after (reply st) runs)
      | Ok (false, _) =>
          exists line,
            fork_logged line = true /\
            ilog (snd (query_requests shared n request_bin result st)) =
              ilog st ++ [line]
      | _ => ilog (snd (query_requests shared n request_bin result st)) = ilog st
      end.
Proof.
  induction n as [|n IH]; intros request_bin result st.
  - simpl. repeat split; try discriminate. exists []. simpl.
    rewrite app_nil_r. repeat split; auto.
  - rewrite query_requests_step.
    destruct (read_blob request_bin) as [[sub_request request_bin']|];
      [|attempt_stops].
    destruct (read_uint 8 sub_request) as [[ns_name r1]|]; [|attempt_stops].
    cbv zeta.
    destruct (negb (ns_name =? local_n)); [attempt_stops|].
    destruct (read_uint 8 r1) as [[short_name r2]|]; [|attempt_stops].
    match goal with
    | |- context [run_query shared short_name ?s] => set (st2 := s)
    end.
    destruct (run_query_effect short_name st2) as (Hf & Hs & Hfs & Hl & Hc & Hr).
    change (query_session st2) with (query_session st) in *.
    change (fill_status st2) with (fill_status st) in *.
    change (ilog st2) with (ilog st) in *.
    change (sessions_created st2) with (sessions_created st) in *.
    change (guest_runs st2) with (guest_runs st) in *.
    change (reply st2) with (reply st) in *.
    destruct (run_query shared short_name st2) as [[[]|e|] st3] eqn:Erun;
      simpl in Hf, Hs, Hfs, Hl, Hc, Hr.
    3:{ congruence. }
    2:{ simpl. repeat split; try assumption; try discriminate.
        destruct Hr as [[_ Hr]|[outs [Hr _]]].
        - injection Hr as _ ->. exists []. repeat split; auto.
        - exists [GuestRun (query_session st) short_name outs]. simpl.
          repeat split; auto. }
    destruct Hr as [[_ Hr]|[outs [Hruns Hreply]]]; [discriminate|].
    rewrite did_fork_cases. rewrite Hs, Hfs.
    set (r := GuestRun (query_session st) short_name outs) in *.
    assert (Hdone : exists runs, guest_runs st3 = rev runs ++ guest_runs st /\
                 Forall (fun r => run_session r = query_session st) runs).
    { exists [r]. simpl. rewrite Hruns. auto. }
    destruct Hdone as [runs1 [Hd1 Hd2]].
    destruct (query_session st) as [session|] eqn:Esession.
    2:{ simpl. repeat split; try assumption; try discriminate.
        exists runs1. auto. }
    cbv zeta.
    destruct (get_block_id _ _ _ _) as [value|].
    2:{ simpl. repeat split; try assumption; try discriminate.
        exists runs1.
        repeat split; auto. exists log_fork_prev_head_not_found.
        rewrite Hl. auto. }
    destruct (checksum256_eqb _ _).
    2:{ simpl. repeat split; try assumption; try discriminate.
        exists runs1.
        repeat split; auto. exists log_fork_head_id_changed.
        rewrite Hl. auto. }
    set (st4 := set_session_calls st3 (S (session_calls st3))).
    change (reply st4) with (reply st3).
    specialize (IH request_bin' (result ++ push_blob (reply st3)) st4).
    destruct IH as (If & Ic & Is & Ifs & runs & Iruns & Iall & Iout).
    change (sessions_created st4) with (sessions_created st3) in Ic.
    change (query_session st4) with (query_session st3) in *.
    change (fill_status st4) with (fill_status st3) in Ifs.
    change (guest_runs st4) with (guest_runs st3) in Iruns.
    change (ilog st4) with (ilog st3) in Iout.
    change (reply st4) with (reply st3) in Iout.
    rewrite Hs in *.
    repeat split; try congruence.
    exists (r :: runs). split; [|split].
    + rewrite Iruns, Hruns. simpl. rewrite <- app_assoc. reflexivity.
    + constructor; [reflexivity | exact Iall].
    + destruct (fst (query_requests shared n request_bin' _ st4)) as [[[] result']|e|].
      * destruct Iout as (I1 & I2 & I3). split; [congruence|]. split; [simpl; congruence|].
        rewrite I3. cbn [replies_after flat_map].
        unfold r.
        rewrite <- (last_of_outputs (Some session) short_name outs (reply st)).
        rewrite <- Hreply.
        rewrite <- !app_assoc. reflexivity.
      * destruct Iout as (line & I1 & I2). exists line. split; congruence.
      * congruence.
      * congruence.
Qed.


(** One iteration of the loop of [retry_loop]. *)
Lemma retry_loop_step {Captured : Type} (fuel : nat) (num_tries : Z)
    (f : Captured -> M (bool * Captured)) (c : Captured) (st : state) :
  retry_loop_from shared (S fuel) num_tries f c st =
  let st1 := open_session shared st in
  if head (fill_status st1) =? 0 then (Throw empty_database, reset_session st1)
  else
    match f c (snd (fill_context_data st1)) with
    | (Ok (true, c'), st') => (Ok c', reset_session st')
    | (Ok (false, c'), st') =>
        if num_tries + 1 >=? 4 then (Throw too_many_forks, reset_session st')
        else
          retry_loop_from shared fuel (num_tries + 1) f c'
            (reset_session (set_ilog st' (ilog st' ++ [log_retry_request])))
    | (Throw e, st') => (Throw e, reset_session st')
    | (out_of_fuel, st') => (out_of_fuel, reset_session st')
    end.
Proof.
  cbn [retry_loop_from]. cbv zeta.
  destruct (head (fill_status (open_session shared st)) =? 0); [reflexivity|].
  unfold bind at 1. unfold fill_context_data at 1, modify at 1.
  cbn [snd].
  destruct (f c _) as [[[[] c']|e|] st']; try reflexivity.
Qed.

Lemma query_attempt_effect (request c : list byte) (st : state) :
  fst (query_attempt shared request c st) <> out_of_fuel /\
  sessions_created (snd (query_attempt shared request c st)) = sessions_created st /\
  query_session (snd (query_attempt shared request c st)) = query_session st /\
  match fst (query_attempt shared request c st) with
  | Ok (true, result) =>
      ilog (snd (query_attempt shared request c st)) = ilog st /\
      exists n rest runs,
        read_varuint32 request = Some (n, rest) /\
        guest_runs (snd (query_attempt shared request c st)) =
          rev runs ++ guest_runs st /\
        length runs = Z.to_nat n /\
        Forall (fun r => run_session r = query_session st) runs /\
        result = push_varuint32 n ++
                 flat_map push_blob (replies_after (reply st) runs)
  | Ok (false, _) =>
      exists line,
        fork_logged line = true /\
        ilog (snd (query_attempt shared request c st)) = ilog st ++ [line]
  | _ => ilog (snd (query_attempt shared request c st)) = ilog st
  end.
Proof.
  unfold query_attempt.
  destruct (read_varuint32 request) as [[n rest]|].
  2:{ simpl. repeat split; try discriminate. }
  destruct (query_requests_effect (Z.to_nat n) rest ([] ++ push_varuint32 n) st)
    as (Hf & Hc & Hs & _ & runs & Hruns & Hall & Hout).
  repeat split; try assumption.
  destruct (fst (query_requests shared (Z.to_nat n) rest _ st)) as [[[] result]|e|];
    try assumption.
  destruct Hout as (H1 & H2 & H3). split; [assumption|].
  exists n, rest, runs. repeat split; assumption.
Qed.


Lemma forks_detected_ilog (st st' : state) (l : list log_line) :
  ilog st' = ilog st ++ l ->
  forks_detected st' = (forks_detected st + length (filter fork_logged l))%nat.
Proof.
  unfold forks_detected. intros ->. rewrite filter_app, length_app. reflexivity.
Qed.

(** The retry loop of [query], started with [num_tries] attempts used up. *)
Lemma retry_loop_query (request : list byte) (fuel : nat) :
  forall (num_tries : Z) (c : list byte) (st : state),
    0 <= num_tries < 4 -> (Z.to_nat (4 - num_tries) <= fuel)%nat ->
    fst (retry_loop_from shared fuel num_tries (query_attempt shared request) c st)
      <> out_of_fuel /\
    exists attempts forks : nat,
      (1 <= attempts)%nat /\ Z.of_nat attempts <= 4 - num_tries /\
      (forks <= attempts)%nat /\
      sessions_created
        (snd (retry_loop_from shared fuel num_tries (query_attempt shared request) c st)) =
        (sessions_created st + attempts)%nat /\
      forks_detected
        (snd (retry_loop_from shared fuel num_tries (query_attempt shared request) c st)) =
        (forks_detected st + forks)%nat /\
      (forall reply,
          fst (retry_loop_from shared fuel num_tries (query_attempt shared request) c st) =
            Ok reply ->
          attempts = S forks /\
          committed request reply
            (snd (retry_loop_from shared fuel num_tries
                    (query_attempt shared request) c st))) /\
      (Z.of_nat forks = 4 - num_tries ->
       fst (retry_loop_from shared fuel num_tries (query_attempt shared request) c st) =
         Throw too_many_forks).
Proof.
  induction fuel as [|fuel IH]; intros num_tries c st Hn Hfuel; [lia|].
  rewrite retry_loop_step. cbv zeta.
  set (st1 := open_session shared st).
  destruct (head (fill_status st1) =? 0).
  { state_simpl. split; [discriminate|]. exists 1%nat, 0%nat.
    repeat split; try lia; try discriminate;
      unfold forks_detected, st1; state_simpl; lia. }
  set (st2 := snd (fill_context_data st1)).
  destruct (query_attempt_effect request c st2) as (Hf & Hc & Hs & Hout).
  change (sessions_created st2) with (S (sessions_created st)) in Hc.
  change (query_session st2) with (Some (sessions_created st)) in *.
  change (ilog st2) with (ilog st) in Hout.
  change (guest_runs st2) with (guest_runs st) in Hout.
  change (reply st2) with (reply st) in Hout.
  destruct (query_attempt shared request c st2) as [[[[] result]|e|] st3];
    cbn [fst snd] in Hf, Hc, Hs, Hout.
  - (* committed *)
    destruct Hout as (Hl & n & rest & runs & Hr & Hruns & Hlen & Hall & Hres).
    state_simpl. split; [discriminate|]. exists 1%nat, 0%nat.
    split; [lia|]. split; [lia|]. split; [lia|]. split; [lia|].
    split; [unfold forks_detected; state_simpl; rewrite Hl; lia|].
    split; [|intros; lia].
    intros reply [= <-]. split; [reflexivity|].
    exists n, rest, (sessions_created st), runs, (guest_runs st), (reply st).
    repeat split; assumption.
  - (* fork *)
    destruct Hout as (line & Hline & Hl).
    assert (Hk : forks_detected st3 = S (forks_detected st)).
    { rewrite (forks_detected_ilog st st3 [line] Hl). simpl. rewrite Hline.
      simpl. lia. }
    destruct (num_tries + 1 >=? 4) eqn:Elast.
    + state_simpl. split; [discriminate|]. exists 1%nat, 1%nat.
      split; [lia|]. split; [lia|]. split; [lia|]. split; [lia|].
      split; [unfold forks_detected in *; state_simpl; lia|].
      split; [discriminate|reflexivity].
    + assert (Hlt : num_tries + 1 < 4) by lia.
      set (st4 := reset_session (set_ilog st3 (ilog st3 ++ [log_retry_request]))).
      destruct (IH (num_tries + 1) result st4)
        as (If & a & k & I1 & I2 & I3 & I4 & I5 & I6 & I7); [lia | lia |].
      change (sessions_created st4) with (sessions_created st3) in I4.
      assert (Hk4 : forks_detected st4 = forks_detected st3).
      { unfold forks_detected, st4. state_simpl.
        rewrite filter_app, length_app. simpl. lia. }
      split; [exact If|]. exists (S a), (S k).
      split; [lia|]. split; [lia|]. split; [lia|]. split; [lia|].
      split; [lia|]. split.
      * intros reply Hreply. destruct (I6 reply Hreply) as [-> Hcom].
        split; [reflexivity | exact Hcom].
      * intros Hfk. apply I7. lia.
  - (* error *)
    state_simpl. split; [discriminate|]. exists 1%nat, 0%nat.
    split; [lia|]. split; [lia|]. split; [lia|]. split; [lia|].
    split; [unfold forks_detected; state_simpl; rewrite Hout; lia|].
    split; [discriminate|intros; lia].
  - congruence.
Qed.

End Driver.

(** ** Helper lemmas on the retry loop *)

Lemma retry_loop_enough_fuel {Captured : Type} (shared : shared_state)
    (f : Captured -> M (bool * Captured)) (fuel : nat) :
  forall (num_tries : Z) (c : Captured) (st : state),
    0 <= num_tries < 4 -> (Z.to_nat (4 - num_tries) <= fuel)%nat ->
    retry_loop_from shared (S fuel) num_tries f c st =
    retry_loop_from shared fuel num_tries f c st.
Proof.
  induction fuel as [|fuel IH]; intros num_tries c st Hn Hfuel; [lia|].
  rewrite (retry_loop_step shared (S fuel)), (retry_loop_step shared fuel).
  cbv zeta.
  destruct (head (fill_status (open_session shared st)) =? 0); [reflexivity|].
  destruct (f c _) as [[[[] c']|e|] st']; try reflexivity.
  destruct (num_tries + 1 >=? 4) eqn:E; [reflexivity|].
  apply IH; lia.
Qed.

Lemma retry_loop_more_fuel {Captured : Type} (shared : shared_state)
    (f : Captured -> M (bool * Captured)) (c : Captured) (st : state) (extra : nat) :
  retry_loop_from shared (4 + extra) 0 f c st = retry_loop shared f c st.
Proof.
  unfold retry_loop. induction extra as [|extra IH].
  - reflexivity.
  - rewrite <- IH. replace (4 + S extra)%nat with (S (4 + extra)) by lia.
    apply retry_loop_enough_fuel; lia.
Qed.

Lemma retry_loop_staged_ignored (shared : shared_state) (request : list byte)
    (fuel : nat) (num_tries : Z) (c c' : list byte) (st : state) :
  retry_loop_from shared fuel num_tries (query_attempt shared request) c st =
  retry_loop_from shared fuel num_tries (query_attempt shared request) c' st.
Proof.
  destruct fuel; [reflexivity|]. rewrite !retry_loop_step. reflexivity.
Qed.

Lemma checksum256_eqb_eq (a b : checksum256) :
  checksum256_eqb a b = true <-> a = b.
Proof.
  unfold checksum256_eqb. destruct (list_eq_dec Z.eq_dec a b); split;
    intros; congruence.
Qed.

Lemma replies_after_length (runs : list guest_run) :
  forall previous, length (replies_after previous runs) = length runs.
Proof.
  induction runs as [|r runs IH]; intros previous; simpl; [reflexivity|].
  rewrite IH. reflexivity.
Qed.

Lemma replies_after_outputs (P : guest_run -> Prop) (runs : list guest_run) :
  Forall P runs ->
  forall previous,
    Forall2 (fun r blob =>
               P r /\ (last_output r <> None -> last_output r = Some blob))
            runs (replies_after previous runs).
Proof.
  induction 1 as [|r runs Hr Hruns IH]; intros previous; simpl; constructor.
  - split; [exact Hr|]. destruct (last_output r); congruence.
  - apply IH.
Qed.

Lemma query_committed (shared : shared_state) (request reply : list byte)
    (st st' : state) :
  query shared request st = (Ok reply, st') -> committed request reply st'.
Proof.
  intros H. unfold query, retry_loop in H.
  destruct (retry_loop_query shared request 4 0 [] st)
    as (_ & a & k & _ & _ & _ & _ & _ & H6 & _); [lia | simpl; lia |].
  rewrite H in H6. destruct (H6 reply eq_refl) as [_ Hc]. exact Hc.
Qed.

Lemma query_never_out_of_fuel (shared : shared_state) (request : list byte)
    (st : state) :
  fst (query shared request st) <> out_of_fuel.
Proof.
  unfold query, retry_loop.
  destruct (retry_loop_query shared request 4 0 [] st) as [H _];
    [lia | simpl; lia | exact H].
Qed.

(** ** The claims on the driver *)

(** C2 (amended).  When an attempt of [query] ends in a detected fork and
    is not the fourth, the loop releases the session and runs the whole
    lambda again, from the first sub-request and an empty reply vector,
    under a session the store creates anew.  [query] then either throws, and
    there is no reply, or returns a reply whose sub-requests all ran under
    one session, the last one created; each blob is what its run last
    handed to [set_output_data], whenever the run called it at all. *)
Theorem query_restarts_under_fresh_session (shared : shared_state)
    (request : list byte) (st : state) :
  (forall (fuel : nat) (num_tries : Z) (staged staged' : list byte) (st3 : state),
      head (fill_status (open_session shared st)) <> 0 ->
      query_attempt shared request staged
        (snd (fill_context_data (open_session shared st))) =
        (Ok (false, staged'), st3) ->
      num_tries + 1 < 4 ->
      let st4 := reset_session (set_ilog st3 (ilog st3 ++ [log_retry_request])) in
      retry_loop_from shared (S fuel) num_tries
                      (query_attempt shared request) staged st =
      retry_loop_from shared fuel (num_tries + 1)
                      (query_attempt shared request) [] st4 /\
      query_session st4 = None /\
      query_session (open_session shared st) = Some (sessions_created st) /\
      query_session (open_session shared st4) = Some (S (sessions_created st))) /\
  match query shared request st with
  | (Ok reply, st') =>
      exists n rest session runs older blobs,
        read_varuint32 request = Some (n, rest) /\
        sessions_created st' = S session /\
        guest_runs st' = rev runs ++ older /\
        length runs = Z.to_nat n /\
        reply = encode_reply blobs /\
        Forall2 (fun r blob =>
                   run_session r = Some session /\
                   (last_output r <> None -> last_output r = Some blob))
                runs blobs
  | (Throw _, _) => True
  | (out_of_fuel, _) => False
  end.
Proof.
  split.
  - intros fuel num_tries staged staged' st3 Hhead Hattempt Hlt st4.
    split; [|split; [reflexivity|split; [reflexivity|]]].
    + rewrite retry_loop_step. cbv zeta.
      destruct (Z.eqb_spec (head (fill_status (open_session shared st))) 0);
        [contradiction|].
      rewrite Hattempt.
      destruct (Z.geb_spec (num_tries + 1) 4); [lia|].
      apply retry_loop_staged_ignored.
    + destruct (query_attempt_effect shared request staged
                  (snd (fill_context_data (open_session shared st))))
        as (_ & Hc & _).
      rewrite Hattempt in Hc. cbn [snd] in Hc.
      unfold st4. state_simpl. rewrite Hc. reflexivity.
  - pose proof (query_never_out_of_fuel shared request st) as Hfuel.
    destruct (query shared request st) as [[reply|e|] st'] eqn:Hq.
    + destruct (query_committed _ _ _ _ _ Hq)
        as (n & rest & session & runs & older & previous &
            Hr & Hs & Hruns & Hlen & Hall & Hreply).
      exists n, rest, session, runs, older, (replies_after previous runs).
      repeat split; try assumption.
      * unfold encode_reply. rewrite replies_after_length, Hlen, Z2Nat.id.
        -- exact Hreply.
        -- apply read_varuint32_range in Hr. lia.
      * apply replies_after_outputs. exact Hall.
    + exact I.
    + apply Hfuel. reflexivity.
Qed.

Lemma replies_after_silent (runs : list guest_run) :
  forall previous i r,
    nth_error runs (S i) = Some r -> last_output r = None ->
    nth_error (replies_after previous runs) (S i) =
    nth_error (replies_after previous runs) i.
Proof.
  induction runs as [|r0 runs IH]; intros previous i r Hr Hsilent;
    [discriminate Hr|].
  cbn [replies_after]. cbv zeta. cbn [nth_error] in *.
  destruct i as [|i].
  - destruct runs as [|r1 runs]; [discriminate Hr|].
    cbn [nth_error] in Hr. injection Hr as ->.
    cbn [replies_after nth_error]. cbv zeta. rewrite Hsilent. reflexivity.
  - apply (IH _ i r Hr Hsilent).
Qed.


(** C6.  When the session opened for an attempt reports [head = 0], the
    retry loop throws [empty_database] without calling the lambda at all,
    whatever the lambda is; so [query] fails with that error and no guest
    has run and no session call was made. *)
Theorem empty_database_fails_before_guest (shared : shared_state)
    (request : list byte) (st : state) :
  head (get_fill_status (db_iface shared) (sessions_created st)) = 0 ->
  (forall (Captured : Type) (fuel : nat) (num_tries : Z)
          (f : Captured -> M (bool * Captured)) (c : Captured),
      retry_loop_from shared (S fuel) num_tries f c st =
      (Throw empty_database, reset_session (open_session shared st))) /\
  guest_runs (reset_session (open_session shared st)) = guest_runs st /\
  session_calls (reset_session (open_session shared st)) = session_calls st /\
  query shared request st =
    (Throw empty_database, reset_session (open_session shared st)).
Proof.
  intros Hhead.
  assert (H : forall (Captured : Type) (fuel : nat) (num_tries : Z)
          (f : Captured -> M (bool * Captured)) (c : Captured),
      retry_loop_from shared (S fuel) num_tries f c st =
      (Throw empty_database, reset_session (open_session shared st))).
  { intros. rewrite retry_loop_step. cbv zeta.
    change (fill_status (open_session shared st))
      with (get_fill_status (db_iface shared) (sessions_created st)).
    rewrite Hhead. reflexivity. }
  split; [exact H|]. split; [reflexivity|]. split; [reflexivity|].
  apply H.
Qed.

(** C10 (amended).  A request whose count is zero commits on the first
    attempt with the reply [varuint32 0], running no guest, making no
    session call (so no fork check) and logging nothing, provided the
    session reports a non-zero head; with a zero head it fails with
    [empty_database]; in neither case with [too_many_forks]. *)
Theorem zero_requests_commit (shared : shared_state) (request rest : list byte)
    (st : state) :
  read_varuint32 request = Some (0, rest) ->
  (head (get_fill_status (db_iface shared) (sessions_created st)) <> 0 ->
   fst (query shared request st) = Ok (push_varuint32 0) /\
   sessions_created (snd (query shared request st)) = S (sessions_created st) /\
   guest_runs (snd (query shared request st)) = guest_runs st /\
   session_calls (snd (query shared request st)) = session_calls st /\
   ilog (snd (query shared request st)) = ilog st) /\
  (head (get_fill_status (db_iface shared) (sessions_created st)) = 0 ->
   fst (query shared request st) = Throw empty_database) /\
  fst (query shared request st) <> Throw too_many_forks.
Proof.
  intros Hreq.
  assert (Hq : query shared request st =
    if head (get_fill_status (db_iface shared) (sessions_created st)) =? 0
    then (Throw empty_database, reset_session (open_session shared st))
    else (Ok (push_varuint32 0),
          reset_session (snd (fill_context_data (open_session shared st))))).
  { unfold query, retry_loop. rewrite retry_loop_step. cbv zeta.
    change (fill_status (open_session shared st))
      with (get_fill_status (db_iface shared) (sessions_created st)).
    destruct (head _ =? 0); [reflexivity|].
    unfold query_attempt. rewrite Hreq. reflexivity. }
  rewrite Hq.
  destruct (Z.eqb_spec (head (get_fill_status (db_iface shared) (sessions_created st))) 0)
    as [E|E].
  - split; [intros; contradiction|]. split; [reflexivity|discriminate].
  - split; [|split; [intros; contradiction|discriminate]].
    intros _. repeat split.
Qed.

(** ** The callback-allocation protocol *)

Lemma read_range_length (m : Z -> byte) (p_begin p_end : Z) :
  length (read_range m p_begin p_end) = Z.to_nat (p_end - p_begin).
Proof. unfold read_range. rewrite length_map, length_seq. reflexivity. Qed.

Lemma map_seq_nth {A} (f : nat -> A) (l : list A) (d : A) :
  (forall i, (i < length l)%nat -> f i = nth i l d) ->
  map f (seq 0 (length l)) = l.
Proof.
  intros H. apply (nth_ext _ _ (f 0%nat) d).
  - rewrite length_map, length_seq. reflexivity.
  - intros i Hi. rewrite length_map, length_seq in Hi.
    rewrite map_nth, seq_nth by exact Hi. apply H. exact Hi.
Qed.

Lemma read_range_memcpy (m : Z -> byte) (data : Z) (src : list byte) :
  read_range (memcpy m data src) data (data + Z.of_nat (length src)) = src.
Proof.
  unfold read_range.
  replace (data + Z.of_nat (length src) - data) with (Z.of_nat (length src)) by lia.
  rewrite Nat2Z.id. apply (map_seq_nth _ src 0).
  intros i Hi. unfold memcpy.
  destruct (Z.leb_spec data (data + Z.of_nat i)); [|lia].
  destruct (Z.ltb_spec (data + Z.of_nat i) (data + Z.of_nat (length src))); [|lia].
  simpl. f_equal. lia.
Qed.

Lemma memcpy_outside (m : Z -> byte) (data : Z) (src : list byte) (a : Z) :
  a < data \/ data + Z.of_nat (length src) <= a -> memcpy m data src a = m a.
Proof.
  intros H. unfold memcpy.
  destruct (Z.leb_spec data a); destruct (Z.ltb_spec a (data + Z.of_nat (length src)));
    simpl; try reflexivity; lia.
Qed.

Lemma alloc_then_copy_delivers (backend : wasm_module)
    (cb_alloc_data cb_alloc : Z) (payload : list byte) (st : state) :
  Z.of_nat (length payload) < 2 ^ 32 ->
  delivers backend cb_alloc_data cb_alloc payload st
    ((data <- alloc backend cb_alloc_data cb_alloc
                    (to_uint32 (Z.of_nat (length payload))) ;;
      copy_to data payload) st).
Proof.
  intros Hsize. unfold delivers. cbv zeta.
  rewrite to_uint32_small by lia.
  cbv beta delta [bind alloc].
  destruct (execute_func_table backend cb_alloc cb_alloc_data _ (wa st))
    as [|result wa']; [reflexivity|].
  destruct result as [[v|v|v|v]|]; try reflexivity.
  cbv beta zeta delta [check_bounds].
  destruct (Z.gtb_spec (base_ptr wa' + to_uint32 v)
              (base_ptr wa' + to_uint32 v + Z.of_nat (length payload))); [lia|].
  cbv beta iota delta [ret copy_to modify].
  eexists. split; [reflexivity|]. state_simpl. cbn [base_ptr mem_size mem].
  split; [reflexivity|]. split; [reflexivity|]. split; [reflexivity|].
  split; [apply read_range_memcpy | apply memcpy_outside].
Qed.

(** C7.  Each of the three host calls that return data calls the guest
    function [cb_alloc] with [(cb_alloc_data, size of the data)] and, when
    that returns an [i32], writes the data, whole, at the offset returned;
    when it returns nothing or another type the call throws
    [bad_callback_return].  [query_database] does so once its request range
    has passed [check_bounds] and the session has answered. *)
Theorem callback_allocation_protocol (shared : shared_state)
    (backend : wasm_module) (st : state)
    (cb_alloc_data cb_alloc req_begin req_end : Z) (session : nat) :
  Z.of_nat (length (database_status st)) < 2 ^ 32 ->
  Z.of_nat (length (request st)) < 2 ^ 32 ->
  req_begin <= req_end ->
  query_session st = Some session ->
  Z.of_nat (length (db_query_database (db_iface shared) session (session_calls st)
                      (read_range (mem (wa st)) req_begin req_end)
                      (head (fill_status st)))) < 2 ^ 32 ->
  delivers backend cb_alloc_data cb_alloc (database_status st) st
    (get_database_status backend cb_alloc_data cb_alloc st) /\
  delivers backend cb_alloc_data cb_alloc (request st) st
    (get_input_data backend cb_alloc_data cb_alloc st) /\
  delivers backend cb_alloc_data cb_alloc
    (db_query_database (db_iface shared) session (session_calls st)
       (read_range (mem (wa st)) req_begin req_end) (head (fill_status st)))
    (set_session_calls st (S (session_calls st)))
    (query_database shared backend req_begin req_end cb_alloc_data cb_alloc st).
Proof.
  intros Hstatus Hrequest Hbounds Hsession Hresult.
  split; [|split].
  - apply (alloc_then_copy_delivers backend cb_alloc_data cb_alloc
             (database_status st) st Hstatus).
  - apply (alloc_then_copy_delivers backend cb_alloc_data cb_alloc
             (request st) st Hrequest).
  - unfold query_database, check_bounds.
    destruct (Z.gtb_spec req_begin req_end); [lia|].
    cbv beta iota delta [bind ret get modify]. rewrite Hsession.
    apply (alloc_then_copy_delivers backend cb_alloc_data cb_alloc _
             (set_session_calls st (S (session_calls st))) Hresult).
Qed.

End WasmQLFacts.

(* ================================================================== *)
(** * Theorems: the claims on concrete stores, modules and requests *)
(* ================================================================== *)

Module Scenarios.
Import Wire WasmQL WasmQLFacts Examples.

(** C1.  [check_bounds] compares the two pointers and never looks at the
    linear memory.  With one page of memory, [set_output_data] called with
    the offsets 65530 and 65540 is accepted although the range ends four
    bytes past the page, and the reply takes the four bytes that lie
    outside the guest's memory. *)
Theorem check_bounds_ignores_linear_memory :
  (forall p_begin p_end st,
      check_bounds p_begin p_end st =
      if p_begin >? p_end then (Throw bad_memory, st) else (Ok tt, st)) /\
  let memory := wa running_state in
  let p_begin := base_ptr memory + 65530 in
  let p_end := base_ptr memory + 65540 in
  let result :=
    call_host_function steady_shared writer
      (call_set_output_data 65530 65540) running_state in
  p_begin <= p_end /\
  ~ in_linear_memory memory p_begin p_end /\
  fst result = Ok tt /\
  reply (snd result) = [99; 100; 101; 102; 103; 104; 105; 106; 107; 108] /\
  read_range (mem memory) (base_ptr memory + mem_size memory) p_end =
    [105; 106; 107; 108].
Proof.
  split.
  - intros p_begin p_end st. unfold check_bounds.
    destruct (p_begin >? p_end); reflexivity.
  - cbv zeta. split; [vm_compute; discriminate|]. split.
    + unfold in_linear_memory. vm_compute. intros [_ H]. apply H. reflexivity.
    + split; [vm_compute; reflexivity|].
      split; vm_compute; reflexivity.
Qed.

(** C2, counterexample.  The store forks under the first session after the
    second sub-request; the second attempt commits.  Its first run writes
    nothing, so the first blob of the committed reply is the byte the
    second run of the dropped attempt wrote under session 0, while the
    second blob was written under session 1: no session produced both. *)
Lemma fork_retry_mixes_sessions :
  let result := query forking_shared conditional_then_head_writer initial_state in
  fst result = Ok (encode_reply [[1]; [2]]) /\
  map run_summary (guest_runs (snd result)) =
    [(Some 1%nat, head_writer_n, [[2]]); (Some 1%nat, conditional_n, []);
     (Some 0%nat, head_writer_n, [[1]]); (Some 0%nat, conditional_n, [[9]])] /\
  ~ (exists session,
        Forall (produced_under (guest_runs (snd result)) session) [[1]; [2]]).
Proof.
  cbv zeta. split; [vm_compute; reflexivity|]. split; [vm_compute; reflexivity|].
  remember (guest_runs
              (snd (query forking_shared conditional_then_head_writer initial_state)))
    as runs eqn:Hruns.
  vm_compute in Hruns. intros [session H].
  apply Forall_cons_iff in H. destruct H as [P1 H].
  apply Forall_cons_iff in H. destruct H as [P2 _].
  subst runs.
  assert (S0 : session = 0%nat).
  { destruct P1 as (r & Hin & Hs & Hb). simpl in Hin.
    destruct Hin as [<-|[<-|[<-|[<-|[]]]]]; simpl in Hs, Hb;
      try (destruct Hb as [Hb|[]]; discriminate); try contradiction.
    congruence. }
  assert (S1 : session = 1%nat).
  { destruct P2 as (r & Hin & Hs & Hb). simpl in Hin.
    destruct Hin as [<-|[<-|[<-|[<-|[]]]]]; simpl in Hs, Hb;
      try (destruct Hb as [Hb|[]]; discriminate); try contradiction.
    congruence. }
  congruence.
Qed.


(** C10, counterexample.  On a store without blocks the request with no
    sub-request does not commit: it fails with [empty_database]. *)
Lemma zero_requests_on_empty_database :
  read_varuint32 no_requests = Some (0, []) /\
  fst (query empty_shared no_requests initial_state) = Throw empty_database /\
  fst (query empty_shared no_requests initial_state) <> Ok (push_varuint32 0).
Proof.
  split; [reflexivity|]. split; [vm_compute; reflexivity|].
  vm_compute. discriminate.
Qed.

(** A one-module request against a store without blocks. *)
Lemma empty_database_fails_before_guest_witness :
  head (get_fill_status (db_iface empty_shared) (sessions_created initial_state)) = 0 /\
  query empty_shared writer_request initial_state =
    (Throw empty_database, reset_session (open_session empty_shared initial_state)).
Proof.
  split; [reflexivity|].
  apply (empty_database_fails_before_guest empty_shared writer_request
           initial_state eq_refl).
Defined.

(** The empty request against a store that has blocks. *)
Lemma zero_requests_commit_witness :
  read_varuint32 no_requests = Some (0, []) /\
  fst (query steady_shared no_requests initial_state) <> Throw too_many_forks.
Proof.
  split; [reflexivity|].
  apply (zero_requests_commit steady_shared no_requests [] initial_state eq_refl).
Defined.


(** [get_database_status] with the 76-byte status blob of the first attempt. *)
Lemma callback_allocation_protocol_witness :
  Z.of_nat (length (database_status first_attempt)) = 76 /\
  delivers writer 0 0 (database_status first_attempt) first_attempt
    (get_database_status writer 0 0 first_attempt).
Proof.
  split; [reflexivity|].
  refine (proj1 (callback_allocation_protocol steady_shared writer first_attempt
                   0 0 0 0 0%nat _ _ _ eq_refl _)); vm_compute; try reflexivity;
    discriminate.
Defined.

End Scenarios.

(* ================================================================== *)
(** * Theorems: the wire primitives read back what they wrote *)
(* ================================================================== *)

Module WireFacts.
Import Wire.

Lemma take_bytes_app (l rest : list byte) :
  take_bytes (length l) (l ++ rest) = Some (l, rest).
Proof.
  unfold take_bytes. rewrite length_app.
  destruct (Nat.ltb_spec (length l + length rest) (length l)); [lia|].
  rewrite firstn_app, Nat.sub_diag, firstn_all, skipn_app, Nat.sub_diag,
    skipn_all. simpl. rewrite app_nil_r. reflexivity.
Qed.

Lemma native_to_bin_uint_length (n : nat) :
  forall v, length (native_to_bin_uint n v) = n.
Proof. induction n as [|n IH]; intros v; simpl; [|rewrite IH]; reflexivity. Qed.

Lemma le_value_native_to_bin_uint (n : nat) :
  forall v,
    le_value (native_to_bin_uint n v) = Z.land v (Z.ones (8 * Z.of_nat n)).
Proof.
  induction n as [|n IH]; intros v.
  - simpl. rewrite Z.land_0_r. reflexivity.
  - cbn [native_to_bin_uint le_value]. rewrite IH.
    apply Z.bits_inj'. intros i Hi.
    rewrite Z.lor_spec, !Z.land_spec.
    change 255 with (Z.ones 8).
    rewrite !Z.testbit_ones_nonneg by lia.
    destruct (Z.ltb_spec i 8).
    + rewrite Z.shiftl_spec_low by lia.
      destruct (Z.ltb_spec i (8 * Z.of_nat (S n))); [|lia].
      rewrite andb_true_r, orb_false_r, andb_true_r. reflexivity.
    + rewrite Z.shiftl_spec by lia. rewrite Z.land_spec, Z.shiftr_spec by lia.
      rewrite Z.testbit_ones_nonneg by lia.
      replace (i - 8 + 8) with i by lia.
      rewrite !andb_false_r, orb_false_l.
      destruct (Z.ltb_spec (i - 8) (8 * Z.of_nat n));
        destruct (Z.ltb_spec i (8 * Z.of_nat (S n))); try lia; reflexivity.
Qed.

(** A fixed-width integer written and read back. *)
Lemma read_uint_native_to_bin (n : nat) (v : Z) (rest : list byte) :
  0 <= v < 2 ^ (8 * Z.of_nat n) ->
  read_uint n (native_to_bin_uint n v ++ rest) = Some (v, rest).
Proof.
  intros Hv. unfold read_uint.
  rewrite <- (native_to_bin_uint_length n v) at 1.
  rewrite take_bytes_app, le_value_native_to_bin_uint.
  rewrite Z.land_ones by lia. rewrite Z.mod_small by exact Hv. reflexivity.
Qed.

Lemma low7_high (val : Z) :
  Z.lor (Z.land val 127) (Z.shiftl (Z.shiftr val 7) 7) = val.
Proof.
  apply Z.bits_inj'. intros i Hi.
  rewrite Z.lor_spec, Z.land_spec. change 127 with (Z.ones 7).
  rewrite Z.testbit_ones_nonneg by lia.
  destruct (Z.ltb_spec i 7).
  - rewrite Z.shiftl_spec_low by lia. rewrite andb_true_r, orb_false_r.
    reflexivity.
  - rewrite Z.shiftl_spec, Z.shiftr_spec by lia.
    replace (i - 7 + 7) with i by lia. rewrite andb_false_r. reflexivity.
Qed.

Lemma low7_range (val : Z) : 0 <= Z.land val 127 < 128.
Proof.
  change 127 with (Z.ones 7). rewrite Z.land_ones by lia.
  apply Z.mod_pos_bound. lia.
Qed.

Lemma continuation_byte (b : Z) :
  0 <= b < 128 ->
  Z.testbit (Z.lor b 128) 7 = true /\ Z.land (Z.lor b 128) 127 = b /\
  Z.testbit b 7 = false /\ Z.land b 127 = b.
Proof.
  intros Hb.
  assert (Hhigh : forall i, 7 <= i -> Z.testbit b i = false).
  { intros i Hi. destruct (Z.eq_dec b 0) as [->|Hne]; [apply Z.bits_0|].
    apply Z.bits_above_log2; [lia|].
    apply Z.log2_lt_pow2; [lia|].
    apply Z.lt_le_trans with (2 ^ 7); [lia|].
    apply Z.pow_le_mono_r; lia. }
  assert (Hland : Z.land b 127 = b).
  { change 127 with (Z.ones 7). rewrite Z.land_ones by lia.
    apply Z.mod_small. lia. }
  repeat split.
  - rewrite Z.lor_spec, Hhigh by lia. reflexivity.
  - apply Z.bits_inj'. intros i Hi.
    rewrite Z.land_spec, Z.lor_spec. change 127 with (Z.ones 7).
    rewrite Z.testbit_ones_nonneg by lia.
    destruct (Z.ltb_spec i 7).
    + change 128 with (2 ^ 7). rewrite Z.pow2_bits_false by lia.
      rewrite orb_false_r, andb_true_r. reflexivity.
    + rewrite Hhigh by lia. rewrite andb_false_r. reflexivity.
  - apply Hhigh. lia.
  - exact Hland.
Qed.

Lemma read_varuint32_from_push (groups : nat) :
  forall val shift acc rest,
    (0 < groups)%nat -> 0 <= val < 2 ^ (7 * Z.of_nat groups) -> 0 <= shift ->
    read_varuint32_from (push_varuint32_from groups val ++ rest) shift acc =
    Some (to_uint32 (Z.lor acc (Z.shiftl val shift)), rest).
Proof.
  induction groups as [|g IH]; intros val shift acc rest Hg Hval Hshift; [lia|].
  cbn [push_varuint32_from]. cbv zeta.
  pose proof (low7_range val) as Hlow.
  destruct (continuation_byte (Z.land val 127) Hlow) as (C1 & C2 & C3 & C4).
  assert (Hhigh : 0 <= Z.shiftr val 7 < 2 ^ (7 * Z.of_nat g)).
  { rewrite Z.shiftr_div_pow2 by lia. split.
    - apply Z.div_pos; lia.
    - apply Z.div_lt_upper_bound; [lia|].
      rewrite <- Z.pow_add_r by lia.
      replace (7 + 7 * Z.of_nat g) with (7 * Z.of_nat (S g)) by lia. lia. }
  destruct (Z.ltb_spec 0 (Z.shiftr val 7)) as [Hpos|Hzero].
  - assert (Hg' : (0 < g)%nat).
    { destruct g; [|lia]. simpl in Hhigh. lia. }
    rewrite <- app_comm_cons. cbn [read_varuint32_from]. cbv zeta.
    rewrite C1, C2. rewrite IH by (try assumption; lia).
    f_equal. f_equal. f_equal.
    rewrite <- Z.lor_assoc. f_equal.
    rewrite <- (low7_high val) at 3.
    rewrite Z.shiftl_lor, Z.shiftl_shiftl by lia.
    rewrite (Z.add_comm 7 shift). reflexivity.
  - assert (Hsmall : Z.shiftr val 7 = 0) by lia.
    cbn [app read_varuint32_from]. cbv zeta. rewrite C3, C4.
    f_equal. f_equal. f_equal. f_equal.
    rewrite <- (low7_high val) at 2. rewrite Hsmall.
    rewrite Z.shiftl_0_l, Z.lor_0_r. reflexivity.
Qed.

Lemma to_uint32_idem (v : Z) : to_uint32 (to_uint32 v) = to_uint32 v.
Proof. unfold to_uint32. apply Z.mod_mod. lia. Qed.

(** A [varuint32] written and read back: the value, truncated to 32 bits. *)
Lemma read_varuint32_push (v : Z) (rest : list byte) :
  read_varuint32 (push_varuint32 v ++ rest) = Some (to_uint32 v, rest).
Proof.
  unfold read_varuint32, push_varuint32.
  rewrite read_varuint32_from_push.
  - rewrite Z.shiftl_0_r, Z.lor_0_l.
    rewrite (to_uint32_idem v). reflexivity.
  - lia.
  - pose proof (WasmQLFacts.to_uint32_range v). simpl. lia.
  - lia.
Qed.

(** A length-prefixed blob written and read back. *)
Lemma read_blob_push (blob rest : list byte) :
  Z.of_nat (length blob) < 2 ^ 32 ->
  read_blob (push_blob blob ++ rest) = Some (blob, rest).
Proof.
  intros Hlen. unfold read_blob, push_blob.
  rewrite <- app_assoc, read_varuint32_push.
  rewrite WasmQLFacts.to_uint32_small by lia.
  rewrite Nat2Z.id. apply take_bytes_app.
Qed.
End WireFacts.

(* ================================================================== *)
(** * Theorems: the key increment on keys as numbers *)
(* ================================================================== *)

Module KeyOrderFacts.
Import Keys KeyOrder.

(** Powers of two with literal exponents become numerals, in the goal and
    the hypotheses. *)
Ltac eval_pow2 :=
  repeat match goal with
         | |- context [2 ^ ?n] =>
             let v := eval vm_compute in (2 ^ n) in change (2 ^ n) with v
         | H : context [2 ^ ?n] |- _ =>
             let v := eval vm_compute in (2 ^ n) in change (2 ^ n) with v in H
         end.

Lemma key_code_range (k : key) : key_ok k -> 0 <= key_code k < 2 ^ 512.
Proof.
  destruct k as [[kn] [kr] [ka] kb [t0 t1] ki].
  unfold key_ok, name_ok, checksum256_ok, uint_ok, key_code.
  cbn [value key_name receipt_receiver account block_index transaction_id
       action_index data0 data1].
  intros (Hn & Hr & Ha & Hb & (H0 & H1) & Hi). eval_pow2. lia.
Qed.

Lemma key_lt_code (a b : key) :
  key_ok a -> key_ok b -> (key_lt a b <-> key_code a < key_code b).
Proof.
  destruct a as [[an] [ar] [aa] ab [a0 a1] ai].
  destruct b as [[bn] [br] [ba] bb [b0 b1] bi].
  unfold key_ok, name_ok, checksum256_ok, uint_ok, key_lt, key_fields,
    checksum256_fields, key_code.
  cbn [value key_name receipt_receiver account block_index transaction_id
       action_index data0 data1 app lex_lt].
  intros (Hn & Hr & Ha & Hb & (H0 & H1) & Hi)
         (Gn & Gr & Ga & Gb & (G0 & G1) & Gi).
  eval_pow2. split; intros H; lia.
Qed.

Lemma key_code_inj (a b : key) :
  key_ok a -> key_ok b -> key_code a = key_code b -> a = b.
Proof.
  destruct a as [[an] [ar] [aa] ab [a0 a1] ai].
  destruct b as [[bn] [br] [ba] bb [b0 b1] bi].
  unfold key_ok, name_ok, checksum256_ok, uint_ok, key_code.
  cbn [value key_name receipt_receiver account block_index transaction_id
       action_index data0 data1].
  intros (Hn & Hr & Ha & Hb & (H0 & H1) & Hi)
         (Gn & Gr & Ga & Gb & (G0 & G1) & Gi) H.
  eval_pow2.
  assert (an = bn) by lia. assert (ar = br) by lia. assert (aa = ba) by lia.
  assert (ab = bb) by lia. assert (a0 = b0) by lia. assert (a1 = b1) by lia.
  assert (ai = bi) by lia. congruence.
Qed.

(** The three facts about [increment_key] on which the statements below
    rest: unless the key is the last one its code grows by one and the flag
    is [false]; at the last key the flag is [true] and the code falls to
    zero; the fields stay in range. *)
Lemma increment_key_code_cases (k : key) :
  key_ok k ->
  key_ok (snd (increment_key k)) /\
  ((fst (increment_key k) = false /\
    key_code (snd (increment_key k)) = key_code k + 1 /\
    key_code k + 1 < 2 ^ 512) \/
   (fst (increment_key k) = true /\
    key_code k = 2 ^ 512 - 1 /\
    key_code (snd (increment_key k)) = 0)).
Proof.
  intros Hk. rewrite (KeysFacts.increment_key_eq k Hk). cbv zeta.
  destruct k as [[kn] [kr] [ka] kb [t0 t1] ki].
  destruct Hk as (Hn & Hr & Ha & Hb & (H0 & H1) & Hi).
  unfold key_ok, name_ok, checksum256_ok, uint_ok, key_code, wraps_name,
    wraps_checksum256, succ_name, succ_checksum256, succ_uint, wraps_uint,
    max_uint in *.
  cbn [value key_name receipt_receiver account block_index transaction_id
       action_index data0 data1 fst snd] in *.
  eval_pow2.
  repeat match goal with
         | |- context [?a =? ?b] => destruct (Z.eqb_spec a b)
         end;
    cbn [andb value key_name receipt_receiver account block_index
         transaction_id action_index data0 data1];
    (split; [lia|]); first [left; lia | right; lia].
Qed.

(** X1.  Read as one 512-bit number (fields in declared order, first field
    most significant), a key is incremented by exactly one, modulo 2^512;
    its fields stay in range, and the flag is set exactly at the last
    key. *)
Theorem increment_key_adds_one (k : key) :
  key_ok k ->
  key_code (snd (increment_key k)) = (key_code k + 1) mod 2 ^ 512 /\
  key_ok (snd (increment_key k)) /\
  (fst (increment_key k) = true <-> key_code k = 2 ^ 512 - 1).
Proof.
  intros Hk. destruct (increment_key_code_cases k Hk) as [Hok H].
  pose proof (key_code_range k Hk) as Hr.
  destruct H as [(Hf & Hc & Hlt)|(Hf & Hmax & Hc)].
  - rewrite Hc, Hf, Z.mod_small by (eval_pow2; lia).
    split; [reflexivity|]. split; [exact Hok|]. split; [discriminate|].
    intros Hmax. exfalso. eval_pow2. lia.
  - rewrite Hc, Hf, Hmax.
    replace (2 ^ 512 - 1 + 1) with (2 ^ 512) by (eval_pow2; lia).
    rewrite Z.mod_same by (eval_pow2; lia).
    split; [reflexivity|]. split; [exact Hok|]. split; reflexivity.
Qed.

(** The carrying key of the examples is incremented by one as a number. *)
Lemma increment_key_adds_one_witness :
  key_ok Examples.carrying_key /\
  key_code (snd (increment_key Examples.carrying_key)) =
    (key_code Examples.carrying_key + 1) mod 2 ^ 512.
Proof.
  assert (Hk : key_ok Examples.carrying_key).
  { unfold key_ok, name_ok, checksum256_ok, uint_ok. vm_compute.
    repeat split; discriminate. }
  split; [exact Hk|].
  exact (proj1 (increment_key_adds_one Examples.carrying_key Hk)).
Defined.

(** X2.  The incremented key is the least key above [k]: whenever some
    key [j] is greater than [k], incrementing [k] does not wrap and gives
    either [j] itself or a key still below [j].  A range that starts at the
    successor of the last key seen therefore skips no key. *)
Theorem increment_key_least_above (k j : key) :
  key_ok k -> key_ok j -> key_lt k j ->
  fst (increment_key k) = false /\
  key_lt k (snd (increment_key k)) /\
  (snd (increment_key k) = j \/ key_lt (snd (increment_key k)) j).
Proof.
  intros Hk Hj Hlt.
  destruct (increment_key_code_cases k Hk) as [Hok H].
  apply (key_lt_code k j Hk Hj) in Hlt.
  pose proof (key_code_range j Hj) as Hr.
  destruct H as [(Hf & Hc & _)|(_ & Hmax & _)]; [|eval_pow2; lia].
  split; [exact Hf|]. split.
  - apply (key_lt_code k _ Hk Hok). lia.
  - destruct (Z.eq_dec (key_code (snd (increment_key k))) (key_code j)) as [E|E].
    + left. apply key_code_inj; assumption.
    + right. apply (key_lt_code _ j Hok Hj). lia.
Qed.

(** Below the last key, the carrying key has its successor as least key
    above it. *)
Lemma increment_key_least_above_witness :
  key_ok Examples.carrying_key /\ key_ok max_key /\
  key_lt Examples.carrying_key max_key /\
  (snd (increment_key Examples.carrying_key) = max_key \/
   key_lt (snd (increment_key Examples.carrying_key)) max_key).
Proof.
  assert (Hk : key_ok Examples.carrying_key).
  { unfold key_ok, name_ok, checksum256_ok, uint_ok. vm_compute.
    repeat split; discriminate. }
  assert (Hm : key_ok max_key).
  { unfold key_ok, name_ok, checksum256_ok, uint_ok. vm_compute.
    repeat split; discriminate. }
  assert (Hlt : key_lt Examples.carrying_key max_key).
  { unfold key_lt. vm_compute. left. reflexivity. }
  split; [exact Hk|]. split; [exact Hm|]. split; [exact Hlt|].
  exact (proj2 (proj2 (increment_key_least_above Examples.carrying_key max_key
                         Hk Hm Hlt))).
Defined.

(** X3.  [increment_key] loses no information: two keys with the same
    successor are the same key. *)
Theorem increment_key_injective (a b : key) :
  key_ok a -> key_ok b ->
  snd (increment_key a) = snd (increment_key b) -> a = b.
Proof.
  intros Ha Hb H.
  destruct (increment_key_code_cases a Ha) as [_ Ca].
  destruct (increment_key_code_cases b Hb) as [_ Cb].
  rewrite H in Ca.
  pose proof (key_code_range a Ha). pose proof (key_code_range b Hb).
  apply key_code_inj; try assumption.
  destruct Ca as [(_ & Ca & _)|(_ & Ma & Ca)];
    destruct Cb as [(_ & Cb & _)|(_ & Mb & Cb)]; eval_pow2; lia.
Qed.

(** Two keys given as equal through their successors. *)
Lemma increment_key_injective_witness :
  key_ok Examples.carrying_key /\ Examples.carrying_key = Examples.carrying_key.
Proof.
  assert (Hk : key_ok Examples.carrying_key).
  { unfold key_ok, name_ok, checksum256_ok, uint_ok. vm_compute.
    repeat split; discriminate. }
  split; [exact Hk|].
  exact (increment_key_injective Examples.carrying_key Examples.carrying_key
           Hk Hk eq_refl).
Defined.
End KeyOrderFacts.

(* ================================================================== *)
(** * Theorems: query results written and visited *)
(* ================================================================== *)

Module ResultsFacts.
Import Wire Rows Results WireFacts.

Section Iteration.
Context {St Row : Type}.
Variable unpack_row : datastream -> option Row.
Variable f : Row -> St -> option (bool * St).

(** The loop over rows that are on the wire, whatever follows them. *)
Lemma for_each_row_encoded (rows : list (list byte)) :
  forall (more : nat) (rest : list byte) (s : St),
    Forall (fun row => Z.of_nat (length row) < 2 ^ 32) rows ->
    for_each_row unpack_row f (length rows + more)
                 (flat_map push_blob rows ++ rest) s =
    match visit_blobs unpack_row f rows s with
    | Some (true, s') => for_each_row unpack_row f more rest s'
    | other => other
    end.
Proof.
  induction rows as [|row rows IH]; intros more rest s Hrows.
  - reflexivity.
  - inversion Hrows as [|? ? Hrow Hrest]; subst.
    cbn [length Nat.add flat_map for_each_row visit_blobs].
    rewrite <- app_assoc, read_blob_push by exact Hrow.
    destruct (unpack_row row) as [r|]; [|reflexivity].
    destruct (f r s) as [[[] s']|]; try reflexivity.
    apply IH. exact Hrest.
Qed.

End Iteration.

(** X4.  Over a serialised result (count, then each row behind its
    length), [for_each_query_result] unpacks the rows in order and hands
    each to [f] until [f] returns [false]; when none does it returns [true]
    after the last row.  Bytes after the last row are ignored. *)
Theorem for_each_query_result_encoded {St Row : Type}
    (unpack_row : datastream -> option Row)
    (f : Row -> St -> option (bool * St))
    (rows : list (list byte)) (trailing : list byte) (s : St) :
  Z.of_nat (length rows) < 2 ^ 32 ->
  Forall (fun row => Z.of_nat (length row) < 2 ^ 32) rows ->
  for_each_query_result unpack_row f (encode_rows rows ++ trailing) s =
  visit_blobs unpack_row f rows s.
Proof.
  intros Hcount Hrows. unfold for_each_query_result, encode_rows.
  rewrite <- app_assoc, read_varuint32_push.
  rewrite WasmQLFacts.to_uint32_small by lia. rewrite Nat2Z.id.
  rewrite <- (Nat.add_0_r (length rows)).
  rewrite for_each_row_encoded by exact Hrows.
  destruct (visit_blobs unpack_row f rows s) as [[[] s']|]; reflexivity.
Qed.

(** X5.  A result that announces more rows than it holds makes the
    iteration abort (the datastream's assertion) once the rows present have
    all been accepted by [f]; it never returns as if it were complete. *)
Theorem for_each_query_result_truncated {St Row : Type}
    (unpack_row : datastream -> option Row)
    (f : Row -> St -> option (bool * St))
    (rows : list (list byte)) (missing : nat) (s s' : St) :
  Z.of_nat (length rows + S missing) < 2 ^ 32 ->
  Forall (fun row => Z.of_nat (length row) < 2 ^ 32) rows ->
  visit_blobs unpack_row f rows s = Some (true, s') ->
  for_each_query_result unpack_row f
    (push_varuint32 (Z.of_nat (length rows + S missing)) ++
     flat_map push_blob rows) s = None.
Proof.
  intros Hcount Hrows Hvisit. unfold for_each_query_result.
  rewrite read_varuint32_push.
  rewrite WasmQLFacts.to_uint32_small by lia. rewrite Nat2Z.id.
  rewrite <- (app_nil_r (flat_map push_blob rows)).
  rewrite for_each_row_encoded by exact Hrows.
  rewrite Hvisit. reflexivity.
Qed.

(** Two one-byte rows, collected by a callback that accepts every row. *)
Lemma for_each_query_result_encoded_witness :
  for_each_query_result Examples.unpack_byte
    (fun r seen => Some (true, seen ++ [fst r])) (encode_rows [[5]; [6]] ++ [9]) [] =
  Some (true, [5; 6]).
Proof.
  rewrite (for_each_query_result_encoded Examples.unpack_byte
             (fun r seen => Some (true, seen ++ [fst r])) [[5]; [6]] [9] []).
  - reflexivity.
  - vm_compute. reflexivity.
  - repeat constructor.
Defined.

(** One row present where two are announced. *)
Lemma for_each_query_result_truncated_witness :
  for_each_query_result Examples.unpack_byte
    (fun r seen => Some (true, seen ++ [fst r]))
    (push_varuint32 2 ++ flat_map push_blob [[5]]) [] = None.
Proof.
  apply (for_each_query_result_truncated Examples.unpack_byte
           (fun r seen => Some (true, seen ++ [fst r])) [[5]] 0 [] [5]).
  - vm_compute. reflexivity.
  - repeat constructor.
  - reflexivity.
Defined.
End ResultsFacts.

(* ================================================================== *)
(** * Theorems: host calls and guest runs *)
(* ================================================================== *)

Module HostFacts.
Import Wire WasmQL WasmQLFacts Framing WireFacts.

(** ** Which errors a computation can throw *)

Lemma raises_only_ret {A} (allowed : error -> bool) (a : A) :
  raises_only allowed (ret a).
Proof. intros st e H. discriminate H. Qed.

Lemma raises_only_get (allowed : error -> bool) : raises_only allowed get.
Proof. intros st e H. discriminate H. Qed.

Lemma raises_only_modify (allowed : error -> bool) (f : state -> state) :
  raises_only allowed (modify f).
Proof. intros st e H. discriminate H. Qed.

Lemma raises_only_throw {A} (allowed : error -> bool) (e : error) :
  allowed e = true -> raises_only allowed (@throw A e).
Proof. intros He st e' H. injection H as <-. exact He. Qed.

Lemma raises_only_bind {A B} (allowed : error -> bool) (m : M A) (k : A -> M B) :
  raises_only allowed m -> (forall a, raises_only allowed (k a)) ->
  raises_only allowed (bind m k).
Proof.
  intros Hm Hk st e. unfold bind.
  specialize (Hm st). destruct (m st) as [[a|e'|] st1]; cbn [fst] in *.
  - apply Hk.
  - intros [= <-]. apply Hm. reflexivity.
  - discriminate.
Qed.

Lemma raises_only_weaken {A} (allowed allowed' : error -> bool) (m : M A) :
  (forall e, allowed e = true -> allowed' e = true) ->
  raises_only allowed m -> raises_only allowed' m.
Proof. intros Hw Hm st e H. apply Hw. exact (Hm st e H). Qed.

Create HintDb raises.

#[local] Hint Resolve raises_only_ret raises_only_get raises_only_modify
  raises_only_bind : raises.

Section Calls.
Variable shared : shared_state.
Variable backend : wasm_module.

Lemma raises_check_bounds (p_begin p_end : Z) :
  raises_only guest_error (check_bounds p_begin p_end).
Proof.
  unfold check_bounds. destruct (p_begin >? p_end); auto with raises.
  apply raises_only_throw. reflexivity.
Qed.

Lemma raises_alloc (cb_alloc_data cb_alloc size : Z) :
  raises_only guest_error (alloc backend cb_alloc_data cb_alloc size).
Proof.
  intros st e. unfold alloc.
  destruct (execute_func_table backend cb_alloc cb_alloc_data size (wa st))
    as [|result wa'].
  - intros [= <-]. reflexivity.
  - destruct result as [[v|v|v|v]|]; try (intros [= <-]; reflexivity).
    unfold bind, check_bounds. destruct (_ >? _); cbn [fst throw ret].
    + intros [= <-]. reflexivity.
    + discriminate.
Qed.

Lemma raises_copy_to (data : Z) (src : list byte) :
  raises_only guest_error (copy_to data src).
Proof. apply raises_only_modify. Qed.

#[local] Hint Resolve raises_check_bounds raises_alloc raises_copy_to : raises.

Lemma raises_eosio_assert_message (test : bool) (msg msg_len : Z) :
  raises_only guest_error (eosio_assert_message test msg msg_len).
Proof.
  unfold eosio_assert_message. destruct (negb test); [|apply raises_only_ret].
  apply raises_only_bind; [auto with raises|]. intros s.
  apply raises_only_throw. reflexivity.
Qed.

Lemma raises_get_database_status (cb_alloc_data cb_alloc : Z) :
  raises_only guest_error (get_database_status backend cb_alloc_data cb_alloc).
Proof. unfold get_database_status. auto 6 with raises. Qed.

Lemma raises_get_input_data (cb_alloc_data cb_alloc : Z) :
  raises_only guest_error (get_input_data backend cb_alloc_data cb_alloc).
Proof. unfold get_input_data. auto 6 with raises. Qed.

Lemma raises_set_output_data (p_begin p_end : Z) :
  raises_only guest_error (set_output_data p_begin p_end).
Proof. unfold set_output_data. auto with raises. Qed.

Lemma raises_query_database (req_begin req_end cb_alloc_data cb_alloc : Z) :
  raises_only guest_error
    (query_database shared backend req_begin req_end cb_alloc_data cb_alloc).
Proof.
  unfold query_database.
  apply raises_only_bind; [auto with raises|]. intros _.
  apply raises_only_bind; [auto with raises|]. intros s.
  destruct (query_session s); [auto 8 with raises|].
  apply raises_only_throw. reflexivity.
Qed.

Lemma raises_print_range (p_begin p_end : Z) :
  raises_only guest_error (print_range shared p_begin p_end).
Proof.
  unfold print_range.
  apply raises_only_bind; [auto with raises|]. intros _.
  destruct (console shared); auto with raises.
Qed.

Lemma raises_call_host_function (c : host_call) :
  raises_only guest_error (call_host_function shared backend c).
Proof.
  intros st. unfold call_host_function. destruct c.
  - apply (@raises_only_throw unit). reflexivity.
  - apply raises_eosio_assert_message.
  - apply raises_get_database_status.
  - apply raises_get_input_data.
  - apply raises_set_output_data.
  - apply raises_query_database.
  - apply raises_print_range.
Qed.

Lemma raises_run_guest (code : guest_code) :
  raises_only guest_error (run_guest shared backend code).
Proof.
  induction code as [| |c k IH]; intros st e; cbn [run_guest].
  - discriminate.
  - intros [= <-]. reflexivity.
  - pose proof (raises_call_host_function c st) as Hc.
    destruct (call_host_function shared backend c st) as [[[]|e'|] st1];
      cbn [fst] in *.
    + apply IH.
    + intros [= <-]. apply Hc. reflexivity.
    + discriminate.
Qed.

End Calls.

(** ** Host calls *)

(** X6.  A guest that passes a range whose end offset lies before its begin
    offset gets [bad_memory] from [set_output_data], [query_database] and
    [print_range] alike, and the call has done nothing: the state is the
    one before the call (no byte read, no session call, nothing printed). *)
Theorem reversed_range_rejected (shared : shared_state) (backend : wasm_module)
    (st : state) (p_begin p_end cb_alloc_data cb_alloc : Z) :
  to_uint32 p_end < to_uint32 p_begin ->
  call_host_function shared backend (call_set_output_data p_begin p_end) st =
    (Throw bad_memory, st) /\
  call_host_function shared backend
    (call_query_database p_begin p_end cb_alloc_data cb_alloc) st =
    (Throw bad_memory, st) /\
  call_host_function shared backend (call_print_range p_begin p_end) st =
    (Throw bad_memory, st).
Proof.
  intros Hlt.
  assert (Hgt : (base_ptr (wa st) + to_uint32 p_begin >?
                 base_ptr (wa st) + to_uint32 p_end) = true).
  { apply Z.gtb_lt. lia. }
  unfold call_host_function, set_output_data, query_database, print_range,
    check_bounds.
  rewrite Hgt. repeat split.
Qed.

(** The writer's state, asked for the range from offset 9 back to 3. *)
Lemma reversed_range_rejected_witness :
  to_uint32 3 < to_uint32 9 /\
  call_host_function Examples.steady_shared Examples.writer
    (call_set_output_data 9 3) Examples.running_state =
  (Throw bad_memory, Examples.running_state).
Proof.
  split; [reflexivity|].
  apply (reversed_range_rejected Examples.steady_shared Examples.writer
           Examples.running_state 9 3 0 0).
  reflexivity.
Defined.

Lemma read_range_length_range (m : Z -> byte) (p_begin p_end : Z) :
  p_begin <= p_end ->
  Z.of_nat (length (read_range m p_begin p_end)) = p_end - p_begin.
Proof. intros H. rewrite read_range_length. lia. Qed.

(** X7.  [set_output_data] on a well-ordered range inside the guest's
    linear memory succeeds, leaves the memory alone and makes the reply
    buffer exactly the [end - begin] bytes of the range; what the buffer
    held before plays no part, so of several such calls only the last one
    counts. *)
Theorem set_output_data_replaces_reply (p_begin p_end : Z) (st : state) :
  p_begin <= p_end -> in_linear_memory (wa st) p_begin p_end ->
  fst (set_output_data p_begin p_end st) = Ok tt /\
  reply (snd (set_output_data p_begin p_end st)) =
    read_range (mem (wa st)) p_begin p_end /\
  Z.of_nat (length (reply (snd (set_output_data p_begin p_end st)))) =
    p_end - p_begin /\
  wa (snd (set_output_data p_begin p_end st)) = wa st /\
  (forall previous : list byte,
      reply (snd (set_output_data p_begin p_end (set_reply st previous))) =
      reply (snd (set_output_data p_begin p_end st))) /\
  (forall q_begin q_end : Z,
      q_begin <= q_end -> in_linear_memory (wa st) q_begin q_end ->
      reply (snd (set_output_data q_begin q_end
                    (snd (set_output_data p_begin p_end st)))) =
      read_range (mem (wa st)) q_begin q_end).
Proof.
  intros Hle _.
  assert (Hrun : forall b e s, b <= e ->
            set_output_data b e s =
            (Ok tt, note_output (read_range (mem (wa s)) b e)
                      (set_reply s (read_range (mem (wa s)) b e)))).
  { intros b e s H. unfold set_output_data, check_bounds.
    destruct (Z.gtb_spec b e); [lia|]. reflexivity. }
  assert (Hnote : forall bytes s,
            reply (note_output bytes s) = reply s /\
            wa (note_output bytes s) = wa s).
  { intros bytes s. unfold note_output.
    destruct (guest_runs s); split; reflexivity. }
  rewrite (Hrun _ _ _ Hle). cbn [fst snd].
  split; [reflexivity|].
  split; [rewrite (proj1 (Hnote _ _)); reflexivity|].
  split; [rewrite (proj1 (Hnote _ _)); apply read_range_length_range; exact Hle|].
  split; [rewrite (proj2 (Hnote _ _)); reflexivity|].
  split.
  - intros previous. rewrite (Hrun _ _ _ Hle). cbn [snd].
    rewrite !(proj1 (Hnote _ _)). reflexivity.
  - intros q_begin q_end Hq _. rewrite (Hrun _ _ _ Hq). cbn [snd].
    rewrite (proj1 (Hnote _ _)). cbn [reply set_reply].
    rewrite (proj2 (Hnote _ _)). reflexivity.
Qed.

(** Three bytes at the start of the running guest's page as its output. *)
Lemma set_output_data_replaces_reply_witness :
  4096 <= 4099 /\
  in_linear_memory (wa Examples.running_state) 4096 4099 /\
  reply (snd (set_output_data 4096 4099 Examples.running_state)) = [80; 81; 82].
Proof.
  assert (H1 : 4096 <= 4099) by discriminate.
  assert (H2 : in_linear_memory (wa Examples.running_state) 4096 4099)
    by (split; discriminate).
  split; [exact H1|]. split; [exact H2|].
  rewrite (proj1 (proj2 (set_output_data_replaces_reply 4096 4099
                           Examples.running_state H1 H2))).
  reflexivity.
Defined.

Lemma c_str_length (bytes : list byte) :
  (length (c_str bytes) <= length bytes)%nat.
Proof.
  induction bytes as [|b rest IH]; cbn [c_str length]; [lia|].
  destruct (b =? 0); cbn [length]; lia.
Qed.

Lemma c_str_no_nul (bytes : list byte) : Forall (fun b => b <> 0) (c_str bytes).
Proof.
  induction bytes as [|b rest IH]; cbn [c_str]; [constructor|].
  destruct (Z.eqb_spec b 0); constructor; assumption.
Qed.

(** X8.  [eosio_assert_message] called by a guest: any non-zero test
    passes and changes nothing; a zero test, with the message inside the
    linear memory, throws an error whose text is the message up to its
    first NUL, at most [msg_len] bytes of it, and leaves the state as it
    was. *)
Theorem eosio_assert_message_surfaces_message (shared : shared_state)
    (backend : wasm_module) (test msg msg_len : Z) (st : state) :
  (to_uint32 test <> 0 ->
   call_host_function shared backend
     (call_eosio_assert_message test msg msg_len) st = (Ok tt, st)) /\
  (to_uint32 test = 0 ->
   in_linear_memory (wa st) (base_ptr (wa st) + to_uint32 msg)
     (base_ptr (wa st) + to_uint32 msg + to_uint32 msg_len) ->
   exists message,
     call_host_function shared backend
       (call_eosio_assert_message test msg msg_len) st =
       (Throw (assert_message message), st) /\
     c_str message =
       c_str (read_range (mem (wa st)) (base_ptr (wa st) + to_uint32 msg)
                (base_ptr (wa st) + to_uint32 msg + to_uint32 msg_len)) /\
     Z.of_nat (length (c_str message)) <= to_uint32 msg_len /\
     Forall (fun b => b <> 0) (c_str message)).
Proof.
  unfold call_host_function, eosio_assert_message. split.
  - intros Hne. destruct (Z.eqb_spec (to_uint32 test) 0); [contradiction|].
    reflexivity.
  - intros -> _. cbn [Z.eqb negb]. eexists. split; [reflexivity|].
    split; [reflexivity|]. split; [|apply c_str_no_nul].
    match goal with
    | |- Z.of_nat (length (c_str ?l)) <= _ =>
        pose proof (c_str_length l) as Hc;
        assert (Hl : Z.of_nat (length l) = to_uint32 msg_len)
    end.
    { rewrite read_range_length.
      pose proof (to_uint32_range msg_len). lia. }
    lia.
Qed.

(** A failed assertion of the running guest whose message holds a NUL: the
    three bytes at offset 170 are 250, 0 and 1, and the text is the 250. *)
Lemma eosio_assert_message_surfaces_message_witness :
  to_uint32 0 = 0 /\
  in_linear_memory (wa Examples.running_state) (4096 + 170) (4096 + 170 + 3) /\
  exists message,
    call_host_function Examples.steady_shared Examples.writer
      (call_eosio_assert_message 0 170 3) Examples.running_state =
      (Throw (assert_message message), Examples.running_state) /\
    c_str message = [250].
Proof.
  assert (H1 : to_uint32 0 = 0) by reflexivity.
  assert (H2 : in_linear_memory (wa Examples.running_state)
                 (4096 + 170) (4096 + 170 + 3)) by (split; discriminate).
  split; [exact H1|]. split; [exact H2|].
  destruct (proj2 (eosio_assert_message_surfaces_message
                     Examples.steady_shared Examples.writer 0 170 3
                     Examples.running_state) H1 H2)
    as (message & Hrun & Htext & _).
  exists message. split; [exact Hrun|].
  rewrite Htext. reflexivity.
Defined.

(** [print_range] on a well-ordered range never fails; it appends the
    bytes of the range to the diagnostic stream when the console flag is
    set, appends nothing when it is not, and changes nothing else. *)
Lemma print_range_cases (shared : shared_state)
    (p_begin p_end : Z) (st : state) :
  p_begin <= p_end ->
  print_range shared p_begin p_end st =
  (Ok tt,
   set_cerr st
     (cerr st ++
      if console shared then read_range (mem (wa st)) p_begin p_end else [])) /\
  (console shared = false -> snd (print_range shared p_begin p_end st) = st).
Proof.
  intros Hle. unfold print_range, check_bounds.
  destruct (Z.gtb_spec p_begin p_end); [lia|].
  cbv beta iota delta [bind ret modify].
  destruct (console shared).
  - split; [reflexivity | discriminate].
  - rewrite app_nil_r. destruct st. split; [reflexivity|reflexivity].
Qed.

(** X9.  Whatever host calls a guest makes, in whatever order, a run that
    returns or throws leaves the open session, the fill status, the input
    cursor, the status blob, the log and the number of sessions as they
    were; the reply buffer is then the last range given to
    [set_output_data], or unchanged when there was none. *)
Theorem guest_run_keeps_driver_state (shared : shared_state)
    (backend : wasm_module) (code : guest_code) (st : state) :
  query_session (snd (run_guest shared backend code st)) = query_session st /\
  fill_status (snd (run_guest shared backend code st)) = fill_status st /\
  request (snd (run_guest shared backend code st)) = request st /\
  database_status (snd (run_guest shared backend code st)) = database_status st /\
  ilog (snd (run_guest shared backend code st)) = ilog st /\
  sessions_created (snd (run_guest shared backend code st)) = sessions_created st /\
  exists outs,
    reply (snd (run_guest shared backend code st)) = last outs (reply st) /\
    forall r older,
      guest_runs st = r :: older ->
      guest_runs (snd (run_guest shared backend code st)) =
      GuestRun (run_session r) (run_name r) (run_outputs r ++ outs) :: older.
Proof.
  destruct (guest_action_run_guest shared backend code st)
    as [_ [outs [e1 e2 e3 e4 e5 e6 e7 e8]]].
  repeat (split; [assumption|]). exists outs. split; assumption.
Qed.

(** ** Errors of a guest run under an open session *)

Lemma bind_throws {A B : Type} (m : M A) (k : A -> M B) (st : state)
    (e : error) :
  fst (bind m k st) = Throw e ->
  fst (m st) = Throw e \/
  exists a st1, m st = (Ok a, st1) /\ fst (k a st1) = Throw e.
Proof.
  unfold bind. destruct (m st) as [[a|e'|] st1]; cbn [fst]; intros H.
  - right. exists a, st1. split; [reflexivity | exact H].
  - left. injection H as ->. reflexivity.
  - discriminate H.
Qed.

Section OpenSession.
Variable shared : shared_state.
Variable backend : wasm_module.

Lemma bridge_check_bounds (p_begin p_end : Z) :
  raises_only bridge_error (check_bounds p_begin p_end).
Proof.
  unfold check_bounds. destruct (p_begin >? p_end);
    [apply raises_only_throw; reflexivity | apply raises_only_ret].
Qed.

Lemma bridge_alloc (cb_alloc_data cb_alloc size : Z) :
  raises_only bridge_error (alloc backend cb_alloc_data cb_alloc size).
Proof.
  intros st e. unfold alloc.
  destruct (execute_func_table backend cb_alloc cb_alloc_data size (wa st))
    as [|result wa'].
  - intros [= <-]. reflexivity.
  - destruct result as [[v|v|v|v]|]; try (intros [= <-]; reflexivity).
    unfold bind, check_bounds. destruct (_ >? _); cbn [fst throw ret].
    + intros [= <-]. reflexivity.
    + discriminate.
Qed.

Lemma bridge_alloc_copy (cb_alloc_data cb_alloc size : Z) (src : list byte) :
  raises_only bridge_error
    (data <- alloc backend cb_alloc_data cb_alloc size ;; copy_to data src).
Proof.
  apply raises_only_bind; [apply bridge_alloc|]. intros data.
  apply raises_only_modify.
Qed.

Lemma bridge_query_database (req_begin req_end cb_alloc_data cb_alloc : Z)
    (st : state) (e : error) :
  query_session st <> None ->
  fst (query_database shared backend req_begin req_end cb_alloc_data cb_alloc st)
    = Throw e ->
  bridge_error e = true.
Proof.
  intros Hopen H. unfold query_database in H.
  apply bind_throws in H as [H|([] & st1 & Hm & H)].
  { apply (bridge_check_bounds _ _ st e H). }
  assert (Est : st1 = st).
  { unfold check_bounds in Hm. destruct (_ >? _); inversion Hm. reflexivity. }
  subst st1.
  apply bind_throws in H as [H|(s & st1 & Hm2 & H)]; [discriminate H|].
  injection Hm2 as <- <-.
  destruct (query_session st) as [session|]; [|contradiction Hopen; reflexivity].
  revert H.
  apply (raises_only_bind bridge_error (modify _) _);
    [apply raises_only_modify|]. intros _. apply bridge_alloc_copy.
Qed.

Lemma bridge_call_host_function (c : host_call) (st : state) (e : error) :
  query_session st <> None ->
  fst (call_host_function shared backend c st) = Throw e ->
  bridge_error e = true.
Proof.
  intros Hopen. unfold call_host_function.
  destruct c as [|test msg msg_len|d a|d a|b e'|b e' d a|b e']; cbv zeta.
  - intros [= <-]. reflexivity.
  - unfold eosio_assert_message. destruct (negb _); [|discriminate].
    intros [= <-]. reflexivity.
  - unfold get_database_status.
    apply (raises_only_bind bridge_error get _); [apply raises_only_get|].
    intros s. apply bridge_alloc_copy.
  - unfold get_input_data.
    apply (raises_only_bind bridge_error get _); [apply raises_only_get|].
    intros s. apply bridge_alloc_copy.
  - unfold set_output_data.
    apply (raises_only_bind bridge_error (check_bounds _ _) _);
      [apply bridge_check_bounds|]. intros _. apply raises_only_modify.
  - apply bridge_query_database. exact Hopen.
  - unfold print_range.
    apply (raises_only_bind bridge_error (check_bounds _ _) _);
      [apply bridge_check_bounds|]. intros _.
    destruct (console shared); [apply raises_only_modify | apply raises_only_ret].
Qed.

Lemma bridge_run_guest (code : guest_code) :
  forall (st : state) (e : error),
    query_session st <> None ->
    fst (run_guest shared backend code st) = Throw e ->
    bridge_error e = true.
Proof.
  induction code as [| |c k IH]; intros st e Hopen; cbn [run_guest].
  - discriminate.
  - intros [= <-]. reflexivity.
  - pose proof (bridge_call_host_function c st) as Hc.
    destruct (guest_action_call_host_function shared backend c st)
      as [_ [outs Heff]].
    destruct (call_host_function shared backend c st) as [[[]|e'|] st1];
      cbn [fst snd] in *.
    + apply IH. rewrite (effect_session _ _ _ Heff). exact Hopen.
    + intros [= <-]. apply Hc; [exact Hopen | reflexivity].
    + discriminate.
Qed.

End OpenSession.

(** X10.  A guest run under an open session, as every run under
    [retry_loop] is, can only end in an error of the host-call bridge
    ([bad_memory], [bad_callback_return]), in the guest's own abort or
    assertion, or in a trap: never in [empty_database], [too_many_forks], a
    stream error, an unknown namespace or a module error.  (The store is
    taken to answer every call.) *)
Theorem guest_run_errors (shared : shared_state) (backend : wasm_module)
    (code : guest_code) (st : state) (e : error) :
  query_session st <> None ->
  fst (run_guest shared backend code st) = Throw e ->
  bridge_error e = true /\
  e <> null_session /\ e <> empty_database /\ e <> too_many_forks /\
  e <> stream_error /\ e <> module_error /\
  (forall ns, e <> unknown_namespace ns).
Proof.
  intros Hopen H.
  pose proof (bridge_run_guest shared backend code st e Hopen H) as He.
  split; [exact He|].
  split; [intros ->; discriminate He|].
  split; [intros ->; discriminate He|].
  split; [intros ->; discriminate He|].
  split; [intros ->; discriminate He|].
  split; [intros ->; discriminate He|].
  intros ns ->. discriminate He.
Qed.

(** A guest that asks the store and then calls [abort]. *)
Lemma guest_run_errors_witness :
  query_session Examples.running_state <> None /\
  fst (run_guest Examples.steady_shared Examples.writer
         (guest_calls (call_query_database 0 0 0 0)
            (fun _ => guest_calls call_abort (fun _ => guest_returns)))
         Examples.running_state) = Throw called_abort /\
  bridge_error called_abort = true.
Proof.
  assert (H1 : query_session Examples.running_state <> None) by discriminate.
  assert (H2 : fst (run_guest Examples.steady_shared Examples.writer
                      (guest_calls (call_query_database 0 0 0 0)
                         (fun _ => guest_calls call_abort (fun _ => guest_returns)))
                      Examples.running_state) = Throw called_abort)
    by (vm_compute; reflexivity).
  split; [exact H1|]. split; [exact H2|].
  exact (proj1 (guest_run_errors Examples.steady_shared Examples.writer _
                  Examples.running_state called_abort H1 H2)).
Defined.

(** X11.  The status blob that [fill_context_data] builds and
    [get_database_status] delivers has the member order of the guest's
    [database_status]: read back from the memory the callback allocated, its
    76 bytes give the session's fill status. *)
Theorem database_status_round_trip (backend : wasm_module) (st : state)
    (cb_alloc_data cb_alloc v : Z) (wa' : wasm_allocator) :
  0 <= head (fill_status st) < 2 ^ 32 ->
  0 <= irreversible (fill_status st) < 2 ^ 32 ->
  0 <= first (fill_status st) < 2 ^ 32 ->
  length (head_id (fill_status st)) = 32%nat ->
  length (irreversible_id (fill_status st)) = 32%nat ->
  execute_func_table backend cb_alloc cb_alloc_data 76 (wa st) =
    callback_returns (Some (i32_const v)) wa' ->
  exists st',
    get_database_status backend cb_alloc_data cb_alloc
      (snd (fill_context_data st)) = (Ok tt, st') /\
    Results.unpack_database_status
      (read_range (mem (wa st')) (base_ptr wa' + to_uint32 v)
                  (base_ptr wa' + to_uint32 v + 76)) =
    Some (Results.DatabaseStatus
            (head (fill_status st)) (head_id (fill_status st))
            (irreversible (fill_status st)) (irreversible_id (fill_status st))
            (first (fill_status st))).
Proof.
  intros Hhead Hirr Hfirst Hid Hiid Hcb.
  set (st1 := snd (fill_context_data st)).
  set (blob := database_status st1).
  assert (Hlen : Z.of_nat (length blob) = 76).
  { unfold blob, st1. cbn [fill_context_data modify snd database_status
                           set_database_status].
    rewrite !length_app, !native_to_bin_uint_length, Hid, Hiid. reflexivity. }
  pose proof (alloc_then_copy_delivers backend cb_alloc_data cb_alloc blob st1)
    as Hdel.
  unfold delivers in Hdel. cbv zeta in Hdel. rewrite Hlen in Hdel.
  change (wa st1) with (wa st) in Hdel. rewrite Hcb in Hdel.
  destruct Hdel as (st' & Hrun & _ & _ & _ & Hread & _); [lia|].
  exists st'. split.
  { change (get_database_status backend cb_alloc_data cb_alloc st1)
      with ((data <- alloc backend cb_alloc_data cb_alloc
                           (to_uint32 (Z.of_nat (length blob))) ;;
             copy_to data blob) st1).
    rewrite Hlen. exact Hrun. }
  rewrite Hread. unfold blob, st1.
  cbn [fill_context_data modify snd database_status set_database_status].
  unfold Results.unpack_database_status.
  rewrite (read_uint_native_to_bin 4) by (simpl; lia).
  rewrite <- Hid at 1. rewrite take_bytes_app.
  rewrite (read_uint_native_to_bin 4) by (simpl; lia).
  rewrite <- Hiid at 1. rewrite take_bytes_app.
  rewrite <- (app_nil_r (native_to_bin_uint 4 (first (fill_status st)))).
  rewrite (read_uint_native_to_bin 4) by (simpl; lia).
  reflexivity.
Qed.

(** The status of the steady store, fetched by the writer module. *)
Lemma database_status_round_trip_witness :
  exists st',
    get_database_status Examples.writer 0 0
      (snd (fill_context_data Examples.running_state)) = (Ok tt, st') /\
    Results.unpack_database_status
      (read_range (mem (wa st')) (4096 + 16) (4096 + 16 + 76)) =
    Some (Results.DatabaseStatus 1 Examples.id_a 1 Examples.id_a 1).
Proof.
  refine (database_status_round_trip Examples.writer Examples.running_state
            0 0 16 (wa Examples.running_state) _ _ _ _ _ _);
    try reflexivity; vm_compute; split; try discriminate; reflexivity.
Defined.
End HostFacts.

(* ================================================================== *)
(** * Theorems: the retry loop, framed requests and legacy requests *)
(* ================================================================== *)

Module DriverFacts.
Import Wire WasmQL WasmQLFacts Framing WireFacts HostFacts.

(** ** The retry loop for any lambda *)

Lemma forks_detected_retry_logged (st : state) :
  forks_detected
    (reset_session (set_ilog st (ilog st ++ [log_retry_request]))) =
  forks_detected st.
Proof.
  unfold forks_detected. state_simpl. rewrite filter_app, length_app.
  simpl. lia.
Qed.

(** How [retry_loop] ends, for a lambda that meets [attempt_spec]: after
    [attempts] sessions of which [forks] ended in a fork; a result comes
    from one call of the lambda under the session created last; an error
    is [too_many_forks] after the last allowed fork, [empty_database] for a
    session with head 0, or the error of the one attempt that threw. *)
Lemma retry_loop_outcome {Captured : Type} (shared : shared_state)
    (f : Captured -> M (bool * Captured)) (Hf : attempt_spec f) (fuel : nat) :
  forall (num_tries : Z) (c : Captured) (st : state),
    0 <= num_tries < 4 -> (Z.to_nat (4 - num_tries) <= fuel)%nat ->
    exists attempts forks : nat,
      (1 <= attempts)%nat /\ Z.of_nat attempts <= 4 - num_tries /\
      (forks <= attempts)%nat /\
      sessions_created (snd (retry_loop_from shared fuel num_tries f c st)) =
        (sessions_created st + attempts)%nat /\
      forks_detected (snd (retry_loop_from shared fuel num_tries f c st)) =
        (forks_detected st + forks)%nat /\
      match fst (retry_loop_from shared fuel num_tries f c st) with
      | Ok c' =>
          attempts = S forks /\
          exists c0 st0 st1,
            S (sessions_created st0) = (sessions_created st + attempts)%nat /\
            f c0 (snd (fill_context_data (open_session shared st0))) =
              (Ok (true, c'), st1) /\
            snd (retry_loop_from shared fuel num_tries f c st) =
              reset_session st1
      | Throw e =>
          (e = too_many_forks /\ Z.of_nat forks = 4 - num_tries /\
           attempts = forks) \/
          (e = empty_database /\ attempts = S forks /\
           head (get_fill_status (db_iface shared)
                   (sessions_created st + forks)) = 0) \/
          (attempt_error e = true /\ attempts = S forks)
      | out_of_fuel => False
      end.
Proof.
  induction fuel as [|fuel IH]; intros num_tries c st Hn Hfuel; [lia|].
  rewrite retry_loop_step. cbv zeta.
  destruct (Z.eqb_spec (head (fill_status (open_session shared st))) 0) as [Hz|Hz].
  { exists 1%nat, 0%nat. state_simpl.
    split; [lia|]. split; [lia|]. split; [lia|]. split; [lia|].
    split; [unfold forks_detected; state_simpl; lia|].
    right. left. split; [reflexivity|]. split; [reflexivity|].
    rewrite Nat.add_0_r. exact Hz. }
  set (st2 := snd (fill_context_data (open_session shared st))).
  pose proof (attempt_total f Hf c st2) as Ht.
  pose proof (attempt_sessions f Hf c st2) as Hs.
  pose proof (attempt_forks f Hf c st2) as Hk.
  pose proof (attempt_errors f Hf c st2) as He.
  change (sessions_created st2) with (S (sessions_created st)) in Hs.
  change (forks_detected st2) with (forks_detected st) in Hk.
  destruct (f c st2) as [[[[] c']|e|] st3] eqn:Ef; cbn [fst snd] in *.
  - exists 1%nat, 0%nat. state_simpl.
    split; [lia|]. split; [lia|]. split; [lia|]. split; [lia|].
    split; [unfold forks_detected in *; state_simpl; lia|].
    split; [reflexivity|]. exists c, st, st3.
    split; [lia|]. split; [exact Ef | reflexivity].
  - destruct (Z.geb_spec (num_tries + 1) 4) as [Hlast|Hmore].
    + exists 1%nat, 1%nat. state_simpl.
      split; [lia|]. split; [lia|]. split; [lia|]. split; [lia|].
      split; [unfold forks_detected in *; state_simpl; lia|].
      left. split; [reflexivity|]. split; [lia | reflexivity].
    + set (st4 := reset_session (set_ilog st3 (ilog st3 ++ [log_retry_request]))).
      destruct (IH (num_tries + 1) c' st4) as (a & k & I1 & I2 & I3 & I4 & I5 & I6);
        [lia | lia |].
      change (sessions_created st4) with (sessions_created st3) in *.
      assert (Hk4 : forks_detected st4 = forks_detected st3)
        by apply forks_detected_retry_logged.
      exists (S a), (S k).
      split; [lia|]. split; [lia|]. split; [lia|]. split; [lia|].
      split; [lia|].
      destruct (fst (retry_loop_from shared fuel (num_tries + 1) f c' st4))
        as [c''|e|].
      * destruct I6 as (-> & c0 & st0 & st1 & J1 & J2 & J3).
        split; [reflexivity|]. exists c0, st0, st1.
        split; [lia|]. split; assumption.
      * destruct I6 as [(-> & J1 & J2)|[(-> & J1 & J2)|(J1 & J2)]].
        -- left. split; [reflexivity|]. split; lia.
        -- right. left. split; [reflexivity|]. split; [lia|].
           rewrite Hs in J2.
           replace (sessions_created st + S k)%nat
             with (S (sessions_created st) + k)%nat by lia.
           exact J2.
        -- right. right. split; [assumption | lia].
      * contradiction.
  - exists 1%nat, 0%nat. state_simpl.
    split; [lia|]. split; [lia|]. split; [lia|]. split; [lia|].
    split; [unfold forks_detected in *; state_simpl; lia|].
    right. right. split; [|reflexivity]. apply (He e). reflexivity.
  - congruence.
Qed.

(** Whatever the lambda, an iteration of the loop ends with the session
    released. *)
Lemma retry_loop_releases {Captured : Type} (shared : shared_state)
    (f : Captured -> M (bool * Captured)) (fuel : nat) :
  forall (num_tries : Z) (c : Captured) (st : state),
    query_session (snd (retry_loop_from shared (S fuel) num_tries f c st)) = None.
Proof.
  induction fuel as [|fuel IH]; intros num_tries c st;
    rewrite retry_loop_step; cbv zeta;
    (destruct (head (fill_status (open_session shared st)) =? 0);
     [reflexivity|]);
    (destruct (f c _) as [[[[] c']|e|] st3]; try reflexivity);
    (destruct (num_tries + 1 >=? 4); [reflexivity|]).
  - reflexivity.
  - apply IH.
Qed.

(** ** The two lambdas *)

Section Lambdas.
Variable shared : shared_state.

Lemma attempt_error_of_guest (e : error) :
  guest_error e = true -> attempt_error e = true.
Proof. intros H. unfold attempt_error. rewrite H. reflexivity. Qed.

Lemma raises_run_query (short_name : Z) :
  raises_only attempt_error (run_query shared short_name).
Proof.
  unfold run_query. destruct (wasm_files shared short_name) as [backend|].
  - apply raises_only_bind; [apply raises_only_modify|]. intros _.
    apply raises_only_bind; [apply raises_only_get|]. intros s1.
    apply raises_only_bind.
    + apply (raises_only_weaken guest_error); [apply attempt_error_of_guest|].
      apply raises_run_guest.
    + intros _. apply raises_only_bind; [apply raises_only_get|]. intros s2.
      apply (raises_only_weaken guest_error); [apply attempt_error_of_guest|].
      apply raises_run_guest.
  - apply raises_only_throw. reflexivity.
Qed.

Lemma raises_did_fork : raises_only attempt_error (did_fork shared).
Proof.
  intros st e. rewrite did_fork_cases.
  destruct (query_session st); [|intros [= <-]; reflexivity].
  cbv zeta. destruct (get_block_id _ _ _ _); [|discriminate].
  destruct (checksum256_eqb _ _); discriminate.
Qed.

Lemma raises_read_request_name : raises_only attempt_error read_request_name.
Proof.
  unfold read_request_name.
  apply raises_only_bind; [apply raises_only_get|]. intros s.
  destruct (read_uint 8 (request s)) as [[v rest]|].
  - apply raises_only_bind; [apply raises_only_modify|]. intros _.
    apply raises_only_ret.
  - apply raises_only_throw. reflexivity.
Qed.

Lemma raises_query_requests (n : nat) :
  forall request_bin result,
    raises_only attempt_error (query_requests shared n request_bin result).
Proof.
  induction n as [|n IH]; intros request_bin result; cbn [query_requests].
  - apply raises_only_ret.
  - destruct (read_blob request_bin) as [[sub_request request_bin']|].
    2:{ apply raises_only_throw. reflexivity. }
    apply raises_only_bind; [apply raises_only_modify|]. intros _.
    apply raises_only_bind; [apply raises_read_request_name|]. intros ns_name.
    destruct (negb (ns_name =? local_n)).
    { apply raises_only_throw. reflexivity. }
    apply raises_only_bind; [apply raises_read_request_name|]. intros short_name.
    apply raises_only_bind; [apply raises_run_query|]. intros _.
    apply raises_only_bind; [apply raises_did_fork|]. intros forked.
    destruct forked; [apply raises_only_ret|].
    apply raises_only_bind; [apply raises_only_get|]. intros s. apply IH.
Qed.

Lemma attempt_error_of_run (e : error) :
  run_error e = true -> attempt_error e = true.
Proof. destruct e; intros H; try reflexivity; discriminate H. Qed.

Lemma raises_run_query_run (short_name : Z) :
  raises_only run_error (run_query shared short_name).
Proof.
  assert (Hg : forall e, guest_error e = true -> run_error e = true).
  { intros e H. unfold run_error. rewrite H. reflexivity. }
  unfold run_query. destruct (wasm_files shared short_name) as [backend|].
  - apply raises_only_bind; [apply raises_only_modify|]. intros _.
    apply raises_only_bind; [apply raises_only_get|]. intros s1.
    apply raises_only_bind.
    + apply (raises_only_weaken guest_error); [exact Hg|].
      apply raises_run_guest.
    + intros _. apply raises_only_bind; [apply raises_only_get|]. intros s2.
      apply (raises_only_weaken guest_error); [exact Hg|].
      apply raises_run_guest.
  - apply raises_only_throw. reflexivity.
Qed.

Lemma raises_did_fork_run : raises_only run_error (did_fork shared).
Proof.
  intros st e. rewrite did_fork_cases.
  destruct (query_session st); [|intros [= <-]; reflexivity].
  cbv zeta. destruct (get_block_id _ _ _ _); [|discriminate].
  destruct (checksum256_eqb _ _); discriminate.
Qed.

Lemma did_fork_keeps (st : state) :
  guest_runs (snd (did_fork shared st)) = guest_runs st /\
  reply (snd (did_fork shared st)) = reply st /\
  request (snd (did_fork shared st)) = request st /\
  sessions_created (snd (did_fork shared st)) = sessions_created st /\
  query_session (snd (did_fork shared st)) = query_session st.
Proof.
  rewrite did_fork_cases.
  destruct (query_session st) eqn:E; [|repeat split; assumption].
  cbv zeta. destruct (get_block_id _ _ _ _);
    [destruct (checksum256_eqb _ _)|]; repeat split; assumption.
Qed.

Lemma run_query_keeps_request (short_name : Z) (st : state) :
  request (snd (run_query shared short_name st)) = request st.
Proof.
  unfold run_query.
  destruct (wasm_files shared short_name) as [backend|]; [|reflexivity].
  match goal with
  | |- context [bind (modify ?f) ?k] =>
      change (bind (modify f) k st) with (k tt (f st));
      set (st0 := f st); set (m := k tt)
  end.
  assert (Hm : guest_action m).
  { subst m. cbv beta.
    apply guest_action_bind; [apply guest_action_get|]. intros s1.
    apply guest_action_bind; [apply guest_action_run_guest|]. intros _.
    apply guest_action_bind; [apply guest_action_get|]. intros s2.
    apply guest_action_run_guest. }
  destruct (Hm st0) as [_ [outs E]].
  rewrite (effect_request _ _ _ E). reflexivity.
Qed.

(** ** Framed requests *)

Lemma local_n_range : 0 <= local_n < 2 ^ 64.
Proof. vm_compute. split; [discriminate | reflexivity]. Qed.

(** One framed sub-request at the head of the request: the module it names
    runs with exactly its payload as input; another namespace is refused
    before any module is looked up. *)
Lemma query_requests_framed_step (n : nat) (ns short_name : Z)
    (payload tail result : list byte) (st : state) :
  0 <= ns < 2 ^ 64 -> sub_request_ok (short_name, payload) ->
  query_requests shared (S n)
    (encode_sub_request ns short_name payload ++ tail) result st =
  if negb (ns =? local_n) then
    (Throw (unknown_namespace ns),
     set_request st (native_to_bin_uint 8 short_name ++ payload))
  else
    match run_query shared short_name (set_request st payload) with
    | (Ok _, st3) =>
        match did_fork shared st3 with
        | (Ok true, st4) => (Ok (false, result), st4)
        | (Ok false, st4) =>
            query_requests shared n tail (result ++ push_blob (reply st4)) st4
        | (Throw e, st4) => (Throw e, st4)
        | (out_of_fuel, st4) => (out_of_fuel, st4)
        end
    | (Throw e, st3) => (Throw e, st3)
    | (out_of_fuel, st3) => (out_of_fuel, st3)
    end.
Proof.
  intros Hns [Hname Hlen]. cbn [fst snd] in Hname, Hlen.
  rewrite query_requests_step. unfold encode_sub_request.
  rewrite read_blob_push.
  2:{ rewrite !length_app, !native_to_bin_uint_length. lia. }
  rewrite read_uint_native_to_bin by exact Hns.
  cbv zeta. destruct (negb (ns =? local_n)); [reflexivity|].
  rewrite read_uint_native_to_bin by exact Hname.
  reflexivity.
Qed.

(** A framed request, sub-request by sub-request: the modules run are the
    ones named, in order; the attempt cannot fail in the framing. *)
Lemma query_requests_framed (subs : list (Z * list byte)) :
  Forall sub_request_ok subs ->
  forall (tail result : list byte) (st : state),
    match
      fst (query_requests shared (length subs)
             (flat_map (fun sub => encode_sub_request local_n (fst sub) (snd sub))
                       subs ++ tail) result st)
    with
    | Ok (true, _) =>
        exists runs,
          guest_runs
            (snd (query_requests shared (length subs)
                    (flat_map (fun sub =>
                                 encode_sub_request local_n (fst sub) (snd sub))
                              subs ++ tail) result st)) =
            rev runs ++ guest_runs st /\
          map run_name runs = map fst subs
    | Ok (false, _) => True
    | Throw e => run_error e = true
    | out_of_fuel => False
    end.
Proof.
  induction 1 as [|[short_name payload] subs Hsub Hall IH];
    intros tail result st.
  - cbn. exists []. split; reflexivity.
  - cbn [length flat_map fst snd]. rewrite <- app_assoc.
    rewrite query_requests_framed_step by (exact local_n_range || exact Hsub).
    rewrite Z.eqb_refl. cbn [negb].
    set (st2 := set_request st payload).
    pose proof (run_query_effect shared short_name st2) as (Hf & _ & _ & _ & _ & Hr).
    pose proof (raises_run_query_run short_name st2) as He.
    destruct (run_query shared short_name st2) as [[[]|e|] st3] eqn:Erun;
      cbn [fst snd] in *; [|apply He; reflexivity|congruence].
    destruct Hr as [[_ Hr]|(outs & Hruns & _)]; [discriminate|].
    pose proof (did_fork_keeps st3) as (Hd & _).
    pose proof (raises_did_fork_run st3) as Hde.
    pose proof (did_fork_cases shared st3) as Hc.
    destruct (did_fork shared st3) as [[[]|e|] st4] eqn:Efork;
      cbn [fst snd] in *; [exact I| |apply Hde; reflexivity|].
    + specialize (IH tail (result ++ push_blob (reply st4)) st4).
      destruct (query_requests shared (length subs) _ _ st4) as [[[[] r]|e|] st5];
        cbn [fst snd] in *; try exact IH.
      destruct IH as (runs & H1 & H2).
      exists (GuestRun (query_session st2) short_name outs :: runs).
      split.
      * rewrite H1, Hd, Hruns. cbn [rev]. rewrite <- app_assoc. reflexivity.
      * cbn [map run_name]. rewrite H2. reflexivity.
    + destruct (query_session st3); [|discriminate Hc].
      cbv zeta in Hc. destruct (get_block_id _ _ _ _);
        [destruct (checksum256_eqb _ _)|]; discriminate Hc.
Qed.

Lemma query_attempt_spec (request : list byte) :
  attempt_spec (query_attempt shared request).
Proof.
  constructor.
  - intros c st. apply (query_attempt_effect shared request c st).
  - intros c st. apply (query_attempt_effect shared request c st).
  - intros c st.
    destruct (query_attempt_effect shared request c st) as (_ & _ & _ & H).
    destruct (fst (query_attempt shared request c st)) as [[[] result]|e|].
    + destruct H as [H _]. unfold forks_detected. rewrite H. lia.
    + destruct H as (line & Hline & H).
      rewrite (forks_detected_ilog st _ [line] H). simpl. rewrite Hline.
      reflexivity.
    + unfold forks_detected. rewrite H. lia.
    + unfold forks_detected. rewrite H. lia.
  - intros c. unfold query_attempt.
    destruct (read_varuint32 request) as [[n rest]|].
    + apply raises_query_requests.
    + apply raises_only_throw. reflexivity.
Qed.

(** One attempt of [legacy_query], case by case. *)
Lemma legacy_attempt_cases (st : state) :
  match run_query shared legacy_n st with
  | (Ok _, st1) =>
      legacy_attempt shared tt st =
      match did_fork shared st1 with
      | (Ok forked, st2) => (Ok (negb forked, tt), st2)
      | (Throw e, st2) => (Throw e, st2)
      | (out_of_fuel, st2) => (out_of_fuel, st2)
      end
  | (Throw e, st1) => legacy_attempt shared tt st = (Throw e, st1)
  | (out_of_fuel, st1) => legacy_attempt shared tt st = (out_of_fuel, st1)
  end.
Proof.
  unfold legacy_attempt. cbv beta delta [bind ret].
  destruct (run_query shared legacy_n st) as [[[]|e|] st1]; try reflexivity;
    try (destruct (did_fork shared st1) as [[forked|e|] st2]; reflexivity).
Qed.

Lemma legacy_attempt_spec : attempt_spec (legacy_attempt shared).
Proof.
  constructor.
  - intros [] st. pose proof (legacy_attempt_cases st) as H.
    pose proof (run_query_effect shared legacy_n st) as (Hf & _).
    destruct (run_query shared legacy_n st) as [[[]|e|] st1];
      cbn [fst] in Hf; rewrite H; try discriminate; try congruence.
    rewrite did_fork_cases.
    destruct (query_session st1); [|discriminate]. cbv zeta.
    destruct (get_block_id _ _ _ _); [|discriminate].
    destruct (checksum256_eqb _ _); discriminate.
  - intros [] st. pose proof (legacy_attempt_cases st) as H.
    pose proof (run_query_effect shared legacy_n st) as (_ & _ & _ & _ & Hc & _).
    destruct (run_query shared legacy_n st) as [[[]|e|] st1];
      cbn [snd] in Hc; rewrite H; try exact Hc.
    rewrite did_fork_cases.
    destruct (query_session st1); [|exact Hc]. cbv zeta.
    destruct (get_block_id _ _ _ _); [|exact Hc].
    destruct (checksum256_eqb _ _); exact Hc.
  - intros [] st. pose proof (legacy_attempt_cases st) as H.
    pose proof (run_query_effect shared legacy_n st) as (_ & _ & _ & Hl & _).
    assert (Hk : forall st1, ilog st1 = ilog st ->
              forks_detected st1 = forks_detected st).
    { intros st1 E. unfold forks_detected. rewrite E. reflexivity. }
    destruct (run_query shared legacy_n st) as [[[]|e|] st1];
      cbn [snd] in Hl; rewrite H; cbn [fst snd];
      try (rewrite (Hk _ Hl); lia).
    rewrite did_fork_cases.
    destruct (query_session st1); [|cbn [fst snd]; rewrite (Hk _ Hl); lia].
    cbv zeta.
    destruct (get_block_id _ _ _ _);
      [destruct (checksum256_eqb _ _)|]; cbn [fst snd negb];
      unfold forks_detected; state_simpl; rewrite ?Hl, ?filter_app, ?length_app;
      simpl; lia.
  - intros [] st e. pose proof (legacy_attempt_cases st) as H.
    pose proof (raises_run_query legacy_n st) as Hr.
    destruct (run_query shared legacy_n st) as [[[]|e'|] st1];
      cbn [fst] in Hr; rewrite H.
    + pose proof (raises_did_fork st1) as Hd.
      destruct (did_fork shared st1) as [[forked|e'|] st2]; cbn [fst] in *.
      * discriminate.
      * intros [= <-]. apply Hd. reflexivity.
      * discriminate.
    + intros [= <-]. apply Hr. reflexivity.
    + discriminate.
Qed.

Lemma legacy_attempt_keeps_request (c : unit) (st : state) :
  request (snd (legacy_attempt shared c st)) = request st.
Proof.
  destruct c. pose proof (legacy_attempt_cases st) as H.
  pose proof (run_query_keeps_request legacy_n st) as Hr.
  destruct (run_query shared legacy_n st) as [[[]|e|] st1];
    cbn [snd] in Hr; rewrite H; try exact Hr.
  pose proof (did_fork_keeps st1) as (_ & _ & Hd & _).
  destruct (did_fork shared st1) as [[forked|e|] st2]; cbn [snd] in *;
    congruence.
Qed.

(** [legacy_query] around its loop. *)
Lemma legacy_query_cases (target request : list byte) (st : state) :
  legacy_query shared target request st =
  match
    retry_loop shared (legacy_attempt shared) tt
      (set_request st (push_blob target ++ push_blob request))
  with
  | (Ok _, st') => (Ok (reply st'), st')
  | (Throw e, st') => (Throw e, st')
  | (out_of_fuel, st') => (out_of_fuel, st')
  end.
Proof.
  unfold legacy_query.
  change (fun _ : unit =>
            run_query shared legacy_n;;;
            (forked <- did_fork shared;; ret (negb forked, tt)))
    with (legacy_attempt shared).
  cbv beta iota zeta delta [bind modify get ret].
  destruct (retry_loop shared (legacy_attempt shared) tt _) as [[[]|e|] st'];
    reflexivity.
Qed.

End Lambdas.

(** ** What a request can do to the reply buffer and the diagnostic stream *)

Lemma keeps_ret {A : Type} (P : list byte -> list byte -> Prop) (a : A) :
  keeps P (ret a).
Proof. intros st H. exact H. Qed.

Lemma keeps_get (P : list byte -> list byte -> Prop) : keeps P get.
Proof. intros st H. exact H. Qed.

Lemma keeps_throw {A : Type} (P : list byte -> list byte -> Prop) (e : error) :
  keeps P (@throw A e).
Proof. intros st H. exact H. Qed.

Lemma keeps_modify (P : list byte -> list byte -> Prop) (f : state -> state) :
  (forall st, reply (f st) = reply st) -> (forall st, cerr (f st) = cerr st) ->
  keeps P (modify f).
Proof.
  intros Hr Hc st H. cbn [modify snd]. rewrite Hr, Hc. exact H.
Qed.

Lemma keeps_bind {A B : Type} (P : list byte -> list byte -> Prop)
    (m : M A) (k : A -> M B) :
  keeps P m -> (forall a, keeps P (k a)) -> keeps P (bind m k).
Proof.
  intros Hm Hk st H. unfold bind. specialize (Hm st H).
  destruct (m st) as [[a|e|] st1]; cbn [snd] in *; try exact Hm.
  apply Hk. exact Hm.
Qed.

Create HintDb keeps.
#[local] Hint Resolve keeps_ret keeps_get keeps_throw : keeps.

(** A property that survives the two writes this code makes: the reply
    buffer replaced by a blob a 32-bit length can count, and bytes appended
    to the diagnostic stream while the console is on.  With [quiet] set,
    the guests are taken never to call [print_range], and the property
    need not survive the second write. *)
Section Observed.
Variable shared : shared_state.
Variable P : list byte -> list byte -> Prop.
Variable quiet : bool.
Hypothesis P_output : forall r c b, blob_short b -> P r c -> P b c.
Hypothesis P_print :
  quiet = false ->
  forall r c bytes, console shared = true -> P r c -> P r (c ++ bytes).

Section ObservedCalls.
Variable backend : wasm_module.

Lemma keeps_check_bounds (p_begin p_end : Z) :
  keeps P (check_bounds p_begin p_end).
Proof. unfold check_bounds. destruct (p_begin >? p_end); auto with keeps. Qed.

Lemma keeps_alloc (cb_alloc_data cb_alloc size : Z) :
  keeps P (alloc backend cb_alloc_data cb_alloc size).
Proof.
  intros st H. unfold alloc.
  destruct (execute_func_table backend cb_alloc cb_alloc_data size (wa st))
    as [|result wa']; [exact H|].
  destruct result as [[v|v|v|v]|]; try exact H.
  cbv zeta.
  apply (keeps_bind P (check_bounds _ _) (fun _ => ret _));
    [apply keeps_check_bounds | auto with keeps | exact H].
Qed.

Lemma keeps_copy_to (data : Z) (src : list byte) : keeps P (copy_to data src).
Proof. apply keeps_modify; reflexivity. Qed.

Lemma keeps_eosio_assert_message (test : bool) (msg msg_len : Z) :
  keeps P (eosio_assert_message test msg msg_len).
Proof.
  unfold eosio_assert_message. destruct (negb test); [|auto with keeps].
  apply keeps_bind; auto with keeps.
Qed.

Lemma keeps_get_database_status (cb_alloc_data cb_alloc : Z) :
  keeps P (get_database_status backend cb_alloc_data cb_alloc).
Proof.
  unfold get_database_status.
  apply keeps_bind; auto with keeps. intros s.
  apply keeps_bind; [apply keeps_alloc|]. intros data.
  apply keeps_copy_to.
Qed.

Lemma keeps_get_input_data (cb_alloc_data cb_alloc : Z) :
  keeps P (get_input_data backend cb_alloc_data cb_alloc).
Proof.
  unfold get_input_data.
  apply keeps_bind; auto with keeps. intros s.
  apply keeps_bind; [apply keeps_alloc|]. intros data.
  apply keeps_copy_to.
Qed.

(** The one host function that writes the reply buffer: what it leaves is
    as long as the range. *)
Lemma keeps_set_output_data (p_begin p_end : Z) :
  p_end - p_begin < 2 ^ 32 ->
  keeps P (set_output_data p_begin p_end).
Proof.
  intros Hlen. unfold set_output_data.
  apply keeps_bind; [apply keeps_check_bounds|]. intros _.
  intros st H. cbn [modify snd]. cbv zeta.
  set (bytes := read_range (mem (wa st)) p_begin p_end).
  assert (Er : reply (note_output bytes (set_reply st bytes)) = bytes).
  { unfold note_output. state_simpl. destruct (guest_runs st); reflexivity. }
  assert (Ec : cerr (note_output bytes (set_reply st bytes)) = cerr st).
  { unfold note_output. state_simpl. destruct (guest_runs st); reflexivity. }
  rewrite Er, Ec. apply (P_output (reply st)); [|exact H].
  unfold blob_short. subst bytes. rewrite read_range_length.
  assert (0 < 2 ^ 32) by (apply Z.pow_pos_nonneg; lia). lia.
Qed.

Lemma keeps_query_database (req_begin req_end cb_alloc_data cb_alloc : Z) :
  keeps P
    (query_database shared backend req_begin req_end cb_alloc_data cb_alloc).
Proof.
  unfold query_database.
  apply keeps_bind; [apply keeps_check_bounds|]. intros _.
  apply keeps_bind; auto with keeps. intros s.
  destruct (query_session s); [|auto with keeps].
  apply keeps_bind; [apply keeps_modify; reflexivity|]. intros _.
  apply keeps_bind; [apply keeps_alloc|]. intros data.
  apply keeps_copy_to.
Qed.

(** The one host function that writes the diagnostic stream, and only
    while the console is on. *)
Lemma keeps_print_range (p_begin p_end : Z) :
  quiet = false -> keeps P (print_range shared p_begin p_end).
Proof.
  intros Hq. specialize (P_print Hq). unfold print_range.
  apply keeps_bind; [apply keeps_check_bounds|]. intros _.
  destruct (console shared) eqn:E; [|auto with keeps].
  intros st H. cbn [modify snd]. state_simpl.
  apply P_print; [reflexivity | exact H].
Qed.

(** Guest offsets are 32-bit, so no range a guest can name is longer. *)
Lemma keeps_call_host_function (c : host_call) :
  (quiet = true -> match c with call_print_range _ _ => False | _ => True end) ->
  keeps P (call_host_function shared backend c).
Proof.
  intros Hquiet st H. unfold call_host_function.
  destruct c as [|test msg msg_len|d a|d a|b e|b e d a|b e]; cbv zeta.
  - exact H.
  - apply keeps_eosio_assert_message. exact H.
  - apply keeps_get_database_status. exact H.
  - apply keeps_get_input_data. exact H.
  - apply keeps_set_output_data; [|exact H].
    pose proof (to_uint32_range b). pose proof (to_uint32_range e). lia.
  - apply keeps_query_database. exact H.
  - apply keeps_print_range; [|exact H].
    destruct quiet; [destruct (Hquiet eq_refl) | reflexivity].
Qed.

Lemma keeps_run_guest (code : guest_code) :
  (quiet = true -> never_prints code) ->
  keeps P (run_guest shared backend code).
Proof.
  induction code as [| |c k IH]; intros Hquiet st H; cbn [run_guest];
    try exact H.
  assert (Hc : P (reply (snd (call_host_function shared backend c st)))
                 (cerr (snd (call_host_function shared backend c st)))).
  { apply keeps_call_host_function; [|exact H].
    intros Hq. apply (Hquiet Hq). }
  destruct (call_host_function shared backend c st) as [[[]|e|] st1];
    cbn [snd] in *; try exact Hc.
  apply IH; [|exact Hc]. intros Hq. apply (Hquiet Hq).
Qed.

End ObservedCalls.

Hypothesis modules_quiet : quiet = true -> quiet_modules shared.

Lemma keeps_run_query (short_name : Z) : keeps P (run_query shared short_name).
Proof.
  unfold run_query.
  destruct (wasm_files shared short_name) as [backend|] eqn:Efile;
    [|auto with keeps].
  apply keeps_bind; [apply keeps_modify; reflexivity|]. intros _.
  apply keeps_bind; auto with keeps. intros s1.
  apply keeps_bind.
  { apply keeps_run_guest. intros Hq.
    apply (modules_quiet Hq short_name backend Efile). }
  intros _.
  apply keeps_bind; auto with keeps. intros s2.
  apply keeps_run_guest. intros Hq.
  apply (modules_quiet Hq short_name backend Efile).
Qed.

Lemma keeps_did_fork : keeps P (did_fork shared).
Proof.
  intros st H. rewrite did_fork_cases.
  destruct (query_session st); [|exact H].
  cbv zeta. destruct (get_block_id _ _ _ _);
    [destruct (checksum256_eqb _ _)|]; exact H.
Qed.

Lemma keeps_query_requests (n : nat) :
  forall request_bin result,
    keeps P (query_requests shared n request_bin result).
Proof.
  induction n as [|n IH]; intros request_bin result st H.
  - exact H.
  - rewrite query_requests_step.
    destruct (read_blob request_bin) as [[sub_request request_bin']|];
      [|exact H].
    destruct (read_uint 8 sub_request) as [[ns_name r1]|]; [|exact H].
    cbv zeta. destruct (negb (ns_name =? local_n)); [exact H|].
    destruct (read_uint 8 r1) as [[short_name r2]|]; [|exact H].
    match goal with
    | |- context [run_query shared short_name ?s] => set (st2 := s)
    end.
    pose proof (keeps_run_query short_name st2 H) as H3.
    destruct (run_query shared short_name st2) as [[[]|e|] st3];
      cbn [snd] in H3; try exact H3.
    pose proof (keeps_did_fork st3 H3) as H4.
    destruct (did_fork shared st3) as [[[]|e|] st4];
      cbn [snd] in H4; try exact H4.
    apply IH. exact H4.
Qed.

Lemma keeps_query_attempt (request c : list byte) :
  keeps P (query_attempt shared request c).
Proof.
  unfold query_attempt. destruct (read_varuint32 request) as [[n rest]|];
    [apply keeps_query_requests | auto with keeps].
Qed.

Lemma keeps_legacy_attempt (c : unit) : keeps P (legacy_attempt shared c).
Proof.
  unfold legacy_attempt.
  apply keeps_bind; [apply keeps_run_query|]. intros _.
  apply keeps_bind; [apply keeps_did_fork|]. intros forked.
  auto with keeps.
Qed.

(** The loop's own steps write neither. *)
Lemma keeps_retry_loop {Captured : Type}
    (f : Captured -> M (bool * Captured)) (fuel : nat) :
  (forall c, keeps P (f c)) ->
  forall (num_tries : Z) (c : Captured),
    keeps P (retry_loop_from shared fuel num_tries f c).
Proof.
  intros Hf. induction fuel as [|fuel IH]; intros num_tries c st H;
    [exact H|].
  rewrite retry_loop_step. cbv zeta.
  destruct (head (fill_status (open_session shared st)) =? 0); [exact H|].
  pose proof (Hf c (snd (fill_context_data (open_session shared st))) H) as F.
  destruct (f c _) as [[[[] c']|e|] st3]; cbn [snd] in *; try exact F.
  destruct (num_tries + 1 >=? 4); [exact F|].
  apply IH. exact F.
Qed.

Lemma keeps_query (request : list byte) : keeps P (query shared request).
Proof.
  unfold query, retry_loop. apply keeps_retry_loop.
  intros c. apply keeps_query_attempt.
Qed.

Lemma keeps_legacy_query (target request : list byte) :
  keeps P (legacy_query shared target request).
Proof.
  intros st H. rewrite legacy_query_cases. unfold retry_loop.
  pose proof (keeps_retry_loop (legacy_attempt shared) 4 keeps_legacy_attempt
                0 tt (set_request st (push_blob target ++ push_blob request)) H)
    as F.
  destruct (retry_loop_from shared 4 0 (legacy_attempt shared) tt _)
    as [[[]|e|] st']; exact F.
Qed.

End Observed.

(** ** Replies a client can decode *)

Section ShortDriver.
Variable shared : shared_state.

Lemma short_run_query (short_name : Z) (st : state) :
  reply_short st -> reply_short (snd (run_query shared short_name st)).
Proof.
  apply (keeps_run_query shared (fun r _ => blob_short r) false).
  - intros r c b Hb _. exact Hb.
  - intros _ r c bytes _ H. exact H.
  - discriminate.
Qed.

Lemma short_did_fork (st : state) :
  reply_short st -> reply_short (snd (did_fork shared st)).
Proof. apply (keeps_did_fork shared (fun r _ => blob_short r)). Qed.

(** The blobs an attempt stages are all short, and as many as the
    sub-requests. *)
Lemma query_requests_blobs (n : nat) :
  forall (request_bin result : list byte) (st : state),
    reply_short st ->
    reply_short (snd (query_requests shared n request_bin result st)) /\
    forall result',
      fst (query_requests shared n request_bin result st) = Ok (true, result') ->
      exists blobs,
        length blobs = n /\ Forall blob_short blobs /\
        result' = result ++ flat_map push_blob blobs.
Proof.
  induction n as [|n IH]; intros request_bin result st H.
  - split; [exact H|]. intros result' [= <-]. exists [].
    split; [reflexivity|]. split; [constructor|].
    cbn. rewrite app_nil_r. reflexivity.
  - rewrite query_requests_step.
    destruct (read_blob request_bin) as [[sub_request request_bin']|];
      [|split; [exact H | discriminate]].
    destruct (read_uint 8 sub_request) as [[ns_name r1]|];
      [|split; [exact H | discriminate]].
    cbv zeta.
    destruct (negb (ns_name =? local_n)); [split; [exact H | discriminate]|].
    destruct (read_uint 8 r1) as [[short_name r2]|];
      [|split; [exact H | discriminate]].
    match goal with
    | |- context [run_query shared short_name ?s] => set (st2 := s)
    end.
    pose proof (short_run_query short_name st2 H) as H3.
    destruct (run_query shared short_name st2) as [[[]|e|] st3];
      cbn [snd] in H3; try (split; [exact H3 | discriminate]).
    pose proof (short_did_fork st3 H3) as H4.
    destruct (did_fork shared st3) as [[[]|e|] st4];
      cbn [snd] in H4; try (split; [exact H4 | discriminate]).
    destruct (IH request_bin' (result ++ push_blob (reply st4)) st4 H4)
      as [I1 I2].
    split; [exact I1|]. intros result' Hr.
    destruct (I2 result' Hr) as (blobs & B1 & B2 & B3).
    exists (reply st4 :: blobs).
    split; [cbn [length]; rewrite B1; reflexivity|].
    split; [constructor; [exact H4 | exact B2]|].
    rewrite B3. cbn [flat_map]. rewrite <- !app_assoc. reflexivity.
Qed.

(** The loop hands on what its last attempt staged. *)
Lemma retry_loop_short {Captured : Type}
    (f : Captured -> M (bool * Captured)) (Q : Captured -> Prop) (fuel : nat) :
  (forall c st, reply_short st ->
     reply_short (snd (f c st)) /\
     forall c', fst (f c st) = Ok (true, c') -> Q c') ->
  forall (num_tries : Z) (c : Captured) (st : state),
    reply_short st ->
    reply_short (snd (retry_loop_from shared fuel num_tries f c st)) /\
    forall c', fst (retry_loop_from shared fuel num_tries f c st) = Ok c' -> Q c'.
Proof.
  intros Hf. induction fuel as [|fuel IH]; intros num_tries c st H.
  - split; [exact H | discriminate].
  - rewrite retry_loop_step. cbv zeta.
    destruct (head (fill_status (open_session shared st)) =? 0);
      [split; [exact H | discriminate]|].
    destruct (Hf c (snd (fill_context_data (open_session shared st))) H)
      as [F1 F2].
    destruct (f c _) as [[[[] c']|e|] st3]; cbn [fst snd] in *;
      try (split; [exact F1 | discriminate]).
    + split; [exact F1|]. intros c'' [= <-]. apply F2. reflexivity.
    + destruct (num_tries + 1 >=? 4); [split; [exact F1 | discriminate]|].
      apply IH. exact F1.
Qed.

End ShortDriver.

Lemma read_blobs_push (blobs : list (list byte)) (tail : list byte) :
  Forall blob_short blobs ->
  read_blobs (length blobs) (flat_map push_blob blobs ++ tail) = Some (blobs, tail).
Proof.
  induction 1 as [|blob blobs Hb Hall IH]; [reflexivity|].
  cbn [length flat_map read_blobs]. rewrite <- app_assoc.
  rewrite read_blob_push by exact Hb. rewrite IH. reflexivity.
Qed.

(** An error of the loop is one of its own two, or the error of a call of
    the lambda. *)
Lemma retry_loop_throws {Captured : Type} (shared : shared_state)
    (f : Captured -> M (bool * Captured)) (fuel : nat) :
  forall (num_tries : Z) (c : Captured) (st : state) (e : error),
    fst (retry_loop_from shared fuel num_tries f c st) = Throw e ->
    e = too_many_forks \/ e = empty_database \/
    exists c0 st0, fst (f c0 st0) = Throw e.
Proof.
  induction fuel as [|fuel IH]; intros num_tries c st e; [discriminate|].
  rewrite retry_loop_step. cbv zeta.
  destruct (head (fill_status (open_session shared st)) =? 0).
  { intros [= <-]. right. left. reflexivity. }
  destruct (f c (snd (fill_context_data (open_session shared st))))
    as [[[[] c']|e'|] st3] eqn:Ef; cbn [fst].
  - discriminate.
  - destruct (num_tries + 1 >=? 4).
    + intros [= <-]. left. reflexivity.
    + apply IH.
  - intros [= <-]. right. right.
    exists c, (snd (fill_context_data (open_session shared st))).
    rewrite Ef. reflexivity.
  - discriminate.
Qed.

Lemma run_error_not_loop_error (e : error) :
  attempt_error e = true -> e <> too_many_forks /\ e <> empty_database.
Proof. intros H. split; intros ->; discriminate H. Qed.

(** A framed request as [query_attempt] reads it. *)
Lemma query_attempt_framed (shared : shared_state)
    (subs : list (Z * list byte)) (c : list byte) (st : state) :
  Z.of_nat (length subs) < 2 ^ 32 ->
  query_attempt shared (encode_request subs) c st =
  query_requests shared (length subs)
    (flat_map (fun sub => encode_sub_request local_n (fst sub) (snd sub)) subs
     ++ [])
    (push_varuint32 (Z.of_nat (length subs))) st.
Proof.
  intros Hlen. unfold query_attempt, encode_request.
  rewrite read_varuint32_push, to_uint32_small by lia.
  rewrite Nat2Z.id, app_nil_r. reflexivity.
Qed.

(** ** The retry bound and the fork check *)

(** C3.  What [retry_loop] does with the answer of an attempt, whatever
    the lambda: an attempt that ends without a fork commits at once, with
    no further session; an attempt that ends in a fork is followed by the
    next one unless it was the fourth, after which the loop throws
    [too_many_forks]; an error of the lambda ends the loop.  So [query]
    never needs more than the four iterations its loop is given: it makes
    between one and four attempts, one session each; a reply it returns is
    the answer of the attempt under the session created last, every
    earlier attempt having ended in a fork; and it throws
    [too_many_forks] only after four attempts that all ended in a fork. *)
Theorem query_retry_bound (shared : shared_state) (request : list byte)
    (st : state) :
  (forall (Captured : Type) (f : Captured -> M (bool * Captured))
          (fuel : nat) (num_tries : Z) (c : Captured) (s : state),
      head (get_fill_status (db_iface shared) (sessions_created s)) <> 0 ->
      retry_loop_from shared (S fuel) num_tries f c s =
      match f c (snd (fill_context_data (open_session shared s))) with
      | (Ok (true, c'), s3) => (Ok c', reset_session s3)
      | (Ok (false, c'), s3) =>
          if num_tries + 1 >=? 4 then (Throw too_many_forks, reset_session s3)
          else
            retry_loop_from shared fuel (num_tries + 1) f c'
              (reset_session (set_ilog s3 (ilog s3 ++ [log_retry_request])))
      | (Throw e, s3) => (Throw e, reset_session s3)
      | (out_of_fuel, s3) => (out_of_fuel, reset_session s3)
      end) /\
  fst (query shared request st) <> out_of_fuel /\
  (forall extra : nat,
      retry_loop_from shared (4 + extra) 0 (query_attempt shared request) [] st =
      query shared request st) /\
  exists attempts forks : nat,
    (1 <= attempts <= 4)%nat /\
    sessions_created (snd (query shared request st)) =
      (sessions_created st + attempts)%nat /\
    forks_detected (snd (query shared request st)) =
      (forks_detected st + forks)%nat /\
    match fst (query shared request st) with
    | Ok reply =>
        attempts = S forks /\
        exists staged s0 s1,
          S (sessions_created s0) = (sessions_created st + attempts)%nat /\
          query_attempt shared request staged
            (snd (fill_context_data (open_session shared s0))) =
            (Ok (true, reply), s1) /\
          snd (query shared request st) = reset_session s1
    | Throw e =>
        (e = too_many_forks /\ forks = 4%nat /\ attempts = 4%nat) \/
        (e <> too_many_forks /\ attempts = S forks)
    | out_of_fuel => False
    end.
Proof.
  split.
  { intros Captured f fuel num_tries c s Hhead.
    rewrite retry_loop_step. cbv zeta.
    change (fill_status (open_session shared s))
      with (get_fill_status (db_iface shared) (sessions_created s)).
    destruct (Z.eqb_spec
                (head (get_fill_status (db_iface shared) (sessions_created s))) 0);
      [contradiction | reflexivity]. }
  split; [apply query_never_out_of_fuel|].
  split; [intros extra; apply retry_loop_more_fuel|].
  unfold query, retry_loop.
  destruct (retry_loop_outcome shared (query_attempt shared request)
              (query_attempt_spec shared request) 4 0 [] st)
    as (a & k & H1 & H2 & H3 & H4 & H5 & H6); [lia | simpl; lia |].
  exists a, k.
  split; [lia|]. split; [exact H4|]. split; [exact H5|].
  destruct (fst (retry_loop_from shared 4 0 (query_attempt shared request) [] st))
    as [reply|e|].
  - exact H6.
  - destruct H6 as [(-> & J1 & J2)|[(-> & J1 & J2)|(J1 & J2)]].
    + left. split; [reflexivity|]. split; lia.
    + right. split; [discriminate | exact J1].
    + right. split; [|exact J2].
      apply (run_error_not_loop_error e J1).
  - exact H6.
Qed.

(** C4 (amended).  With a session open, [did_fork] returns [true] exactly
    when [get_block_id] of the captured head has no answer or answers with
    an id other than the captured [head_id]; it logs the fork exactly then
    and leaves the reply buffer alone.  An attempt in which a fork is
    detected returns [false] to the loop, in [query] and in [legacy_query]
    alike, and the loop then either fails with [too_many_forks] or starts
    the next attempt.  What [query] had staged in its reply vector is
    dropped, the next attempt starting from the empty vector; but the reply
    buffer is not cleared: the next attempt finds in it what the guests of
    the forked attempt wrote. *)
Theorem did_fork_iff (shared : shared_state) (st : state) (session : nat) :
  query_session st = Some session ->
  (exists forked st',
      did_fork shared st = (Ok forked, st') /\
      (forked = true <->
       (get_block_id (db_iface shared) session (session_calls st)
                     (head (fill_status st)) = None \/
        exists value,
          get_block_id (db_iface shared) session (session_calls st)
                       (head (fill_status st)) = Some value /\
          value <> head_id (fill_status st))) /\
      forks_detected st' =
        (forks_detected st + if forked then 1 else 0)%nat /\
      reply st' = reply st) /\
  (forall (request staged : list byte) (fuel : nat) (num_tries : Z) (st0 : state),
      let st1 := snd (fill_context_data (open_session shared st0)) in
      head (fill_status (open_session shared st0)) <> 0 ->
      forks_detected (snd (query_attempt shared request staged st1)) <>
        forks_detected st1 ->
      exists staged' st3,
        query_attempt shared request staged st1 = (Ok (false, staged'), st3) /\
        let st4 := reset_session (set_ilog st3 (ilog st3 ++ [log_retry_request])) in
        retry_loop_from shared (S fuel) num_tries
                        (query_attempt shared request) staged st0 =
        (if num_tries + 1 >=? 4 then (Throw too_many_forks, reset_session st3)
         else
           retry_loop_from shared fuel (num_tries + 1)
             (query_attempt shared request) [] st4) /\
        reply (snd (fill_context_data (open_session shared st4))) = reply st3) /\
  (forall (fuel : nat) (num_tries : Z) (st0 : state),
      let st1 := snd (fill_context_data (open_session shared st0)) in
      head (fill_status (open_session shared st0)) <> 0 ->
      forks_detected (snd (legacy_attempt shared tt st1)) <> forks_detected st1 ->
      exists st3,
        legacy_attempt shared tt st1 = (Ok (false, tt), st3) /\
        let st4 := reset_session (set_ilog st3 (ilog st3 ++ [log_retry_request])) in
        retry_loop_from shared (S fuel) num_tries (legacy_attempt shared) tt st0 =
        (if num_tries + 1 >=? 4 then (Throw too_many_forks, reset_session st3)
         else
           retry_loop_from shared fuel (num_tries + 1)
             (legacy_attempt shared) tt st4) /\
        reply (snd (fill_context_data (open_session shared st4))) = reply st3).
Proof.
  intros Hsession. split; [|split].
  - pose proof (did_fork_keeps shared st) as (_ & Hreply & _).
    revert Hreply. rewrite did_fork_cases, Hsession. cbv zeta.
    destruct (get_block_id _ _ _ _) as [value|].
    + destruct (checksum256_eqb value (head_id (fill_status st))) eqn:E;
        cbn [negb snd]; intros Hreply.
      * apply checksum256_eqb_eq in E.
        eexists; eexists. split; [reflexivity|]. split; [|split].
        -- split; [discriminate|].
           intros [H|[v [[= <-] Hv]]]; [discriminate | contradiction].
        -- unfold forks_detected. state_simpl. lia.
        -- exact Hreply.
      * eexists; eexists. split; [reflexivity|]. split; [|split].
        -- split; [|reflexivity]. intros _. right. exists value.
           split; [reflexivity|]. intros Heq.
           apply checksum256_eqb_eq in Heq. congruence.
        -- unfold forks_detected. state_simpl.
           rewrite filter_app, length_app. simpl. lia.
        -- exact Hreply.
    + cbn [snd]. intros Hreply.
      eexists; eexists. split; [reflexivity|]. split; [|split].
      * split; [|reflexivity]. intros _. left. reflexivity.
      * unfold forks_detected. state_simpl.
        rewrite filter_app, length_app. simpl. lia.
      * exact Hreply.
  - intros request staged fuel num_tries st0 st1 Hhead Hforks.
    pose proof (attempt_forks _ (query_attempt_spec shared request) staged st1)
      as Hf.
    destruct (query_attempt shared request staged st1)
      as [[[[] staged']|e|] st3] eqn:Eattempt; cbn [fst snd] in Hf, Hforks;
      try lia.
    exists staged', st3. split; [reflexivity|]. cbv zeta.
    split; [|reflexivity].
    rewrite retry_loop_step. cbv zeta.
    destruct (Z.eqb_spec (head (fill_status (open_session shared st0))) 0);
      [contradiction|].
    fold st1. rewrite Eattempt.
    destruct (num_tries + 1 >=? 4); [reflexivity|].
    apply retry_loop_staged_ignored.
  - intros fuel num_tries st0 st1 Hhead Hforks.
    pose proof (attempt_forks _ (legacy_attempt_spec shared) tt st1) as Hf.
    destruct (legacy_attempt shared tt st1)
      as [[[[] []]|e|] st3] eqn:Eattempt; cbn [fst snd] in Hf, Hforks;
      try lia.
    exists st3. split; [reflexivity|]. cbv zeta.
    split; [|reflexivity].
    rewrite retry_loop_step. cbv zeta.
    destruct (Z.eqb_spec (head (fill_status (open_session shared st0))) 0);
      [contradiction|].
    fold st1. rewrite Eattempt. reflexivity.
Qed.

(** X12.  The session of an attempt never outlives it: however [retry_loop]
    ends, with a result, with [too_many_forks], [empty_database] or an error
    thrown inside the lambda, the thread is left without a session; so are
    [query] and [legacy_query]. *)
Theorem session_released_on_every_exit (shared : shared_state) :
  (forall (Captured : Type) (f : Captured -> M (bool * Captured))
          (c : Captured) (st : state),
      query_session (snd (retry_loop shared f c st)) = None) /\
  (forall (request : list byte) (st : state),
      query_session (snd (query shared request st)) = None) /\
  (forall (target request : list byte) (st : state),
      query_session (snd (legacy_query shared target request st)) = None).
Proof.
  split; [|split].
  - intros Captured f c st. apply (retry_loop_releases shared f 3).
  - intros request st. apply (retry_loop_releases shared _ 3).
  - intros target request st. rewrite legacy_query_cases.
    pose proof (retry_loop_releases shared (legacy_attempt shared) 3 0 tt
                  (set_request st (push_blob target ++ push_blob request))) as H.
    fold (retry_loop shared (legacy_attempt shared) tt
            (set_request st (push_blob target ++ push_blob request))) in H.
    destruct (retry_loop shared (legacy_attempt shared) tt _) as [[[]|e|] st'];
      exact H.
Qed.

(** X13.  The ways [query] can fail: with [too_many_forks] after four
    attempts that all ended in a detected fork; with [empty_database] when
    the session of the last attempt reports head 0, every earlier attempt
    having forked; or with the error of the one attempt that threw (a
    framing error, an unknown namespace or module, or an error of a guest
    run), which ends the loop at once: such an error is never retried. *)
Theorem query_failures (shared : shared_state) (request : list byte)
    (st : state) (e : error) :
  fst (query shared request st) = Throw e ->
  exists attempts forks : nat,
    (1 <= attempts <= 4)%nat /\
    sessions_created (snd (query shared request st)) =
      (sessions_created st + attempts)%nat /\
    forks_detected (snd (query shared request st)) =
      (forks_detected st + forks)%nat /\
    ((e = too_many_forks /\ forks = 4%nat /\ attempts = 4%nat) \/
     (e = empty_database /\ attempts = S forks /\
      head (get_fill_status (db_iface shared)
              (sessions_created st + forks)) = 0) \/
     (attempt_error e = true /\ attempts = S forks)).
Proof.
  intros He. unfold query, retry_loop in *.
  destruct (retry_loop_outcome shared (query_attempt shared request)
              (query_attempt_spec shared request) 4 0 [] st)
    as (a & k & H1 & H2 & H3 & H4 & H5 & H6); [lia | simpl; lia |].
  rewrite He in H6. exists a, k.
  split; [lia|]. split; [exact H4|]. split; [exact H5|].
  destruct H6 as [(-> & J1 & J2)|[(-> & J1 & J2)|(J1 & J2)]].
  - left. split; [reflexivity|]. split; lia.
  - right. left. split; [reflexivity|]. split; assumption.
  - right. right. split; assumption.
Qed.

(** X14.  A request framed as in section 6 reaches the guest unframed: for
    the first sub-request the module it names is run with the request
    cursor holding exactly its payload (count, length, namespace and name
    consumed by the host), then the fork check is made, and what follows
    is the loop over the remaining sub-requests with the count and this
    run's reply staged. *)
Theorem framed_sub_request_input (shared : shared_state) (short_name : Z)
    (payload : list byte) (subs : list (Z * list byte)) (c : list byte)
    (st : state) :
  sub_request_ok (short_name, payload) ->
  Z.of_nat (S (length subs)) < 2 ^ 32 ->
  query_attempt shared (encode_request ((short_name, payload) :: subs)) c st =
  match run_query shared short_name (set_request st payload) with
  | (Ok _, st3) =>
      match did_fork shared st3 with
      | (Ok true, st4) =>
          (Ok (false, push_varuint32 (Z.of_nat (S (length subs)))), st4)
      | (Ok false, st4) =>
          query_requests shared (length subs)
            (flat_map (fun sub => encode_sub_request local_n (fst sub) (snd sub))
                      subs)
            (push_varuint32 (Z.of_nat (S (length subs))) ++
             push_blob (reply st4)) st4
      | (Throw e, st4) => (Throw e, st4)
      | (out_of_fuel, st4) => (out_of_fuel, st4)
      end
  | (Throw e, st3) => (Throw e, st3)
  | (out_of_fuel, st3) => (out_of_fuel, st3)
  end.
Proof.
  intros Hsub Hlen.
  rewrite query_attempt_framed by exact Hlen.
  rewrite app_nil_r. cbn [length flat_map fst snd].
  rewrite (query_requests_framed_step shared (length subs) local_n short_name
             payload _ _ st local_n_range Hsub).
  rewrite Z.eqb_refl. reflexivity.
Qed.

(** X15.  A first sub-request addressed to a namespace other than
    ["local"] makes [query] fail on the first attempt: with
    [empty_database] when the new session reports head 0, which the loop
    checks first, and with [unknown_namespace] otherwise.  Either way no
    module is looked up, no guest runs, no fork check is made, nothing is
    logged and nothing retried, whatever follows in the request. *)
Theorem foreign_namespace_refused (shared : shared_state) (ns short_name count : Z)
    (payload tail : list byte) (st : state) :
  0 <= ns < 2 ^ 64 -> ns <> local_n ->
  sub_request_ok (short_name, payload) -> 0 < count < 2 ^ 32 ->
  let request :=
    push_varuint32 count ++ encode_sub_request ns short_name payload ++ tail in
  fst (query shared request st) =
    Throw (if head (get_fill_status (db_iface shared) (sessions_created st)) =? 0
           then empty_database else unknown_namespace ns) /\
  sessions_created (snd (query shared request st)) = S (sessions_created st) /\
  guest_runs (snd (query shared request st)) = guest_runs st /\
  session_calls (snd (query shared request st)) = session_calls st /\
  ilog (snd (query shared request st)) = ilog st /\
  reply (snd (query shared request st)) = reply st.
Proof.
  intros Hns Hforeign Hsub Hcount. cbv zeta.
  unfold query, retry_loop. rewrite retry_loop_step. cbv zeta.
  change (fill_status (open_session shared st))
    with (get_fill_status (db_iface shared) (sessions_created st)).
  destruct (head (get_fill_status (db_iface shared) (sessions_created st)) =? 0).
  { repeat split. }
  unfold query_attempt.
  rewrite read_varuint32_push, to_uint32_small by lia.
  destruct (Z.to_nat count) as [|n] eqn:En; [lia|].
  rewrite (query_requests_framed_step shared n ns short_name payload tail _ _
             Hns Hsub).
  destruct (Z.eqb_spec ns local_n) as [E|_]; [contradiction|].
  cbn [negb]. repeat split.
Qed.

(** X16.  For a framed request, what [query] runs is what the request
    names: a committed reply comes from one guest run per sub-request, of
    the modules named, in the order of the request; and a failure is never
    one of framing: it is [too_many_forks], [empty_database], an unknown
    module, or an error of a guest run. *)
Theorem framed_request_runs_named_modules (shared : shared_state)
    (subs : list (Z * list byte)) (st : state) :
  Forall sub_request_ok subs -> Z.of_nat (length subs) < 2 ^ 32 ->
  match fst (query shared (encode_request subs) st) with
  | Ok _ =>
      exists runs older,
        guest_runs (snd (query shared (encode_request subs) st)) =
          rev runs ++ older /\
        map run_name runs = map fst subs
  | Throw e => e = too_many_forks \/ e = empty_database \/ run_error e = true
  | out_of_fuel => False
  end.
Proof.
  intros Hsubs Hlen. unfold query, retry_loop.
  destruct (retry_loop_outcome shared (query_attempt shared (encode_request subs))
              (query_attempt_spec shared _) 4 0 [] st)
    as (a & k & _ & _ & _ & _ & _ & H6); [lia | simpl; lia |].
  pose proof (retry_loop_throws shared (query_attempt shared (encode_request subs))
                4 0 [] st) as Ht.
  destruct (fst (retry_loop_from shared 4 0 _ [] st)) as [reply_bytes|e|].
  - destruct H6 as (_ & c0 & st0 & st1 & _ & Hrun & ->).
    rewrite query_attempt_framed in Hrun by exact Hlen.
    pose proof (query_requests_framed shared subs Hsubs []
                  (push_varuint32 (Z.of_nat (length subs)))
                  (snd (fill_context_data (open_session shared st0)))) as Hf.
    rewrite Hrun in Hf. cbn [fst snd] in Hf.
    destruct Hf as (runs & H1 & H2).
    exists runs, (guest_runs (snd (fill_context_data (open_session shared st0)))).
    split; [exact H1 | exact H2].
  - destruct (Ht e eq_refl) as [->|[->|(c0 & st0 & Hthrow)]];
      [left; reflexivity | right; left; reflexivity |].
    right. right.
    rewrite query_attempt_framed in Hthrow by exact Hlen.
    pose proof (query_requests_framed shared subs Hsubs []
                  (push_varuint32 (Z.of_nat (length subs))) st0) as Hf.
    rewrite Hthrow in Hf. exact Hf.
  - exact H6.
Qed.

(** X17.  [legacy_query] makes between one and four attempts, one session
    each.  Its result is the reply buffer as the last attempt left it,
    unframed: the latest guest run is one of the module ["legacy"] under
    the session created last, and the result is what that run last handed
    to [set_output_data], if it handed over anything.  It fails like
    [query], except that no framing is read, so that an attempt can only
    fail in the run itself (or for want of the module). *)
Theorem legacy_query_outcome (shared : shared_state) (target request : list byte)
    (st : state) :
  exists attempts forks : nat,
    (1 <= attempts <= 4)%nat /\
    sessions_created (snd (legacy_query shared target request st)) =
      (sessions_created st + attempts)%nat /\
    forks_detected (snd (legacy_query shared target request st)) =
      (forks_detected st + forks)%nat /\
    match fst (legacy_query shared target request st) with
    | Ok reply_bytes =>
        attempts = S forks /\
        reply_bytes = reply (snd (legacy_query shared target request st)) /\
        exists run older,
          guest_runs (snd (legacy_query shared target request st)) =
            run :: older /\
          run_session run = Some (sessions_created st + forks)%nat /\
          run_name run = legacy_n /\
          forall bytes, last_output run = Some bytes -> reply_bytes = bytes
    | Throw e =>
        (e = too_many_forks /\ forks = 4%nat /\ attempts = 4%nat) \/
        (e = empty_database /\ attempts = S forks /\
         head (get_fill_status (db_iface shared)
                 (sessions_created st + forks)) = 0) \/
        (run_error e = true /\ attempts = S forks)
    | out_of_fuel => False
    end.
Proof.
  rewrite legacy_query_cases. unfold retry_loop.
  set (st0 := set_request st (push_blob target ++ push_blob request)).
  destruct (retry_loop_outcome shared (legacy_attempt shared)
              (legacy_attempt_spec shared) 4 0 tt st0)
    as (a & k & H1 & H2 & H3 & H4 & H5 & H6); [lia | simpl; lia |].
  pose proof (retry_loop_throws shared (legacy_attempt shared) 4 0 tt st0) as Ht.
  change (sessions_created st0) with (sessions_created st) in *.
  change (forks_detected st0) with (forks_detected st) in *.
  destruct (retry_loop_from shared 4 0 (legacy_attempt shared) tt st0)
    as [[[]|e|] st'] eqn:Eloop; cbn [fst snd] in *.
  - exists a, k. split; [lia|]. split; [exact H4|]. split; [exact H5|].
    destruct H6 as (-> & [] & s0 & s1 & J1 & J2 & ->).
    split; [reflexivity|]. split; [reflexivity|].
    set (s2 := snd (fill_context_data (open_session shared s0))) in *.
    pose proof (legacy_attempt_cases shared s2) as Hc.
    pose proof (run_query_effect shared legacy_n s2) as (_ & _ & _ & _ & _ & Hr).
    destruct (run_query shared legacy_n s2) as [[[]|e|] s3];
      cbn [fst snd] in *; try congruence.
    destruct Hr as [[_ Hr]|(outs & Hruns & Hreply)]; [discriminate|].
    pose proof (did_fork_keeps shared s3) as (D1 & D2 & _).
    destruct (did_fork shared s3) as [[forked|e|] s4]; cbn [fst snd] in *;
      try congruence.
    rewrite J2 in Hc. injection Hc as _ <-.
    exists (GuestRun (query_session s2) legacy_n outs), (guest_runs s2).
    state_simpl. split; [congruence|].
    split.
    { change (query_session s2) with (Some (sessions_created s0)).
      cbn [run_session]. f_equal. lia. }
    split; [reflexivity|].
    intros bytes Hb. rewrite D2, Hreply, (last_of_outputs (query_session s2) legacy_n).
    rewrite Hb. reflexivity.
  - exists a, k. split; [lia|]. split; [exact H4|]. split; [exact H5|].
    destruct H6 as [(-> & J1 & J2)|[(-> & J1 & J2)|(J1 & J2)]].
    + left. split; [reflexivity|]. split; lia.
    + right. left. split; [reflexivity|]. split; assumption.
    + right. right. split; [|exact J2].
      destruct (run_error_not_loop_error e J1) as [N1 N2].
      destruct (Ht e eq_refl) as [->|[->|([] & s0 & Hthrow)]];
        [contradiction | contradiction |].
      pose proof (legacy_attempt_cases shared s0) as Hc.
      pose proof (raises_run_query_run shared legacy_n s0) as Hr.
      destruct (run_query shared legacy_n s0) as [[[]|e'|] s1];
        cbn [fst] in Hr; rewrite Hc in Hthrow; cbn [fst] in Hthrow.
      * pose proof (raises_did_fork_run shared s1) as Hd.
        destruct (did_fork shared s1) as [[forked|e'|] s2]; cbn [fst] in *;
          try discriminate.
        injection Hthrow as <-. apply Hd. reflexivity.
      * injection Hthrow as <-. apply Hr. reflexivity.
      * discriminate.
  - contradiction.
Qed.

(** The lambda is only ever called with the request cursor the loop was
    started with, when the lambda itself leaves the cursor alone. *)
Lemma retry_loop_calls_on_request {Captured : Type} (shared : shared_state)
    (f : Captured -> M (bool * Captured)) (fuel : nat) :
  (forall c s, request (snd (f c s)) = request s) ->
  forall (num_tries : Z) (c : Captured) (st : state),
    match retry_loop_from shared fuel num_tries f c st with
    | (Ok c', st') =>
        exists c0 s0 s1,
          request s0 = request st /\
          f c0 s0 = (Ok (true, c'), s1) /\ st' = reset_session s1
    | (Throw e, _) =>
        e = too_many_forks \/ e = empty_database \/
        exists c0 s0, request s0 = request st /\ fst (f c0 s0) = Throw e
    | (out_of_fuel, _) => True
    end.
Proof.
  intros Hf. induction fuel as [|fuel IH]; intros num_tries c st; [exact I|].
  rewrite retry_loop_step. cbv zeta.
  destruct (head (fill_status (open_session shared st)) =? 0).
  { right. left. reflexivity. }
  set (s2 := snd (fill_context_data (open_session shared st))).
  pose proof (Hf c s2) as Hkeep.
  destruct (f c s2) as [[[[] c']|e|] s3] eqn:Ef; cbn [snd] in Hkeep.
  - exists c, s2, s3. split; [reflexivity|]. split; [exact Ef | reflexivity].
  - destruct (num_tries + 1 >=? 4); [left; reflexivity|].
    specialize (IH (num_tries + 1) c'
                  (reset_session (set_ilog s3 (ilog s3 ++ [log_retry_request])))).
    change (request (reset_session
                       (set_ilog s3 (ilog s3 ++ [log_retry_request]))))
      with (request s3) in IH.
    rewrite Hkeep in IH. exact IH.
  - right. right. exists c, s2. split; [reflexivity|]. rewrite Ef. reflexivity.
  - exact I.
Qed.


(** X19.  A client can always take a committed reply apart: when the reply
    buffer was short to begin with (it is empty in a new thread, and no
    guest can hand over a range longer than its 32-bit offsets allow),
    every reply [query] commits is the encoding of as many blobs as the
    request counts sub-requests, and reading it gives back these blobs with
    no byte left over. *)
Theorem committed_reply_decodes (shared : shared_state)
    (request reply_bytes : list byte) (st st' : state) :
  reply_short st ->
  query shared request st = (Ok reply_bytes, st') ->
  reply_short st' /\
  exists n rest blobs,
    read_varuint32 request = Some (n, rest) /\
    length blobs = Z.to_nat n /\
    reply_bytes = encode_reply blobs /\
    decode_reply reply_bytes = Some blobs.
Proof.
  intros Hshort Hq. unfold query, retry_loop in Hq.
  pose (Q := fun result : list byte =>
               exists n rest blobs,
                 read_varuint32 request = Some (n, rest) /\
                 length blobs = Z.to_nat n /\ Forall blob_short blobs /\
                 result = push_varuint32 n ++ flat_map push_blob blobs).
  destruct (retry_loop_short shared (query_attempt shared request) Q 4) with
    (num_tries := 0) (c := @nil byte) (st := st) as [H1 H2].
  - intros c s Hs. unfold query_attempt.
    destruct (read_varuint32 request) as [[n rest]|] eqn:En;
      [|split; [exact Hs | discriminate]].
    destruct (query_requests_blobs shared (Z.to_nat n) rest
                ([] ++ push_varuint32 n) s Hs) as [B1 B2].
    split; [exact B1|]. intros c' Hc.
    destruct (B2 c' Hc) as (blobs & L & S & R).
    exists n, rest, blobs. repeat split; assumption.
  - exact Hshort.
  - rewrite Hq in H1, H2. cbn [fst snd] in *. split; [exact H1|].
    destruct (H2 reply_bytes eq_refl) as (n & rest & blobs & Hn & L & S & R).
    exists n, rest, blobs.
    pose proof (read_varuint32_range _ _ _ Hn) as Hrange.
    assert (Hcount : Z.of_nat (length blobs) = n) by lia.
    split; [exact Hn|]. split; [exact L|].
    split; [unfold encode_reply; rewrite Hcount; exact R|].
    rewrite R. unfold decode_reply.
    rewrite read_varuint32_push, to_uint32_small by lia.
    rewrite <- L, <- (app_nil_r (flat_map push_blob blobs)).
    rewrite read_blobs_push by exact S. reflexivity.
Qed.


End DriverFacts.

(* ================================================================== *)
(** * Requests run on the sample stores *)
(* ================================================================== *)

Module DriverScenarios.
Import Wire WasmQL Examples Framing Samples DriverFacts.

(** C3 on two stores.  On the store that loses its head every time, a
    request for [writer] makes four attempts and fails; on the steady store
    its first attempt ends without a fork and is committed at once. *)
Lemma query_retry_bound_witness :
  fst (query unstable_shared writer_request initial_state) =
    Throw too_many_forks /\
  sessions_created (snd (query unstable_shared writer_request initial_state)) =
    4%nat /\
  forks_detected (snd (query unstable_shared writer_request initial_state)) =
    4%nat /\
  query steady_shared writer_request initial_state =
    (Ok [1; 1; 7],
     reset_session
       (snd (query_attempt steady_shared writer_request [] first_attempt))).
Proof.
  assert (E : fst (query unstable_shared writer_request initial_state) =
              Throw too_many_forks) by (vm_compute; reflexivity).
  split; [exact E|].
  destruct (query_retry_bound unstable_shared writer_request initial_state)
    as (_ & _ & _ & a & k & _ & Hs & Hk & Hm).
  destruct (query_retry_bound steady_shared writer_request initial_state)
    as (Hstep & _).
  rewrite E in Hm.
  destruct Hm as [(_ & -> & ->)|(Hn & _)]; [|contradiction Hn; reflexivity].
  split; [exact Hs|]. split; [exact Hk|].
  etransitivity.
  - apply (Hstep (list byte) (query_attempt steady_shared writer_request)
             3%nat 0 [] initial_state).
    vm_compute. discriminate.
  - vm_compute. reflexivity.
Defined.

(** C4, counterexample.  The store forks under the first session, under
    which the legacy module has written the byte 9; the second attempt
    commits, its run writes nothing, and [legacy_query] returns the 9 of
    the forked attempt: the reply of that attempt was not discarded. *)
Lemma forked_attempt_reply_returned :
  let result := legacy_query stale_legacy_shared [] [] initial_state in
  fst result = Ok [9] /\
  map run_summary (guest_runs (snd result)) =
    [(Some 1%nat, legacy_n, []); (Some 0%nat, legacy_n, [[9]])] /\
  sessions_created (snd result) = 2%nat /\
  forks_detected (snd result) = 1%nat.
Proof.
  cbv zeta. split; [vm_compute; reflexivity|].
  split; [vm_compute; reflexivity|].
  split; vm_compute; reflexivity.
Qed.

(** [did_fork] on a store that has lost its head: the fork is detected and
    logged. *)
Lemma did_fork_iff_witness :
  query_session unstable_attempt = Some 0%nat /\
  exists st',
    did_fork unstable_shared unstable_attempt = (Ok true, st') /\
    forks_detected st' = S (forks_detected unstable_attempt) /\
    reply st' = reply unstable_attempt.
Proof.
  split; [reflexivity|].
  destruct (did_fork_iff unstable_shared unstable_attempt 0%nat eq_refl)
    as [(forked & st' & Hrun & Hiff & Hforks & Hreply) _].
  assert (Hforked : forked = true).
  { apply Hiff. left. reflexivity. }
  subst forked. exists st'.
  split; [exact Hrun|]. split; [|exact Hreply].
  rewrite Hforks. apply Nat.add_1_r.
Defined.

(** On a store that loses its head every time, a request for [writer]
    uses up its four attempts. *)
Lemma query_failures_witness :
  fst (query unstable_shared writer_request initial_state) =
    Throw too_many_forks /\
  exists attempts forks : nat,
    (1 <= attempts <= 4)%nat /\
    sessions_created (snd (query unstable_shared writer_request initial_state)) =
      (sessions_created initial_state + attempts)%nat /\
    forks_detected (snd (query unstable_shared writer_request initial_state)) =
      (forks_detected initial_state + forks)%nat /\
    ((too_many_forks = too_many_forks /\ forks = 4%nat /\ attempts = 4%nat) \/
     (too_many_forks = empty_database /\ attempts = S forks /\
      head (get_fill_status (db_iface unstable_shared)
              (sessions_created initial_state + forks)) = 0) \/
     (attempt_error too_many_forks = true /\ attempts = S forks)).
Proof.
  assert (H : fst (query unstable_shared writer_request initial_state) =
              Throw too_many_forks) by (vm_compute; reflexivity).
  split; [exact H|].
  exact (query_failures unstable_shared writer_request initial_state
           too_many_forks H).
Defined.

(** The request for [writer] and [silent], first attempt. *)
Lemma framed_sub_request_input_witness :
  sub_request_ok (writer_n, []) /\
  Z.of_nat (S (length [(silent_n, [5])])) < 2 ^ 32 /\
  fst (query_attempt steady_shared (encode_request two_modules) []
         first_attempt) = Ok (true, [2; 1; 7; 1; 7]).
Proof.
  assert (H1 : sub_request_ok (writer_n, []))
    by (vm_compute; repeat split; discriminate || reflexivity).
  assert (H2 : Z.of_nat (S (length [(silent_n, [5])])) < 2 ^ 32)
    by reflexivity.
  split; [exact H1|]. split; [exact H2|].
  unfold two_modules.
  rewrite (framed_sub_request_input steady_shared writer_n []
             [(silent_n, [5])] [] first_attempt H1 H2).
  vm_compute. reflexivity.
Defined.

(** A request addressed to the namespace 77, on the steady store and on
    the store without blocks. *)
Lemma foreign_namespace_refused_witness :
  fst (query steady_shared foreign_request initial_state) =
    Throw (unknown_namespace 77) /\
  guest_runs (snd (query steady_shared foreign_request initial_state)) = [] /\
  fst (query empty_shared foreign_request initial_state) =
    Throw empty_database.
Proof.
  assert (H1 : 0 <= 77 < 2 ^ 64)
    by (vm_compute; split; discriminate || reflexivity).
  assert (H2 : 77 <> local_n) by (vm_compute; discriminate).
  assert (H3 : sub_request_ok (writer_n, []))
    by (vm_compute; repeat split; discriminate || reflexivity).
  assert (H4 : 0 < 1 < 2 ^ 32) by (split; reflexivity).
  pose proof (foreign_namespace_refused steady_shared 77 writer_n 1 [] []
                initial_state H1 H2 H3 H4) as H.
  pose proof (foreign_namespace_refused empty_shared 77 writer_n 1 [] []
                initial_state H1 H2 H3 H4) as H'.
  cbv zeta in H, H'. destruct H as (E1 & _ & E3 & _). destruct H' as (E1' & _).
  split; [exact E1|]. split; [exact E3 | exact E1'].
Defined.

(** [writer], then [silent], on the steady store. *)
Lemma framed_request_runs_named_modules_witness :
  Forall sub_request_ok two_modules /\
  Z.of_nat (length two_modules) < 2 ^ 32 /\
  fst (query steady_shared (encode_request two_modules) initial_state) =
    Ok [2; 1; 7; 1; 7] /\
  exists runs older,
    guest_runs (snd (query steady_shared (encode_request two_modules)
                       initial_state)) = rev runs ++ older /\
    map run_name runs = map fst two_modules.
Proof.
  assert (H1 : Forall sub_request_ok two_modules)
    by (repeat constructor; vm_compute; discriminate || reflexivity).
  assert (H2 : Z.of_nat (length two_modules) < 2 ^ 32) by reflexivity.
  split; [exact H1|]. split; [exact H2|].
  pose proof (framed_request_runs_named_modules steady_shared two_modules
                initial_state H1 H2) as H.
  remember (query steady_shared (encode_request two_modules) initial_state)
    as q eqn:Eq.
  vm_compute in Eq. rewrite Eq in H |- *. cbn [fst] in H |- *.
  split; [reflexivity | exact H].
Defined.


(** The reply to [writer] and [silent] read back. *)
Lemma committed_reply_decodes_witness :
  let st' := snd (query steady_shared writer_then_silent initial_state) in
  reply_short initial_state /\
  query steady_shared writer_then_silent initial_state =
    (Ok [2; 1; 7; 1; 7], st') /\
  reply_short st' /\
  exists n rest blobs,
    read_varuint32 writer_then_silent = Some (n, rest) /\
    length blobs = Z.to_nat n /\
    [2; 1; 7; 1; 7] = encode_reply blobs /\
    decode_reply [2; 1; 7; 1; 7] = Some blobs.
Proof.
  intros st'.
  assert (H1 : reply_short initial_state) by reflexivity.
  assert (H2 : query steady_shared writer_then_silent initial_state =
               (Ok [2; 1; 7; 1; 7], st')) by (vm_compute; reflexivity).
  split; [exact H1|]. split; [exact H2|].
  exact (committed_reply_decodes steady_shared writer_then_silent
           [2; 1; 7; 1; 7] initial_state st' H1 H2).
Defined.

(** No sample module calls [print_range]. *)
Lemma sample_modules_quiet : quiet_modules console_shared.
Proof.
  intros short_name backend Hfile wa.
  unfold console_shared, wasm_files, files in Hfile.
  destruct (short_name =? writer_n); [injection Hfile as <-|].
  { split; cbn; repeat split. }
  destruct (short_name =? silent_n); [injection Hfile as <-|].
  { split; cbn; repeat split. }
  destruct (short_name =? head_writer_n); [injection Hfile as <-|].
  { split; cbn; repeat split. }
  destruct (short_name =? conditional_n); [injection Hfile as <-|discriminate].
  split; cbn; [exact I|]. split; [exact I|]. intros wa'.
  destruct (mem wa' (base_ptr wa' + 16) =? 1); cbn; repeat split.
Qed.


End DriverScenarios.
